(** * Release preparation script ([scripts/release.py])

    A shallow embedding of the release script: the version arithmetic
    ([next_prerelease], [validate_version], [is_alpha_version], ...), the
    parts of the [semantic_version] and [packaging.version] libraries the
    script calls, and the orchestration in [main], whose external
    collaborators (git, towncrier, the version file, [pyproject.toml], the
    interactive prompts) are an oracle that answers each call while the
    calls themselves are recorded in a trace.

    Python [str] is [string] (code points below 256), Python's unbounded
    non-negative [int] is [N], tuples of identifiers are lists. *)

From Stdlib Require Import String Ascii List NArith Bool Lia.
From Stdlib Require Import DecimalString DecimalN DecimalFacts.
Import ListNotations.

Open Scope string_scope.
Open Scope N_scope.

Set Default Goal Selector "!".

(* ================================================================== *)
(** ** Python strings *)

Module Str.

(** [c in "0123456789"], the ASCII part of [str.isdigit] and of [\d]. *)
Definition is_digit (c : ascii) : bool :=
  let n := N_of_ascii c in (48 <=? n) && (n <=? 57).

(** Longest prefix whose characters satisfy [p], and what follows it. *)
Fixpoint span (p : ascii -> bool) (s : string) : string * string :=
  match s with
  | String c s' =>
      if p c then let (a, b) := span p s' in (String c a, b) else ("", s)
  | "" => ("", "")
  end.

Fixpoint all (p : ascii -> bool) (s : string) : bool :=
  match s with
  | String c s' => p c && all p s'
  | "" => true
  end.

(** [s.replace(c, "")] for a one-character [c]. *)
Fixpoint remove (c : ascii) (s : string) : string :=
  match s with
  | String d s' => if Ascii.eqb d c then remove c s' else String d (remove c s')
  | "" => ""
  end.

(** [s.replace(c, d)] for one-character [c] and [d]. *)
Fixpoint replace (c d : ascii) (s : string) : string :=
  match s with
  | String e s' => String (if Ascii.eqb e c then d else e) (replace c d s')
  | "" => ""
  end.

(** Character-wise substitution, as [re.sub] of a one-character class. *)
Fixpoint map (f : ascii -> ascii) (s : string) : string :=
  match s with
  | String c s' => String (f c) (map f s')
  | "" => ""
  end.

(** [s.split(c)]: always at least one piece. *)
Fixpoint split (c : ascii) (s : string) : list string :=
  match s with
  | String d s' =>
      if Ascii.eqb d c then "" :: split c s'
      else match split c s' with
           | piece :: pieces => String d piece :: pieces
           | [] => [String d ""]
           end
  | "" => [""]
  end.

(** [s.split(c, 1)] when [c] occurs in [s]; [None] when it does not. *)
Fixpoint split_once (c : ascii) (s : string) : option (string * string) :=
  match s with
  | String d s' =>
      if Ascii.eqb d c then Some ("", s')
      else match split_once c s' with
           | Some (a, b) => Some (String d a, b)
           | None => None
           end
  | "" => None
  end.

(** [sep.join(pieces)]. *)
Definition join (sep : string) (pieces : list string) : string :=
  String.concat sep pieces.

(** [s.lstrip(c)]. *)
Fixpoint lstrip (c : ascii) (s : string) : string :=
  match s with
  | String d s' => if Ascii.eqb d c then lstrip c s' else s
  | "" => ""
  end.

(** [s.count(c)]. *)
Fixpoint count (c : ascii) (s : string) : nat :=
  match s with
  | String d s' => (if Ascii.eqb d c then 1 else 0)%nat + count c s'
  | "" => 0%nat
  end.

(** Python truthiness of a string. *)
Definition nonempty (s : string) : bool :=
  match s with "" => false | _ => true end.

(** [x in xs] for a collection of strings. *)
Definition mem (x : string) (xs : list string) : bool :=
  existsb (String.eqb x) xs.

(** ["%d" % n] and [str(n)] for a non-negative integer. *)
Definition of_int (n : N) : string :=
  NilEmpty.string_of_uint (N.to_uint n).

(** [int(s)] on a text of ASCII digits, the only texts the script and
    the version library convert; [None] stands for [ValueError]. *)
Definition to_int (s : string) : option N :=
  if nonempty s && all is_digit s
  then option_map N.of_uint (NilEmpty.uint_of_string s)
  else None.

End Str.

(* ================================================================== *)
(** ** Regular expressions ([re]), matched by derivatives *)

Module Re.

Inductive re : Type :=
| Void                              (* matches nothing *)
| Eps                               (* the empty text *)
| Chr (p : ascii -> bool)           (* one character of a class *)
| Cat (r1 r2 : re)
| Alt (r1 r2 : re)
| Star (r : re).

Definition Opt (r : re) : re := Alt r Eps.
Definition Plus (r : re) : re := Cat r (Star r).
Definition Seq (rs : list re) : re := fold_right Cat Eps rs.

(** A literal text. *)
Fixpoint Lit (s : string) : re :=
  match s with
  | String c s' => Cat (Chr (Ascii.eqb c)) (Lit s')
  | "" => Eps
  end.

Definition lower (c : ascii) : ascii :=
  let n := N_of_ascii c in
  if (65 <=? n) && (n <=? 90) then ascii_of_N (n + 32) else c.

(** A lower-case literal under [re.IGNORECASE]. *)
Fixpoint LitI (s : string) : re :=
  match s with
  | String c s' => Cat (Chr (fun d => Ascii.eqb (lower d) c)) (LitI s')
  | "" => Eps
  end.

Fixpoint nullable (r : re) : bool :=
  match r with
  | Void => false
  | Eps => true
  | Chr _ => false
  | Cat r1 r2 => nullable r1 && nullable r2
  | Alt r1 r2 => nullable r1 || nullable r2
  | Star _ => true
  end.

Definition cat (r1 r2 : re) : re :=
  match r1, r2 with
  | Void, _ => Void
  | _, Void => Void
  | Eps, _ => r2
  | _, _ => Cat r1 r2
  end.

Definition alt (r1 r2 : re) : re :=
  match r1, r2 with
  | Void, _ => r2
  | _, Void => r1
  | _, _ => Alt r1 r2
  end.

Fixpoint deriv (c : ascii) (r : re) : re :=
  match r with
  | Void => Void
  | Eps => Void
  | Chr p => if p c then Eps else Void
  | Cat r1 r2 =>
      if nullable r1 then alt (cat (deriv c r1) r2) (deriv c r2)
      else cat (deriv c r1) r2
  | Alt r1 r2 => alt (deriv c r1) (deriv c r2)
  | Star r1 => cat (deriv c r1) (Star r1)
  end.

(** [r] matches the whole of [s]. *)
Fixpoint fullmatch (r : re) (s : string) : bool :=
  match s with
  | String c s' => fullmatch (deriv c r) s'
  | "" => nullable r
  end.

(** [re.match] (or [re.search]) of a pattern anchored with [^] and [$]:
    [$] also matches just before a newline that ends the text. *)
Definition match_anchored (r : re) (s : string) : bool :=
  fullmatch (Cat r (Opt (Chr (Ascii.eqb (ascii_of_N 10))))) s.

(** The texts a pattern denotes. *)
Inductive lang : re -> string -> Prop :=
| lang_eps : lang Eps ""
| lang_chr p c : p c = true -> lang (Chr p) (String c "")
| lang_cat r1 r2 s1 s2 :
    lang r1 s1 -> lang r2 s2 -> lang (Cat r1 r2) (s1 ++ s2)
| lang_alt_l r1 r2 s : lang r1 s -> lang (Alt r1 r2) s
| lang_alt_r r1 r2 s : lang r2 s -> lang (Alt r1 r2) s
| lang_star_nil r : lang (Star r) ""
| lang_star_cons r s1 s2 :
    lang r s1 -> lang (Star r) s2 -> lang (Star r) (s1 ++ s2).

Definition digit : re := Chr Str.is_digit.

(** [\s] on text: the white space of [str.isspace] below code point 256. *)
Definition is_space (c : ascii) : bool :=
  let n := N_of_ascii c in
  ((9 <=? n) && (n <=? 13)) || ((28 <=? n) && (n <=? 32))
  || (n =? 133) || (n =? 160).

End Re.

(* ================================================================== *)
(** ** [packaging.version]: PEP 440 versions and legacy versions *)

Module Pep440.
Import Re.

(** [[-_\.]?] *)
Definition sep : re :=
  Opt (Chr (fun c => Ascii.eqb c "-" || Ascii.eqb c "_" || Ascii.eqb c ".")).

(** [[a-z0-9]] under [re.IGNORECASE] *)
Definition alnum : re :=
  Chr (fun c => Str.is_digit c
                || let n := N_of_ascii (lower c) in (97 <=? n) && (n <=? 122)).

Definition pre_l : re :=
  Alt (LitI "a") (Alt (LitI "b") (Alt (LitI "c") (Alt (LitI "rc")
    (Alt (LitI "alpha") (Alt (LitI "beta") (Alt (LitI "pre") (LitI "preview"))))))).

Definition post_l : re :=
  Alt (LitI "post") (Alt (LitI "rev") (LitI "r")).

(** [packaging.version.VERSION_PATTERN]: optional [v], epoch, release
    segment, pre-release, post-release, dev release, local version. *)
Definition VERSION_PATTERN : re :=
  Seq [ Opt (LitI "v");
        Opt (Cat (Plus digit) (Lit "!"));
        Cat (Plus digit) (Star (Cat (Lit ".") (Plus digit)));
        Opt (Seq [sep; pre_l; sep; Opt (Plus digit)]);
        Opt (Alt (Cat (Lit "-") (Plus digit))
                 (Seq [sep; post_l; sep; Opt (Plus digit)]));
        Opt (Seq [sep; LitI "dev"; sep; Opt (Plus digit)]);
        Opt (Seq [Lit "+"; Plus alnum;
                  Star (Cat (Chr (fun c => Ascii.eqb c "-" || Ascii.eqb c "_"
                                           || Ascii.eqb c "."))
                            (Plus alnum))]) ].

(** [Version._regex]: the pattern between [^\s*] and [\s*$]. *)
Definition version_regex : re :=
  Seq [Star (Chr is_space); VERSION_PATTERN; Star (Chr is_space)].

(** [isinstance(parse(version), LegacyVersion)]: [parse] falls back to a
    legacy version exactly when the text is not a PEP 440 version. *)
Definition is_legacy (version : string) : bool :=
  negb (match_anchored version_regex version).

End Pep440.

(* ================================================================== *)
(** ** Outcomes of Python computations *)

Inductive exn : Type :=
| ValueError
| AttributeError
| KeyError
| FileNotFoundError
| CalledProcessError
| TomlDecodeError
| InvalidVersionNumber.   (* [Exception("Invalid version number ...")] *)

(** A call returns a value, leaves through [sys.exit(code)], or raises. *)
Inductive outcome (A : Type) : Type :=
| Ret (a : A)
| Exit (code : N)
| Raise (e : exn).
Arguments Ret {A} a.
Arguments Exit {A} code.
Arguments Raise {A} e.

Definition obind {A B} (m : outcome A) (k : A -> outcome B) : outcome B :=
  match m with
  | Ret a => k a
  | Exit c => Exit c
  | Raise e => Raise e
  end.

Declare Scope py_scope.
Delimit Scope py_scope with py.
Notation "x <~ m ;; k" := (obind m (fun x => k))
  (at level 61, m at next level, right associativity) : py_scope.

(* ================================================================== *)
(** ** [semantic_version.Version], as far as the script uses it

    Every version of the script is built with [partial=False], so the
    record has no [partial] field and [minor], [patch] are never [None]. *)

Record Version : Type := mkVersion {
  major : N;
  minor : N;
  patch : N;
  prerelease : list string;
  build : list string
}.

Module SemVer.

(** [item[0] == '0' and item.isdigit() and item != '0'] *)
Definition has_leading_zero (item : string) : bool :=
  match item with
  | String c rest =>
      Ascii.eqb c "0" && Str.all Str.is_digit item && Str.nonempty rest
  | "" => false
  end.

(** [Version._validate_identifiers]: no empty identifier and, unless
    allowed, no numeric identifier with a leading zero. *)
Definition validate_identifiers (identifiers : list string)
    (allow_leading_zeroes : bool) : bool :=
  forallb (fun item =>
    Str.nonempty item
    && (allow_leading_zeroes || negb (has_leading_zero item))) identifiers.

(** [Version(major=.., minor=.., patch=.., prerelease=.., build=..)] *)
Definition of_parts (ma mi pa : N) (pre bld : list string) : outcome Version :=
  if validate_identifiers pre false && validate_identifiers bld true
  then Ret (mkVersion ma mi pa pre bld)
  else Raise ValueError.

(** Python truthiness of the [prerelease] tuple. *)
Definition has_prerelease (v : Version) : bool :=
  match prerelease v with [] => false | _ => true end.

Definition next_major (v : Version) : Version :=
  if has_prerelease v && (minor v =? 0) && (patch v =? 0)
  then mkVersion (major v) 0 0 [] []
  else mkVersion (major v + 1) 0 0 [] [].

Definition next_minor (v : Version) : Version :=
  if has_prerelease v && (patch v =? 0)
  then mkVersion (major v) (minor v) 0 [] []
  else mkVersion (major v) (minor v + 1) 0 [] [].

Definition next_patch (v : Version) : Version :=
  if has_prerelease v
  then mkVersion (major v) (minor v) (patch v) [] []
  else mkVersion (major v) (minor v) (patch v + 1) [] [].

(** [semantic_version.Version.__str__] *)
Definition to_string (v : Version) : string :=
  Str.of_int (major v) ++ "." ++ Str.of_int (minor v) ++ "."
    ++ Str.of_int (patch v)
    ++ (if has_prerelease v then "-" ++ Str.join "." (prerelease v) else "")
    ++ (match build v with [] => "" | _ => "+" ++ Str.join "." (build v) end).

Definition is_letter (c : ascii) : bool :=
  let n := N_of_ascii c in
  ((65 <=? n) && (n <=? 90)) || ((97 <=? n) && (n <=? 122)).

(** The class [[0-9a-zA-Z.-]] of [version_re]. *)
Definition is_ident_char (c : ascii) : bool :=
  Str.is_digit c || is_letter c || Ascii.eqb c "." || Ascii.eqb c "-".

(** [Version.version_re] as a pattern. *)
Definition VERSION_RE : Re.re :=
  Re.Seq [ Re.Plus Re.digit; Re.Lit "."; Re.Plus Re.digit; Re.Lit ".";
           Re.Plus Re.digit;
           Re.Opt (Re.Cat (Re.Lit "-") (Re.Plus (Re.Chr is_ident_char)));
           Re.Opt (Re.Cat (Re.Lit "+") (Re.Plus (Re.Chr is_ident_char))) ].

(** An optional group [(?:<lead>([0-9a-zA-Z.-]+))?] at the head of [s]:
    the captured text, if the group matched, and the text after it. *)
Definition optional_group (lead : ascii) (s : string)
    : option string * string :=
  match s with
  | String c s' =>
      if Ascii.eqb c lead then
        let (g, r) := Str.span is_ident_char s' in
        if Str.nonempty g then (Some g, r) else (None, s)
      else (None, s)
  | "" => (None, s)
  end.

(** [$]: the end of the text, or just before a newline that ends it. *)
Definition at_end (s : string) : bool :=
  String.eqb s "" || String.eqb s (String (ascii_of_N 10) "").

(** [Version.version_re.match(s).groups()].  The pattern is
    deterministic (each greedy group is followed by a character outside
    its class), so one left-to-right scan decides it. *)
Definition version_re_match (s : string)
    : option (string * string * string * option string * option string) :=
  let (ma, r1) := Str.span Str.is_digit s in
  match r1 with
  | String "." r1' =>
      let (mi, r2) := Str.span Str.is_digit r1' in
      match r2 with
      | String "." r2' =>
          let (pa, r3) := Str.span Str.is_digit r2' in
          let (pre, r4) := optional_group "-" r3 in
          let (bld, r5) := optional_group "+" r4 in
          if Str.nonempty ma && Str.nonempty mi && Str.nonempty pa
             && at_end r5
          then Some (ma, mi, pa, pre, bld)
          else None
      | _ => None
      end
  | _ => None
  end.

Definition int_of (digits : string) : outcome N :=
  match Str.to_int digits with
  | Some n => Ret n
  | None => Raise ValueError
  end.

(** [Version(version_string)], that is [Version.parse] with
    [partial=False]. *)
Definition parse (version_string : string) : outcome Version :=
  if negb (Str.nonempty version_string) then Raise ValueError else
  match version_re_match version_string with
  | None => Raise ValueError
  | Some (ma, mi, pa, pre, bld) =>
      if has_leading_zero ma || has_leading_zero mi || has_leading_zero pa
      then Raise ValueError
      else
        (ma' <~ int_of ma;;
         mi' <~ int_of mi;;
         pa' <~ int_of pa;;
         let pre' := match pre with
                     | None => []
                     | Some text => Str.split "." text
                     end in
         let bld' := match bld with
                     | None => []
                     | Some text => Str.split "." text
                     end in
         of_parts ma' mi' pa' pre' bld')%py
  end.

(** [base_re] of [Version.coerce] as a pattern. *)
Definition BASE_RE : Re.re :=
  Re.Cat (Re.Plus Re.digit)
    (Re.Opt (Re.Cat (Re.Lit ".")
       (Re.Cat (Re.Plus Re.digit)
          (Re.Opt (Re.Cat (Re.Lit ".") (Re.Plus Re.digit)))))).

(** [base_re.match(s)] of [coerce], pattern "^\d+(?:\.\d+(?:\.\d+)?)?":
    the matched text and the text after [match.end()]. *)
Definition base_re_match (s : string) : option (string * string) :=
  let (a, r1) := Str.span Str.is_digit s in
  if negb (Str.nonempty a) then None else
  match r1 with
  | String "." r1' =>
      let (b, r2) := Str.span Str.is_digit r1' in
      if negb (Str.nonempty b) then Some (a, r1) else
      match r2 with
      | String "." r2' =>
          let (c, r3) := Str.span Str.is_digit r2' in
          if negb (Str.nonempty c) then Some (a ++ "." ++ b, r2)
          else Some (a ++ "." ++ b ++ "." ++ c, r3)
      | _ => Some (a ++ "." ++ b, r2)
      end
  | _ => Some (a, r1)
  end.

(** [while version.count('.') < 2: version += '.0'], on a text with at
    most two dots. *)
Definition pad_components (version : string) : string :=
  match Str.count "." version with
  | 0%nat => version ++ ".0" ++ ".0"
  | 1%nat => version ++ ".0"
  | _ => version
  end.

(** ['.'.join(part.lstrip('0') or '0' for part in version.split('.'))] *)
Definition strip_leading_zeros (version : string) : string :=
  Str.join "."
    (List.map (fun part =>
                 match Str.lstrip "0" part with
                 | "" => "0"
                 | stripped => stripped
                 end)
              (Str.split "." version)).

(** The class [[a-zA-Z0-9+.-]] kept by [re.sub] in [coerce]. *)
Definition is_rest_char (c : ascii) : bool :=
  is_letter c || Str.is_digit c || Ascii.eqb c "+" || Ascii.eqb c "."
  || Ascii.eqb c "-".

Definition split_plus (rest : string) : string * string :=
  match Str.split_once "+" rest with
  | Some (prerelease, build) => (prerelease, build)
  | None => (rest, "")
  end.

(** [Version.coerce(version_string)] *)
Definition coerce (version_string : string) : outcome Version :=
  match base_re_match version_string with
  | None => Raise ValueError
  | Some (matched, rest) =>
      let version := strip_leading_zeros (pad_components matched) in
      match rest with
      | "" => parse version
      | _ =>
          let rest := Str.map (fun c => if is_rest_char c then c else "-"%char)
                              rest in
          let '(prerelease, build) :=
            match rest with
            | String "+" rest' => ("", rest')
            | String "." rest' => ("", rest')
            | String "-" rest' => split_plus rest'
            | _ => split_plus rest
            end in
          let build := Str.replace "+" "." build in
          let version :=
            if Str.nonempty prerelease then version ++ "-" ++ prerelease
            else version in
          let version :=
            if Str.nonempty build then version ++ "+" ++ build
            else version in
          parse version
      end
  end.

End SemVer.

(* ================================================================== *)
(** ** Constants of the script *)

Definition VERSION_FILE_PATH := "rasa/version.py".
Definition PYPROJECT_FILE_PATH := "pyproject.toml".
Definition REPO_BASE_URL := "https://github.com/RasaHQ/rasa".
Definition RELEASE_BRANCH_PREFIX := "prepare-release-".
Definition PRERELEASE_FLAVORS : list string := ["alpha"; "rc"].
Definition PRERELEASE_FLAVOR_CODES : list (string * string) :=
  [("alpha", "a"); ("rc", "rc")].

(** Dictionary lookup, [d[key]]; [None] stands for [KeyError]. *)
Fixpoint dict_get (d : list (string * string)) (key : string) : option string :=
  match d with
  | (k, v) :: d' => if String.eqb k key then Some v else dict_get d' key
  | [] => None
  end.

Definition newline : ascii := ascii_of_N 10.

(** [PRERELEASE_VERSION_PATTERN] as a pattern: [(a|rc)], a digit from 1
    to 9, any number of digits. *)
Definition PRERELEASE_VERSION_PATTERN : Re.re :=
  Re.Seq [ Re.Alt (Re.Lit "a") (Re.Lit "rc");
           Re.Chr (fun c => Str.is_digit c && negb (Ascii.eqb c "0"));
           Re.Star Re.digit ].

(** [PRERELEASE_VERSION_PATTERN.match(s)]; the pattern is anchored at
    both ends, group 1 is [a|rc] and group 2 is a digit [1-9] followed by
    any number of digits.  The result is [(group(1), group(2))].
    [match_counter] is the part after the flavor code; Python's [$] also
    matches just before a newline that ends the text. *)
Definition match_counter (code rest : string) : option (string * string) :=
  let (digits, tail) := Str.span Str.is_digit rest in
  match digits with
  | String d _ =>
      if Ascii.eqb d "0" then None
      else if String.eqb tail "" || String.eqb tail (String newline "")
      then Some (code, digits)
      else None
  | "" => None
  end.

Definition PRERELEASE_VERSION_PATTERN_match (s : string)
    : option (string * string) :=
  match s with
  | String "a" rest => match_counter "a" rest
  | String "r" (String "c" rest) => match_counter "rc" rest
  | _ => None
  end.

(** The script's [Version.__str__]: the library's text without hyphens. *)
Definition Version_str (v : Version) : string :=
  Str.remove "-" (SemVer.to_string v).

(* ================================================================== *)
(** ** Pure functions of the script *)

(** [is_prerelease_version] *)
Definition is_prerelease_version (version : Version) : bool :=
  match prerelease version with
  | [segment] =>
      match PRERELEASE_VERSION_PATTERN_match segment with
      | Some _ => true
      | None => false
      end
  | _ => false
  end.

(** [is_alpha_version] *)
Definition is_alpha_version (version : Version) : bool :=
  match prerelease version with
  | [segment] =>
      match PRERELEASE_VERSION_PATTERN_match segment with
      | Some (flavor_code, _) => String.eqb flavor_code "a"
      | None => false
      end
  | _ => false
  end.

(** [next_prerelease]: [.group(2)] on a failed match is an
    [AttributeError], an unknown flavor a [KeyError]. *)
Definition next_prerelease (version : Version) (flavor : string)
    : outcome Version :=
  (prerelease_number <~
     match prerelease version with
     | [] => Ret 0
     | segment :: _ =>
         match PRERELEASE_VERSION_PATTERN_match segment with
         | None => Raise AttributeError
         | Some (_, digits) =>
             match Str.to_int digits with
             | Some n => Ret n
             | None => Raise ValueError
             end
         end
     end;;
   code <~
     match dict_get PRERELEASE_FLAVOR_CODES flavor with
     | Some code => Ret code
     | None => Raise KeyError
     end;;
   SemVer.of_parts (major version) (minor version) (patch version)
     [code ++ Str.of_int (prerelease_number + 1)] [])%py.

(** [RELEASE_BRANCH_PATTERN], "^\d+\.\d+\.x$" *)
Definition RELEASE_BRANCH_PATTERN : Re.re :=
  Re.Seq [Re.Plus Re.digit; Re.Lit "."; Re.Plus Re.digit; Re.Lit "."; Re.Lit "x"].

(** [validate_version] *)
Definition validate_version (version : string) : outcome bool :=
  if Pep440.is_legacy version then Ret false
  else
    (version_object <~ SemVer.coerce version;;
     Ret (negb (SemVer.has_prerelease version_object)
          || is_prerelease_version version_object))%py.

(* ================================================================== *)
(** ** The outside world

    Each call to an external collaborator is recorded as an [event]; its
    result comes from a [World], the oracle of one run. *)

Inductive event : Type :=
| Print (text : string)                          (* [print(text)] *)
| CheckCall (argv : list string)                 (* [subprocess.check_call] *)
| CheckOutput (argv : list string)               (* [subprocess.check_output] *)
| ReadVersionFile                                (* [rasa/version.py] is read *)
| WriteVersionFile (text : string)               (* ... and overwritten *)
| TomlLoad                                       (* [toml.load] of pyproject *)
| TomlDump (version : string)                    (* pyproject is overwritten *)
| Confirm (message : string) (default : bool)    (* [questionary.confirm] *)
| AskText (message : string)                     (* [questionary.text] *)
| Select (message : string) (choices : list string). (* [questionary.select] *)

Inductive pyproject_state : Type :=
| PyprojectMissing
| PyprojectInvalid
| PyprojectData (rasa_sdk : option string).
   (* the [tool.poetry.dependencies.rasa-sdk] entry, when there is one *)

Record World : Type := mkWorld {
  (** the absolute path of [project_root()] *)
  project_root : string;
  (** the standard output of a command that exits with status 0, [None]
      when it exits with another status *)
  subprocess : list string -> option string;
  (** the [__version__] the version file defines, [None] without the file *)
  version_file : option string;
  pyproject : pyproject_state;
  (** what the user answers to a confirmation, [None] when they cancel *)
  confirm_answer : option bool;
  (** the texts the user types at the version prompt, in order *)
  text_input : list string;
  (** the index of the choice the user selects, [None] when they cancel *)
  select_answer : option nat
}.

Definition trace : Type := list event.

(** A computation of the script: it reads the world and produces an
    outcome and the events it caused, in order. *)
Definition M (A : Type) : Type := World -> outcome A * trace.

Definition ret {A} (a : A) : M A := fun _ => (Ret a, []).

Definition bind {A B} (m : M A) (k : A -> M B) : M B :=
  fun w =>
    match m w with
    | (Ret a, t) => let (o, t') := k a w in (o, (t ++ t')%list)
    | (Exit c, t) => (Exit c, t)
    | (Raise e, t) => (Raise e, t)
    end.

Notation "x <- m ;; k" := (bind m (fun x => k))
  (at level 61, m at next level, right associativity) : py_scope.
Notation "m ;; k" := (bind m (fun _ => k))
  (at level 61, right associativity) : py_scope.

Definition lift {A} (o : outcome A) : M A := fun _ => (o, []).
Definition emit (e : event) : M unit := fun _ => (Ret tt, [e]).
Definition ask {A} (f : World -> A) : M A := fun w => (Ret (f w), []).
Definition print (text : string) : M unit := emit (Print text).
Definition sys_exit {A} (code : N) : M A := lift (Exit code).
Definition raise {A} (e : exn) : M A := lift (Raise e).

(** [check_call(argv)]: raises [CalledProcessError] on a non-zero status. *)
Definition check_call (argv : list string) : M unit :=
  fun w => match subprocess w argv with
           | Some _ => (Ret tt, [CheckCall argv])
           | None => (Raise CalledProcessError, [CheckCall argv])
           end.

(** [check_output(argv)]: the same, returning the standard output. *)
Definition check_output (argv : list string) : M string :=
  fun w => match subprocess w argv with
           | Some out => (Ret out, [CheckOutput argv])
           | None => (Raise CalledProcessError, [CheckOutput argv])
           end.

(** [try: m except CalledProcessError: handler] *)
Definition except_called_process_error {A} (m : M A) (handler : M A) : M A :=
  fun w => match m w with
           | (Raise CalledProcessError, t) =>
               let (o, t') := handler w in (o, (t ++ t')%list)
           | r => r
           end.

Definition dquote : string := String (ascii_of_N 34) "".
Definition esc : string := String (ascii_of_N 27) "".
Definition nl : string := String newline "".

(** [s.strip()] *)
Fixpoint lstrip_space (s : string) : string :=
  match s with
  | String c s' => if Re.is_space c then lstrip_space s' else s
  | "" => ""
  end.

Fixpoint rstrip_space (s : string) : string :=
  match s with
  | String c s' =>
      match rstrip_space s' with
      | "" => if Re.is_space c then "" else String c ""
      | t => String c t
      end
  | "" => ""
  end.

Definition strip (s : string) : string := rstrip_space (lstrip_space s).

(** [s[1:]] *)
Definition drop_first (s : string) : string :=
  match s with String _ s' => s' | "" => "" end.

(* ================================================================== *)
(** ** The script's functions that talk to the world *)

Section Script.
Local Open Scope py_scope.

Definition version_file_path : M string :=
  root <- ask project_root;; ret (root ++ "/" ++ VERSION_FILE_PATH).

Definition pyproject_file_path : M string :=
  root <- ask project_root;; ret (root ++ "/" ++ PYPROJECT_FILE_PATH).

Definition write_version_file (version : Version) : M unit :=
  emit (WriteVersionFile
          ("# this file will automatically be changed," ++ nl
           ++ "# do not add anything but the version number here!" ++ nl
           ++ "__version__ = " ++ dquote ++ Version_str version ++ dquote ++ nl));;
  path <- version_file_path;;
  check_call ["git"; "add"; path].

Definition write_version_to_pyproject (version : Version) : M unit :=
  pyproject_file <- pyproject_file_path;;
  emit TomlLoad;;
  state <- ask pyproject;;
  match state with
  | PyprojectMissing =>
      print ("Unable to update " ++ pyproject_file ++ ": file not found.");;
      sys_exit 1
  | PyprojectInvalid =>
      print ("Unable to parse " ++ pyproject_file ++ ": incorrect TOML file.");;
      sys_exit 1
  | PyprojectData _ =>
      emit (TomlDump (Version_str version));;
      check_call ["git"; "add"; pyproject_file]
  end.

Definition get_current_version : M string :=
  emit ReadVersionFile;;
  content <- ask version_file;;
  match content with
  | None => raise FileNotFoundError
  | Some text => ret text
  end.

Definition git_existing_tags : M (list string) :=
  stdout <- check_output ["git"; "tag"];;
  ret (Str.split newline stdout).

Definition confirm_version (version : Version) : M bool :=
  tags <- git_existing_tags;;
  confirmed <-
    (if Str.mem (Version_str version) tags then
       emit (Confirm ("Tag with version '" ++ Version_str version
                      ++ "' already exists, overwrite?") false);;
       ask confirm_answer
     else
       current <- get_current_version;;
       emit (Confirm ("Current version is '" ++ current ++ ". "
                      ++ "Is the next version '" ++ Version_str version
                      ++ "' correct ?") true);;
       ask confirm_answer);;
  match confirmed with
  | Some true => ret true
  | _ => print "Aborting.";; sys_exit 1
  end.

(** The validator of the version prompt, [is_valid_version_number]. *)
Definition is_valid_version_number (v : string) : outcome bool :=
  if Str.mem v ["major"; "minor"; "patch"; "alpha"; "rc"] then Ret true
  else validate_version v.

(** [questionary.text(message, validate=...).ask()]: the prompt accepts
    the first typed text the validator approves; when the user gives up
    (no text left) the answer is [None]. *)
Fixpoint first_valid (validate : string -> outcome bool) (typed : list string)
    : outcome (option string) :=
  match typed with
  | [] => Ret None
  | text :: later =>
      match validate text with
      | Ret true => Ret (Some text)
      | Ret false => first_valid validate later
      | Exit c => Exit c
      | Raise e => Raise e
      end
  end.

Definition questionary_text (message : string)
    (validate : string -> outcome bool) : M (option string) :=
  emit (AskText message);;
  typed <- ask text_input;;
  lift (first_valid validate typed).

(** [questionary.select(message, choices).ask()] *)
Definition questionary_select (message : string) (choices : list string)
    : M (option string) :=
  emit (Select message choices);;
  answer <- ask select_answer;;
  ret (match answer with
       | Some i => nth_error choices i
       | None => None
       end).

Definition ask_version : M string :=
  current <- get_current_version;;
  current_version <- lift (SemVer.coerce current);;
  let next_patch_version := Version_str (SemVer.next_patch current_version) in
  next_alpha <- lift (next_prerelease current_version "alpha");;
  let next_alpha_version := Version_str next_alpha in
  version <- questionary_text
    ("What is the version number you want to release "
     ++ "('major', 'minor', 'patch', 'alpha', 'rc' or valid version number "
     ++ "e.g. '" ++ next_patch_version ++ "' or '" ++ next_alpha_version ++ "')?")
    is_valid_version_number;;
  version <-
    match version with
    | Some flavor =>
        if Str.mem flavor PRERELEASE_FLAVORS
           && negb (SemVer.has_prerelease current_version)
        then
          (* at this stage it's hard to guess the kind of version bump the
             releaser wants, so we ask them *)
          c1 <- lift (next_prerelease (SemVer.next_minor current_version) flavor);;
          c2 <- lift (next_prerelease (SemVer.next_patch current_version) flavor);;
          c3 <- lift (next_prerelease (SemVer.next_major current_version) flavor);;
          questionary_select ("Which " ++ flavor ++ " do you want to release?")
            [Version_str c1; Version_str c2; Version_str c3]
        else ret version
    | None => ret version
    end;;
  match version with
  | Some text => if Str.nonempty text then ret text
                 else print "Aborting.";; sys_exit 1
  | None => print "Aborting.";; sys_exit 1
  end.

Definition get_rasa_sdk_version : M string :=
  emit TomlLoad;;
  state <- ask pyproject;;
  match state with
  | PyprojectMissing => raise FileNotFoundError
  | PyprojectInvalid => raise TomlDecodeError
  | PyprojectData None => raise KeyError
  | PyprojectData (Some sdk_version) => ret (strip (drop_first sdk_version))
  end.

Definition validate_code_is_release_ready (version : Version) : M unit :=
  sdk <- get_rasa_sdk_version;;
  sdk_major <- lift (sdk_v <~ SemVer.coerce sdk;; Ret (major sdk_v));;
  sdk_minor <- lift (sdk_v <~ SemVer.coerce sdk;; Ret (minor sdk_v));;
  if negb ((sdk_major =? major version) && (sdk_minor =? minor version))
  then
    print "";;
    print (esc ++ "[91m There is a mismatch between the Rasa SDK version ("
           ++ sdk ++ ") and the version you want to release ("
           ++ Version_str version ++ "). Before you can "
           ++ "release Rasa OSS, you need to release the SDK and update "
           ++ "the dependency. " ++ esc ++ "[0m");;
    print "";;
    sys_exit 1
  else ret tt.

Definition git_current_branch : M string :=
  except_called_process_error
    (output <- check_output ["git"; "symbolic-ref"; "--short"; "HEAD"];;
     ret (strip output))
    (* e.g. we are in detached head state *)
    (ret "master").

Definition git_current_branch_is_master_or_release : M bool :=
  current_branch <- git_current_branch;;
  ret (String.eqb current_branch "master"
       || Re.match_anchored RELEASE_BRANCH_PATTERN current_branch).

Definition create_release_branch (version : Version) : M string :=
  let branch := RELEASE_BRANCH_PREFIX ++ Version_str version in
  check_call ["git"; "checkout"; "-b"; branch];;
  ret branch.

Definition create_commit (version : Version) : M unit :=
  check_call ["git"; "commit"; "-m";
              "prepared release of version " ++ Version_str version].

Definition push_changes : M unit :=
  check_call ["git"; "push"; "origin"; "HEAD"].

Definition ensure_clean_git : M unit :=
  except_called_process_error
    (check_call ["git"; "diff-index"; "--quiet"; "HEAD"; "--"])
    (print "Your git is not clean. Release script can only be run from a clean git.";;
     sys_exit 1).

Definition parse_next_version (version : string) : M Version :=
  if String.eqb version "major" then
    current <- get_current_version;;
    v <- lift (SemVer.coerce current);; ret (SemVer.next_major v)
  else if String.eqb version "minor" then
    current <- get_current_version;;
    v <- lift (SemVer.coerce current);; ret (SemVer.next_minor v)
  else if String.eqb version "patch" then
    current <- get_current_version;;
    v <- lift (SemVer.coerce current);; ret (SemVer.next_patch v)
  else if Str.mem version PRERELEASE_FLAVORS then
    current <- get_current_version;;
    v <- lift (SemVer.coerce current);; lift (next_prerelease v version)
  else
    valid <- lift (validate_version version);;
    if valid then lift (SemVer.coerce version)
    else raise InvalidVersionNumber.

(** [args.next_version], the only command-line argument. *)
Record Namespace : Type := mkNamespace { next_version_arg : option string }.

Definition next_version (args : Namespace) : M Version :=
  match next_version_arg args with
  | Some text =>
      if Str.nonempty text then parse_next_version text
      else answer <- ask_version;; parse_next_version answer
  | None => answer <- ask_version;; parse_next_version answer
  end.

Definition generate_changelog (version : Version) : M unit :=
  check_call ["towncrier"; "--yes"; "--version"; Version_str version].

Definition print_done_message (branch base : string) (version : Version)
    : M unit :=
  let pull_request_url :=
    REPO_BASE_URL ++ "/compare/" ++ base ++ "..." ++ branch ++ "?expand=1" in
  print "";;
  print (esc ++ "[94m All done - changes for version " ++ Version_str version
         ++ " are ready! " ++ esc ++ "[0m");;
  print "";;
  print ("Please open a PR on GitHub: " ++ pull_request_url).

Definition print_done_message_same_branch (version : Version) : M unit :=
  print "";;
  print (esc ++ "[94m All done - changes for version " ++ Version_str version
         ++ " where committed on this branch " ++ esc ++ "[0m").

Definition main (args : Namespace) : M unit :=
  print ("The release script will increase the version number, "
         ++ "create a changelog and create a release branch. Let's go!");;
  ensure_clean_git;;
  version <- next_version args;;
  _ <- confirm_version version;;
  validate_code_is_release_ready version;;
  write_version_file version;;
  write_version_to_pyproject version;;
  (if negb (SemVer.has_prerelease version)
   then (* never update changelog on a prerelease version *)
        generate_changelog version
   else ret tt);;
  (* alpha workflow on feature branch when a version bump is required *)
  same_branch <-
    (if is_alpha_version version
     then on_base <- git_current_branch_is_master_or_release;;
          ret (negb on_base)
     else ret false);;
  if same_branch then
    create_commit version;;
    push_changes;;
    print_done_message_same_branch version
  else
    base <- git_current_branch;;
    branch <- create_release_branch version;;
    create_commit version;;
    push_changes;;
    print_done_message branch base version.

End Script.

Create HintDb script discriminated.
#[export] Hint Unfold version_file_path pyproject_file_path write_version_file
  write_version_to_pyproject get_current_version git_existing_tags
  confirm_version questionary_text questionary_select ask_version
  get_rasa_sdk_version validate_code_is_release_ready git_current_branch
  git_current_branch_is_master_or_release create_release_branch create_commit
  push_changes ensure_clean_git parse_next_version next_version
  generate_changelog print_done_message print_done_message_same_branch
  print sys_exit raise : script.

(* ================================================================== *)
(** ** The stages of [main]

    The run of [main] up to a given line, returning the resolved version:
    the states of the release workflow. *)

Section Stages.
Local Open Scope py_scope.

Definition banner : string :=
  "The release script will increase the version number, "
  ++ "create a changelog and create a release branch. Let's go!".

(** Up to [ensure_clean_git()]. *)
Definition guards_checked : M unit :=
  print banner;; ensure_clean_git.

(** Up to [version = next_version(args)]. *)
Definition version_resolved (args : Namespace) : M Version :=
  guards_checked;; next_version args.

(** Up to [confirm_version(version)]. *)
Definition confirmed (args : Namespace) : M Version :=
  version <- version_resolved args;;
  _ <- confirm_version version;; ret version.

(** Up to [validate_code_is_release_ready(version)]. *)
Definition validated (args : Namespace) : M Version :=
  version <- confirmed args;;
  validate_code_is_release_ready version;; ret version.

(** Up to [write_version_to_pyproject(version)]. *)
Definition persisted (args : Namespace) : M Version :=
  version <- validated args;;
  write_version_file version;;
  write_version_to_pyproject version;; ret version.

(** The changelog step. *)
Definition changelog_step (version : Version) : M unit :=
  if negb (SemVer.has_prerelease version)
  then generate_changelog version
  else ret tt.

Definition changelog_generated (args : Namespace) : M Version :=
  version <- persisted args;; changelog_step version;; ret version.

(** The choice between the two workflows, and the workflow chosen. *)
Definition workflow (version : Version) : M unit :=
  same_branch <-
    (if is_alpha_version version
     then on_base <- git_current_branch_is_master_or_release;;
          ret (negb on_base)
     else ret false);;
  if same_branch then
    create_commit version;;
    push_changes;;
    print_done_message_same_branch version
  else
    base <- git_current_branch;;
    branch <- create_release_branch version;;
    create_commit version;;
    push_changes;;
    print_done_message branch base version.

End Stages.

(* ================================================================== *)
(** ** Vocabulary of the properties *)

(** A text stops a scan for [p] when it does not begin with a [p]. *)
Definition stops (p : ascii -> bool) (r : string) : Prop :=
  match r with String c _ => p c = false | "" => True end.

(** The text [major.minor.patch]. *)
Definition triple (ma mi pa : N) : string :=
  Str.of_int ma ++ "." ++ Str.of_int mi ++ "." ++ Str.of_int pa.

(** Identifiers made of the characters [version_re] allows. *)
Definition idents_ok (identifiers : list string) : Prop :=
  Forall (fun i => Str.all SemVer.is_ident_char i = true) identifiers.

(** The text an optional group of [version_re] matched: its lead
    character and the captured text, or nothing. *)
Definition group_text (lead : ascii) (g : option string) : string :=
  match g with
  | Some text => String lead text
  | None => ""
  end.

(** A version whose prerelease, if any, is one tag of the script: a
    flavor code followed by a counter that is at least 1. *)
Definition well_tagged (v : Version) : Prop :=
  prerelease v = []
  \/ exists code n,
       In code ["a"; "rc"] /\ 1 <= n /\ prerelease v = [code ++ Str.of_int n].

(** The versions of the specification's data model: no build tag, and
    either no prerelease or one well-formed tag. *)
Definition canonical (v : Version) : Prop :=
  build v = [] /\ well_tagged v.

(** An outcome other than a returned value: an exit or an exception. *)
Definition stopped {A} (o : outcome A) : Prop :=
  match o with Ret _ => False | _ => True end.

(** The outcome of a run that stopped, at the type of the whole run. *)
Definition carry {A B} (o : outcome A) : outcome B :=
  match o with
  | Ret _ => Raise ValueError      (* not used on a returned value *)
  | Exit c => Exit c
  | Raise e => Raise e
  end.

(** Every event of every run of [m] satisfies [P]. *)
Definition traces {A} (P : event -> Prop) (m : M A) : Prop :=
  forall w, Forall P (snd (m w)).

(** The events that change the repository or its files: every write and
    every command except the read-only [git diff-index].  The queries
    ([check_output]), the reads and the prompts change nothing. *)
Definition mutating (e : event) : bool :=
  match e with
  | WriteVersionFile _ | TomlDump _ => true
  | CheckCall ["git"; "diff-index"; "--quiet"; "HEAD"; "--"] => false
  | CheckCall _ => true
  | _ => false
  end.

(** A write to a metadata file (the version file or pyproject). *)
Definition metadata_write (e : event) : bool :=
  match e with
  | WriteVersionFile _ | TomlDump _ => true
  | _ => false
  end.

(** A call of the changelog generator. *)
Definition changelog_call (e : event) : bool :=
  match e with
  | CheckCall ("towncrier" :: _) => true
  | _ => false
  end.


(** An event of version resolution: reading the current version or
    prompting the user. *)
Definition resolution_event (e : event) : bool :=
  match e with
  | ReadVersionFile | AskText _ | Select _ _ => true
  | _ => false
  end.

Definition is_select (e : event) : bool :=
  match e with Select _ _ => true | _ => false end.

Definition quiet (e : event) : Prop := mutating e = false.

Definition no_changelog (e : event) : Prop := changelog_call e = false.


Definition SYMBOLIC_REF : list string :=
  ["git"; "symbolic-ref"; "--short"; "HEAD"].

(** What [git_current_branch] returns. *)
Definition current_branch (w : World) : string :=
  match subprocess w SYMBOLIC_REF with
  | Some output => strip output
  | None => "master"
  end.

(** The events of the same-branch workflow. *)
Definition same_branch_events (v : Version) : trace :=
  [ CheckCall ["git"; "commit"; "-m";
               "prepared release of version " ++ Version_str v];
    CheckCall ["git"; "push"; "origin"; "HEAD"];
    Print "";
    Print (esc ++ "[94m All done - changes for version " ++ Version_str v
           ++ " where committed on this branch " ++ esc ++ "[0m") ].

(** The events of the release-branch workflow started on [base]. *)
Definition release_branch_events (v : Version) (base : string) : trace :=
  [ CheckCall ["git"; "checkout"; "-b"; RELEASE_BRANCH_PREFIX ++ Version_str v];
    CheckCall ["git"; "commit"; "-m";
               "prepared release of version " ++ Version_str v];
    CheckCall ["git"; "push"; "origin"; "HEAD"];
    Print "";
    Print (esc ++ "[94m All done - changes for version " ++ Version_str v
           ++ " are ready! " ++ esc ++ "[0m");
    Print "";
    Print ("Please open a PR on GitHub: " ++ REPO_BASE_URL ++ "/compare/"
           ++ base ++ "..." ++ RELEASE_BRANCH_PREFIX ++ Version_str v
           ++ "?expand=1") ].

(** The query of the current branch made by the test, which Python's
    [and] evaluates only when the version is an alpha. *)
Definition test_queries (v : Version) : trace :=
  if is_alpha_version v then [CheckOutput SYMBOLIC_REF] else [].

(** The test of [main] that chooses the same-branch workflow. *)
Definition chooses_same_branch (v : Version) (w : World) : bool :=
  is_alpha_version v
  && negb (String.eqb (current_branch w) "master"
           || Re.match_anchored RELEASE_BRANCH_PATTERN (current_branch w)).

Definition DIFF_INDEX : list string :=
  ["git"; "diff-index"; "--quiet"; "HEAD"; "--"].

Definition dirty_message : string :=
  "Your git is not clean. Release script can only be run from a clean git.".

Definition mismatch_message (sdk : string) (v : Version) : string :=
  esc ++ "[91m There is a mismatch between the Rasa SDK version ("
  ++ sdk ++ ") and the version you want to release ("
  ++ Version_str v ++ "). Before you can "
  ++ "release Rasa OSS, you need to release the SDK and update "
  ++ "the dependency. " ++ esc ++ "[0m".

(** The question [confirm_version] asks, with its default answer. *)
Definition confirm_question (v : Version) (tagged : bool) (current : string)
    : event :=
  if tagged
  then Confirm ("Tag with version '" ++ Version_str v
                ++ "' already exists, overwrite?") false
  else Confirm ("Current version is '" ++ current ++ ". "
                ++ "Is the next version '" ++ Version_str v
                ++ "' correct ?") true.

(** The same world with another answer to the confirmation. *)
Definition answering (answer : option bool) (w : World) : World :=
  mkWorld (project_root w) (subprocess w) (version_file w) (pyproject w)
    answer (text_input w) (select_answer w).

(** The question of the version prompt. *)
Definition version_question (current_version next_alpha : Version) : string :=
  "What is the version number you want to release "
  ++ "('major', 'minor', 'patch', 'alpha', 'rc' or valid version number "
  ++ "e.g. '" ++ Version_str (SemVer.next_patch current_version)
  ++ "' or '" ++ Version_str next_alpha ++ "')?".

(** The first prerelease of a flavor code on a version without one. *)
Definition first_prerelease (v : Version) (code : string) : Version :=
  mkVersion (major v) (minor v) (patch v) [code ++ Str.of_int 1] [].

Definition KEYWORDS : list string := ["major"; "minor"; "patch"; "alpha"; "rc"].

(** A world in which every command succeeds, the version file holds
    [current], the tags are [2.3.0] and [2.4.0], the paired dependency is
    declared as [sdk] and the user accepts, types [typed] and selects the
    second choice. *)
Definition sample_world (branch current sdk : string) (typed : list string)
    : World :=
  mkWorld "/repo"
    (fun argv =>
       match argv with
       | ["git"; "tag"] => Some ("2.3.0" ++ nl ++ "2.4.0" ++ nl)
       | ["git"; "symbolic-ref"; "--short"; "HEAD"] => Some (branch ++ nl)
       | _ => Some ""
       end)
    (Some current) (PyprojectData (Some sdk)) (Some true) typed (Some 1%nat).

(** A world whose working tree is dirty: [git diff-index] fails. *)
Definition dirty_world : World :=
  mkWorld "/repo"
    (fun argv => match argv with
                 | ["git"; "diff-index"; "--quiet"; "HEAD"; "--"] => None
                 | _ => Some ""
                 end)
    (Some "2.4.0") (PyprojectData (Some "~2.4.0")) (Some true) [] None.

(** ** Vocabulary of the further properties *)

(** Applying [next_prerelease] for each flavor of a list, in order. *)
Fixpoint next_prereleases (v : Version) (flavors : list string)
    : outcome Version :=
  match flavors with
  | [] => Ret v
  | flavor :: later =>
      (v' <~ next_prerelease v flavor;; next_prereleases v' later)%py
  end.


(** The text [write_version_file] writes. *)
Definition version_file_text (v : Version) : string :=
  "# this file will automatically be changed," ++ nl
  ++ "# do not add anything but the version number here!" ++ nl
  ++ "__version__ = " ++ dquote ++ Version_str v ++ dquote ++ nl.

(** The commands that stage the two metadata files. *)
Definition ADD_VERSION_FILE (w : World) : list string :=
  ["git"; "add"; project_root w ++ "/" ++ VERSION_FILE_PATH].

Definition ADD_PYPROJECT (w : World) : list string :=
  ["git"; "add"; project_root w ++ "/" ++ PYPROJECT_FILE_PATH].

(** The events of writing and staging both metadata files. *)
Definition persist_events (v : Version) (w : World) : trace :=
  [ WriteVersionFile (version_file_text v); CheckCall (ADD_VERSION_FILE w);
    TomlLoad; TomlDump (Version_str v); CheckCall (ADD_PYPROJECT w) ].

Definition COMMIT (v : Version) : list string :=
  ["git"; "commit"; "-m"; "prepared release of version " ++ Version_str v].

Definition PUSH : list string := ["git"; "push"; "origin"; "HEAD"].

Definition is_print (e : event) : bool :=
  match e with Print _ => true | _ => false end.

(** A command that publishes the release: the commit or the push. *)
Definition publishing (e : event) : bool :=
  match e with
  | CheckCall ("git" :: "commit" :: _) | CheckCall ("git" :: "push" :: _) => true
  | _ => false
  end.

(** The closing message of either workflow. *)
Definition is_done_message (e : event) : bool :=
  match e with
  | Print text => String.prefix (esc ++ "[94m All done") text
  | _ => false
  end.

(** The candidates of the three-way choice, in the order shown. *)
Definition candidates (current_version : Version) (code : string)
    : list Version :=
  [ first_prerelease (SemVer.next_minor current_version) code;
    first_prerelease (SemVer.next_patch current_version) code;
    first_prerelease (SemVer.next_major current_version) code ].

(** A world whose current version carries a prerelease that is no tag of
    the script. *)
Definition beta_world : World := sample_world "master" "2.4.0-beta" "~2.4.0" [].

(** The script's own error, [Exception("Invalid version number ...")]. *)
Definition rejected {A} (o : outcome A) : bool :=
  match o with
  | Raise InvalidVersionNumber => true
  | _ => false
  end.

(** The semantic-version library returns or raises [ValueError]. *)
Definition library_outcome {A} (o : outcome A) : Prop :=
  match o with
  | Ret _ | Raise ValueError => True
  | _ => False
  end.

(** A message of the error handlers of [write_version_to_pyproject]. *)
Definition is_unable_message (e : event) : bool :=
  match e with
  | Print text => String.prefix "Unable to" text
  | _ => false
  end.

(** A world without version file, in which every command succeeds and
    prints nothing. *)
Definition unversioned_world : World :=
  mkWorld "/repo" (fun _ => Some "") None (PyprojectData (Some "~2.4.0"))
    (Some true) [] None.

(* ================================================================== *)
(** * Properties *)

(** ** Texts and decimal numerals *)

Module StrFacts.

Lemma append_nil_r (s : string) : s ++ "" = s.
Proof. induction s as [|c s IH]; simpl; [reflexivity | now rewrite IH]. Qed.

Lemma append_assoc (a b c : string) : (a ++ b) ++ c = a ++ (b ++ c).
Proof. induction a as [|x a IH]; simpl; [reflexivity | now rewrite IH]. Qed.

Lemma all_append p (a b : string) :
  Str.all p (a ++ b) = Str.all p a && Str.all p b.
Proof.
  induction a as [|x a IH]; simpl; [reflexivity|].
  now rewrite IH, andb_assoc.
Qed.

Lemma span_append p (s r : string) :
  Str.all p s = true -> stops p r -> Str.span p (s ++ r) = (s, r).
Proof.
  induction s as [|c s IH]; simpl; intros Hs Hr.
  - destruct r as [|c r]; simpl in *; [reflexivity | now rewrite Hr].
  - apply andb_true_iff in Hs as [Hc Hs].
    now rewrite Hc, IH.
Qed.

Lemma span_all p (s : string) : Str.all p s = true -> Str.span p s = (s, "").
Proof.
  intros H. rewrite <- (append_nil_r s) at 1.
  now apply span_append.
Qed.

Lemma span_spec p (s a b : string) :
  Str.span p s = (a, b) -> s = a ++ b /\ Str.all p a = true /\ stops p b.
Proof.
  revert a b. induction s as [|c s IH]; simpl; intros a b H.
  - injection H as <- <-. now repeat split.
  - destruct (p c) eqn:Hc.
    + destruct (Str.span p s) as [a' b'] eqn:E. injection H as <- <-.
      destruct (IH _ _ eq_refl) as (-> & Ha & Hb).
      simpl. rewrite Hc, Ha. now repeat split.
    + injection H as <- <-. now repeat split.
Qed.

Lemma remove_append c (a b : string) :
  Str.remove c (a ++ b) = Str.remove c a ++ Str.remove c b.
Proof.
  induction a as [|x a IH]; simpl; [reflexivity|].
  destruct (Ascii.eqb x c); simpl; now rewrite IH.
Qed.

Lemma remove_absent p c (s : string) :
  p c = false -> Str.all p s = true -> Str.remove c s = s.
Proof.
  intros Hc. induction s as [|x s IH]; simpl; [reflexivity|].
  intros H. apply andb_true_iff in H as [Hx Hs].
  destruct (Ascii.eqb_spec x c) as [->|_]; [congruence|].
  now rewrite IH.
Qed.

Lemma count_append c (a b : string) :
  Str.count c (a ++ b) = (Str.count c a + Str.count c b)%nat.
Proof.
  induction a as [|x a IH]; simpl; [reflexivity|].
  rewrite IH. lia.
Qed.

Lemma count_absent p c (s : string) :
  p c = false -> Str.all p s = true -> Str.count c s = 0%nat.
Proof.
  intros Hc. induction s as [|x s IH]; simpl; [reflexivity|].
  intros H. apply andb_true_iff in H as [Hx Hs].
  destruct (Ascii.eqb_spec x c) as [->|_]; [congruence|].
  now rewrite IH.
Qed.

Lemma split_absent p c (s : string) :
  p c = false -> Str.all p s = true -> Str.split c s = [s].
Proof.
  intros Hc. induction s as [|x s IH]; simpl; [reflexivity|].
  intros H. apply andb_true_iff in H as [Hx Hs].
  destruct (Ascii.eqb_spec x c) as [->|_]; [congruence|].
  now rewrite IH.
Qed.

Lemma split_append p c (a b : string) :
  p c = false -> Str.all p a = true ->
  Str.split c (a ++ String c b) = a :: Str.split c b.
Proof.
  intros Hc. induction a as [|x a IH]; simpl.
  - intros _. now rewrite Ascii.eqb_refl.
  - intros H. apply andb_true_iff in H as [Hx Ha].
    destruct (Ascii.eqb_spec x c) as [->|_]; [congruence|].
    now rewrite IH.
Qed.

End StrFacts.

Module Numeral.
Import StrFacts.

Lemma uint_digits (d : Decimal.uint) :
  Str.all Str.is_digit (NilEmpty.string_of_uint d) = true.
Proof. induction d; simpl; auto. Qed.

Lemma of_int_digits (n : N) : Str.all Str.is_digit (Str.of_int n) = true.
Proof. apply uint_digits. Qed.

Lemma to_uint_normal (n : N) : Decimal.unorm (N.to_uint n) = N.to_uint n.
Proof.
  rewrite <- (DecimalN.Unsigned.of_to n) at 2.
  now rewrite DecimalN.Unsigned.to_of.
Qed.

Lemma nzhead_head (d : Decimal.uint) :
  match Decimal.nzhead d with Decimal.D0 _ => False | _ => True end.
Proof. induction d; simpl; auto. Qed.

(** A normal numeral is [0] or begins with a digit other than [0]. *)
Lemma unorm_head (d : Decimal.uint) :
  Decimal.unorm d = Decimal.D0 Decimal.Nil
  \/ match Decimal.unorm d with
     | Decimal.Nil | Decimal.D0 _ => False
     | _ => True
     end.
Proof.
  unfold Decimal.unorm. pose proof (nzhead_head d) as H.
  destruct (Decimal.nzhead d); auto.
Qed.

Lemma of_int_nonempty (n : N) : Str.nonempty (Str.of_int n) = true.
Proof.
  unfold Str.of_int. destruct (unorm_head (N.to_uint n)) as [H|H];
    rewrite to_uint_normal in H.
  - now rewrite H.
  - destruct (N.to_uint n); simpl; auto; contradiction.
Qed.

Lemma of_int_zero (n : N) :
  N.to_uint n = Decimal.D0 Decimal.Nil -> n = 0.
Proof.
  intros H. rewrite <- (DecimalN.Unsigned.of_to n), H. reflexivity.
Qed.

(** The numeral of a positive number begins with a digit from 1 to 9. *)
Lemma of_int_positive (n : N) :
  1 <= n ->
  exists c s, Str.of_int n = String c s /\ Ascii.eqb c "0" = false.
Proof.
  intros Hn. unfold Str.of_int.
  destruct (unorm_head (N.to_uint n)) as [H|H];
    rewrite to_uint_normal in H.
  - apply of_int_zero in H. lia.
  - destruct (N.to_uint n); simpl; try contradiction; eauto.
Qed.

(** No numeral has a redundant leading zero. *)
Lemma of_int_no_leading_zero (n : N) :
  SemVer.has_leading_zero (Str.of_int n) = false.
Proof.
  destruct (N.eq_dec n 0) as [->|Hn]; [reflexivity|].
  destruct (of_int_positive n) as (c & s & E & Hc); [lia|].
  rewrite E. simpl. now rewrite Hc.
Qed.

Lemma to_int_of_int (n : N) : Str.to_int (Str.of_int n) = Some n.
Proof.
  unfold Str.to_int. rewrite of_int_nonempty, of_int_digits. simpl.
  unfold Str.of_int. rewrite NilEmpty.usu. simpl.
  now rewrite DecimalN.Unsigned.of_to.
Qed.

Lemma uint_of_digits (s : string) :
  Str.all Str.is_digit s = true ->
  exists d, NilEmpty.uint_of_string s = Some d.
Proof.
  induction s as [|c s IH]; simpl; [eauto|].
  intros H. apply andb_true_iff in H as [Hc Hs].
  destruct (IH Hs) as [d Hd]. rewrite Hd.
  destruct c as [[] [] [] [] [] [] [] []]; try discriminate Hc;
    simpl; eauto.
Qed.

(** A text of digits that begins with a digit from 1 to 9 is the
    numeral of a positive number. *)
Lemma digits_are_numeral (c : ascii) (s : string) :
  Str.all Str.is_digit (String c s) = true -> Ascii.eqb c "0" = false ->
  exists n, 1 <= n /\ String c s = Str.of_int n.
Proof.
  intros Hd Hc.
  destruct (uint_of_digits _ Hd) as [d Hu].
  pose proof (NilEmpty.sus _ _ Hu) as Hs.
  assert (Hnorm : Decimal.unorm d = d).
  { destruct d; simpl in Hs; try discriminate Hs;
      try reflexivity.
    injection Hs as <- _. discriminate Hc. }
  exists (N.of_uint d). unfold Str.of_int.
  rewrite DecimalN.Unsigned.to_of, Hnorm, Hs. split; [|reflexivity].
  destruct (N.eq_dec (N.of_uint d) 0) as [E|E]; [|lia].
  assert (Hz : N.to_uint (N.of_uint d) = N.to_uint 0) by now rewrite E.
  rewrite DecimalN.Unsigned.to_of, Hnorm in Hz. subst d.
  simpl in Hs. injection Hs as <- _. discriminate Hc.
Qed.

End Numeral.

(* ================================================================== *)
(** ** Prerelease tags and [next_prerelease] *)

Module Tag.
Import StrFacts Numeral.

(** What a successful match of the prerelease pattern returns. *)
Lemma match_counter_some (code rest c ds : string) :
  match_counter code rest = Some (c, ds) ->
  c = code
  /\ (exists d ds', ds = String d ds' /\ Ascii.eqb d "0" = false)
  /\ Str.all Str.is_digit ds = true
  /\ (rest = ds \/ rest = ds ++ nl).
Proof.
  unfold match_counter.
  destruct (Str.span Str.is_digit rest) as [digits tail] eqn:E.
  apply span_spec in E as (-> & Hd & _).
  destruct digits as [|d ds']; [discriminate|].
  destruct (Ascii.eqb d "0") eqn:Hz; [discriminate|].
  destruct (String.eqb_spec tail "") as [->|_]; simpl.
  - intros H. injection H as <- <-. rewrite append_nil_r. eauto 8.
  - destruct (String.eqb_spec tail (String newline "")) as [->|_];
      [|discriminate].
    intros H. injection H as <- <-. eauto 8.
Qed.

Lemma match_some (s c ds : string) :
  PRERELEASE_VERSION_PATTERN_match s = Some (c, ds) ->
  In c ["a"; "rc"]
  /\ (exists d ds', ds = String d ds' /\ Ascii.eqb d "0" = false)
  /\ Str.all Str.is_digit ds = true
  /\ (s = c ++ ds \/ s = c ++ ds ++ nl).
Proof.
  unfold PRERELEASE_VERSION_PATTERN_match.
  destruct s as [|x s]; [discriminate|].
  destruct (Ascii.eqb_spec x "a") as [->|Ha].
  - intros H. apply match_counter_some in H as (-> & H1 & H2 & H3).
    repeat split; simpl; auto. destruct H3 as [->| ->]; auto.
  - destruct (Ascii.eqb_spec x "r") as [->|Hr].
    + destruct s as [|y s]; [discriminate|].
      destruct (Ascii.eqb_spec y "c") as [->|Hc].
      * intros H. apply match_counter_some in H as (-> & H1 & H2 & H3).
        repeat split; simpl; auto. destruct H3 as [->| ->]; auto.
      * destruct y as [[] [] [] [] [] [] [] []]; try discriminate;
          now contradiction Hc.
    + destruct x as [[] [] [] [] [] [] [] []]; try discriminate;
        try (now contradiction Ha); now contradiction Hr.
Qed.

(** A flavor code followed by a counter matches, also before a final
    newline, with groups the code and the counter. *)
Lemma match_digits (code : string) (d : ascii) (ds tail : string) :
  In code ["a"; "rc"] ->
  Str.all Str.is_digit (String d ds) = true -> Ascii.eqb d "0" = false ->
  tail = "" \/ tail = nl ->
  PRERELEASE_VERSION_PATTERN_match (code ++ String d ds ++ tail)
  = Some (code, String d ds).
Proof.
  intros Hc Hd Hz Ht.
  assert (H : match_counter code (String d ds ++ tail)
              = Some (code, String d ds)).
  { unfold match_counter.
    rewrite (span_append Str.is_digit (String d ds) tail Hd)
      by (destruct Ht as [->| ->]; reflexivity).
    rewrite Hz. now destruct Ht as [->| ->]. }
  destruct Hc as [<-|[<-|[]]]; exact H.
Qed.

(** The tag [code ++ n] matches, with groups [code] and [n]. *)
Lemma match_tag (code : string) (n : N) :
  In code ["a"; "rc"] -> 1 <= n ->
  PRERELEASE_VERSION_PATTERN_match (code ++ Str.of_int n)
  = Some (code, Str.of_int n).
Proof.
  intros Hc Hn.
  pose proof (of_int_digits n) as Hd.
  destruct (of_int_positive n Hn) as (c & s & E & Hz).
  rewrite E in *.
  rewrite <- (match_digits code c s "" Hc Hd Hz) by auto.
  now rewrite append_nil_r.
Qed.

Lemma flavor_code (flavor code : string) :
  In (flavor, code) PRERELEASE_FLAVOR_CODES ->
  dict_get PRERELEASE_FLAVOR_CODES flavor = Some code
  /\ In flavor PRERELEASE_FLAVORS /\ In code ["a"; "rc"].
Proof.
  intros [H|[H|[]]]; injection H as <- <-; simpl; auto.
Qed.

Lemma flavor_has_code (flavor : string) :
  In flavor PRERELEASE_FLAVORS ->
  exists code, In (flavor, code) PRERELEASE_FLAVOR_CODES.
Proof.
  intros [<-|[<-|[]]]; [exists "a" | exists "rc"]; simpl; auto.
Qed.

(** A tag is a valid prerelease identifier for [Version(...)]. *)
Lemma of_parts_tag (ma mi pa : N) (code : string) (n : N) :
  In code ["a"; "rc"] ->
  SemVer.of_parts ma mi pa [code ++ Str.of_int n] []
  = Ret (mkVersion ma mi pa [code ++ Str.of_int n] []).
Proof. intros [<-|[<-|[]]]; reflexivity. Qed.

Lemma next_prerelease_fresh (v : Version) (flavor code : string) :
  In (flavor, code) PRERELEASE_FLAVOR_CODES ->
  prerelease v = [] ->
  next_prerelease v flavor
  = Ret (mkVersion (major v) (minor v) (patch v) [code ++ Str.of_int 1] []).
Proof.
  intros Hf Hp. apply flavor_code in Hf as (Hd & _ & Hc).
  unfold next_prerelease. rewrite Hp. cbn [obind]. rewrite Hd. cbn [obind].
  now apply (of_parts_tag _ _ _ code 1).
Qed.

Lemma next_prerelease_bump (v : Version) (flavor code old : string)
    (n : N) (rest : list string) :
  In (flavor, code) PRERELEASE_FLAVOR_CODES ->
  In old ["a"; "rc"] -> 1 <= n ->
  prerelease v = (old ++ Str.of_int n) :: rest ->
  next_prerelease v flavor
  = Ret (mkVersion (major v) (minor v) (patch v)
           [code ++ Str.of_int (n + 1)] []).
Proof.
  intros Hf Ho Hn Hp. apply flavor_code in Hf as (Hd & _ & Hc).
  unfold next_prerelease. rewrite Hp, (match_tag old n Ho Hn).
  rewrite to_int_of_int. cbn [obind]. rewrite Hd. cbn [obind].
  now apply of_parts_tag.
Qed.

Lemma next_has_no_prerelease (v : Version) :
  prerelease (SemVer.next_minor v) = []
  /\ prerelease (SemVer.next_patch v) = []
  /\ prerelease (SemVer.next_major v) = [].
Proof.
  unfold SemVer.next_minor, SemVer.next_patch, SemVer.next_major.
  repeat split;
    match goal with |- context [if ?b then _ else _] => now destruct b end.
Qed.

End Tag.

(** C1.  For a flavor of the table (alpha or rc, with its code),
    [next_prerelease] keeps major, minor and patch and returns a
    prerelease of the requested flavor: with counter 1 when the version
    has no prerelease, with the old counter plus 1 when the version has a
    prerelease of either flavor; so alpha followed by rc, from a version
    without prerelease, ends at counter 2. *)
Theorem next_prerelease_counter (v : Version) (flavor code : string) :
  In (flavor, code) PRERELEASE_FLAVOR_CODES ->
  (prerelease v = [] ->
   next_prerelease v flavor
   = Ret (mkVersion (major v) (minor v) (patch v) [code ++ Str.of_int 1] []))
  /\ (forall (old : string) (n : N) (rest : list string),
        In old ["a"; "rc"] -> 1 <= n ->
        prerelease v = (old ++ Str.of_int n) :: rest ->
        next_prerelease v flavor
        = Ret (mkVersion (major v) (minor v) (patch v)
                 [code ++ Str.of_int (n + 1)] []))
  /\ (prerelease v = [] ->
      (v1 <~ next_prerelease v "alpha";; next_prerelease v1 "rc")%py
      = Ret (mkVersion (major v) (minor v) (patch v)
               ["rc" ++ Str.of_int 2] [])).
Proof.
  intros Hf. split; [|split].
  - now apply Tag.next_prerelease_fresh.
  - intros old n rest. now apply Tag.next_prerelease_bump.
  - intros Hp.
    rewrite (Tag.next_prerelease_fresh v "alpha" "a") by (simpl; auto).
    cbn [obind].
    now rewrite (Tag.next_prerelease_bump _ "rc" "rc" "a" 1 [])
      by (simpl; auto; lia).
Qed.

Lemma next_prerelease_counter_witness :
  next_prerelease (mkVersion 2 4 1 ["a2"] []) "rc"
  = Ret (mkVersion 2 4 1 ["rc3"] []).
Proof.
  exact (proj1 (proj2 (next_prerelease_counter (mkVersion 2 4 1 ["a2"] [])
                         "rc" "rc" (or_intror (or_introl eq_refl))))
           "a" 2 [] (or_introl eq_refl)
           (fun H : (1 ?= 2) = Gt => ltac:(discriminate H)) eq_refl).
Defined.

(* ================================================================== *)
(** ** The matcher decides the language of a pattern *)

Module ReFacts.
Import Re StrFacts.

Lemma no_void (s : string) : ~ lang Void s.
Proof. intros H. inversion H. Qed.

Lemma append_empty (a b : string) : a ++ b = "" -> a = "" /\ b = "".
Proof. destruct a; simpl; [auto | discriminate]. Qed.

Lemma nullable_lang (r : re) : nullable r = true <-> lang r "".
Proof.
  split.
  - induction r; simpl; intros H; try discriminate.
    + constructor.
    + apply andb_true_iff in H as [H1 H2].
      change "" with ("" ++ ""). constructor; auto.
    + apply orb_true_iff in H as [H|H];
        [apply lang_alt_l | apply lang_alt_r]; auto.
    + constructor.
  - intros H. remember "" as s eqn:E.
    induction H; simpl; try discriminate; auto.
    + apply append_empty in E as [-> ->].
      rewrite IHlang1, IHlang2; auto.
    + rewrite IHlang; auto.
    + rewrite IHlang, orb_true_r; auto.
Qed.

Lemma cat_lang (r1 r2 : re) (s : string) :
  lang (cat r1 r2) s <-> lang (Cat r1 r2) s.
Proof.
  split.
  - intros H.
    destruct r1; try (now apply no_void in H);
      destruct r2; simpl in H; try (now apply no_void in H); try exact H;
      change s with ("" ++ s); constructor; auto; constructor.
  - intros H. inversion H as [| |? ? s1 s2 H1 H2| | | |]; subst.
    destruct r1; try (now apply no_void in H1);
      destruct r2; try (now apply no_void in H2); simpl; try exact H;
      inversion H1; subst; exact H2.
Qed.

Lemma alt_lang (r1 r2 : re) (s : string) :
  lang (alt r1 r2) s <-> lang (Alt r1 r2) s.
Proof.
  split.
  - intros H.
    destruct r1; try (now apply lang_alt_r);
      destruct r2; simpl in H; try exact H; now apply lang_alt_l.
  - intros H.
    inversion H as [| | |? ? ? H1|? ? ? H2| |]; subst.
    + destruct r1; try (now apply no_void in H1);
        destruct r2; simpl; try exact H1; now apply lang_alt_l.
    + destruct r1; simpl; try exact H2;
        destruct r2; try (now apply no_void in H2); now apply lang_alt_r.
Qed.

Lemma cat_split (r1 r2 : re) (s : string) :
  lang (Cat r1 r2) s ->
  exists s1 s2, s = s1 ++ s2 /\ lang r1 s1 /\ lang r2 s2.
Proof. intros H. inversion H; subst. eauto. Qed.

(** A non-empty match of [r*] begins with a non-empty match of [r]. *)
Lemma star_uncons (r : re) (c : ascii) (s : string) :
  lang (Star r) (String c s) ->
  exists s1 s2, s = s1 ++ s2 /\ lang r (String c s1) /\ lang (Star r) s2.
Proof.
  intros H. remember (Star r) as r' eqn:Er.
  remember (String c s) as t eqn:Et.
  induction H as [| | | | | |r0 s1 s2 H1 _ H2 IH]; try discriminate.
  injection Er as ->.
  destruct s1 as [|c1 s1]; simpl in Et.
  - now apply IH.
  - injection Et as -> <-. eauto.
Qed.

Lemma deriv_lang (c : ascii) (r : re) :
  forall s, lang (deriv c r) s <-> lang r (String c s).
Proof.
  induction r as [| |p|r1 IH1 r2 IH2|r1 IH1 r2 IH2|r IH]; intros s; simpl.
  - split; intros H; inversion H.
  - split; intros H; inversion H.
  - destruct (p c) eqn:Hp; split; intros H; inversion H; subst.
    + now constructor.
    + constructor.
    + congruence.
  - assert (Hcat : lang (cat (deriv c r1) r2) s
                   <-> exists s1 s2, s = s1 ++ s2
                                     /\ lang r1 (String c s1) /\ lang r2 s2).
    { rewrite cat_lang. split.
      - intros H. inversion H as [| |? ? s1 s2 H1 H2| | | |]; subst.
        apply IH1 in H1. eauto.
      - intros (s1 & s2 & -> & H1 & H2). constructor; [apply IH1|]; auto. }
    assert (Hinv : lang (Cat r1 r2) (String c s)
                   <-> (lang r1 "" /\ lang r2 (String c s))
                       \/ exists s1 s2, s = s1 ++ s2
                            /\ lang r1 (String c s1) /\ lang r2 s2).
    { split.
      - intros H. apply cat_split in H as (s1 & s2 & E & H1 & H2).
        destruct s1 as [|c1 s1]; simpl in E.
        + subst s2. left. split; assumption.
        + injection E as <- ->. right. exists s1, s2. repeat split; assumption.
      - intros [[H1 H2]|(s1 & s2 & -> & H1 & H2)].
        + change (String c s) with ("" ++ String c s). now constructor.
        + change (String c (s1 ++ s2)) with (String c s1 ++ s2).
          now constructor. }
    rewrite Hinv. destruct (nullable r1) eqn:Hn.
    + rewrite alt_lang. split.
      * intros H. inversion H as [| | |? ? ? H1|? ? ? H2| |]; subst.
        -- right. now apply Hcat.
        -- left. split; [now apply nullable_lang | now apply IH2].
      * intros [[H1 H2]|H].
        -- apply lang_alt_r. now apply IH2.
        -- apply lang_alt_l. now apply Hcat.
    + rewrite Hcat. split; [auto|].
      intros [[H1 _]|H]; [|exact H].
      apply nullable_lang in H1. congruence.
  - rewrite alt_lang.
    split; intros H; inversion H as [| | |? ? ? H1|? ? ? H2| |]; subst.
    + apply lang_alt_l. now apply IH1.
    + apply lang_alt_r. now apply IH2.
    + apply lang_alt_l. now apply IH1.
    + apply lang_alt_r. now apply IH2.
  - rewrite cat_lang. split.
    + intros H. inversion H as [| |? ? s1 s2 H1 H2| | | |]; subst.
      change (String c (s1 ++ s2)) with (String c s1 ++ s2).
      constructor; [now apply IH | assumption].
    + intros H. apply star_uncons in H as (s1 & s2 & -> & H1 & H2).
      constructor; [now apply IH | assumption].
Qed.

Theorem fullmatch_lang (r : re) (s : string) :
  fullmatch r s = true <-> lang r s.
Proof.
  revert r. induction s as [|c s IH]; intros r; simpl.
  - apply nullable_lang.
  - rewrite IH. apply deriv_lang.
Qed.

(** Building blocks for showing that a text is in a language. *)
Lemma lang_opt_none (r : re) : lang (Opt r) "".
Proof. apply lang_alt_r. constructor. Qed.

Lemma lang_opt_some (r : re) (s : string) : lang r s -> lang (Opt r) s.
Proof. now apply lang_alt_l. Qed.

Lemma lang_star_all p (s : string) :
  Str.all p s = true -> lang (Star (Chr p)) s.
Proof.
  induction s as [|c s IH]; simpl; intros H; [constructor|].
  apply andb_true_iff in H as [Hc Hs].
  change (String c s) with (String c "" ++ s).
  constructor; [now constructor | auto].
Qed.

Lemma lang_plus_all p (s : string) :
  Str.nonempty s = true -> Str.all p s = true -> lang (Plus (Chr p)) s.
Proof.
  destruct s as [|c s]; [discriminate|]. simpl. intros _ H.
  apply andb_true_iff in H as [Hc Hs].
  change (String c s) with (String c "" ++ s).
  constructor; [now constructor | now apply lang_star_all].
Qed.

Lemma lang_lit (s : string) : lang (Lit s) s.
Proof.
  induction s as [|c s IH]; simpl; [constructor|].
  change (String c s) with (String c "" ++ s).
  constructor; [|exact IH]. constructor. apply Ascii.eqb_refl.
Qed.

Lemma lang_seq_nil : lang (Seq []) "".
Proof. constructor. Qed.

Lemma lang_seq_cons (r : re) (rs : list re) (s1 s2 : string) :
  lang r s1 -> lang (Seq rs) s2 -> lang (Seq (r :: rs)) (s1 ++ s2).
Proof. intros. simpl. now constructor. Qed.

Lemma match_anchored_lang (r : re) (s : string) :
  lang r s -> match_anchored r s = true.
Proof.
  intros H. apply fullmatch_lang.
  rewrite <- (append_nil_r s). constructor; [exact H | apply lang_opt_none].
Qed.

End ReFacts.

(* ================================================================== *)
(** ** The prerelease pattern *)

Module PatternFacts.
Import Re ReFacts StrFacts.

Lemma lang_chr_inv p (s : string) :
  lang (Chr p) s -> exists c, s = String c "" /\ p c = true.
Proof. intros H. inversion H; subst. eauto. Qed.

Lemma lang_lit_inv (x s : string) : lang (Lit x) s -> s = x.
Proof.
  revert s. induction x as [|c x IH]; intros s H; simpl in H.
  - now inversion H.
  - apply cat_split in H as (s1 & s2 & -> & H1 & H2).
    apply lang_chr_inv in H1 as (c' & -> & E).
    apply Ascii.eqb_eq in E. subst c'. simpl. now rewrite (IH s2 H2).
Qed.

Lemma lang_star_all_inv p (s : string) :
  lang (Star (Chr p)) s -> Str.all p s = true.
Proof.
  intros H. remember (Star (Chr p)) as r eqn:Er.
  induction H as [| | | | | |r0 s1 s2 H1 _ H2 IH]; try discriminate.
  - reflexivity.
  - injection Er as ->. apply lang_chr_inv in H1 as (c & -> & Hc).
    simpl. now rewrite Hc, IH.
Qed.

Lemma lang_opt_inv (r : re) (s : string) :
  lang (Opt r) s -> s = "" \/ lang r s.
Proof.
  intros H. inversion H as [| | |? ? ? H1|? ? ? H2| |]; subst; [now right|].
  inversion H2. now left.
Qed.

(** The scan [PRERELEASE_VERSION_PATTERN_match] succeeds exactly on the
    texts the pattern matches. *)
Lemma prerelease_pattern_agrees (s : string) :
  match_anchored PRERELEASE_VERSION_PATTERN s = true
  <-> PRERELEASE_VERSION_PATTERN_match s <> None.
Proof.
  unfold match_anchored. rewrite fullmatch_lang. split.
  - intros H. apply cat_split in H as (body & tail & -> & Hb & Ht).
    unfold PRERELEASE_VERSION_PATTERN, Seq in Hb. cbn [fold_right] in Hb.
    apply cat_split in Hb as (code & rest & -> & Hc & Hr).
    apply cat_split in Hr as (d & rest' & -> & Hd & Hr).
    apply cat_split in Hr as (ds & e & -> & Hds & He).
    inversion He; subst. apply lang_chr_inv in Hd as (c & -> & Hc1).
    apply andb_true_iff in Hc1 as [Hdig Hnz]. apply negb_true_iff in Hnz.
    apply lang_star_all_inv in Hds.
    assert (Hcode : In code ["a"; "rc"]).
    { inversion Hc as [| | |? ? ? H1|? ? ? H2| |]; subst.
      - apply (lang_lit_inv "a") in H1 as ->. simpl; auto.
      - apply (lang_lit_inv "rc") in H2 as ->. simpl; auto. }
    assert (Htail : tail = "" \/ tail = nl).
    { apply lang_opt_inv in Ht as [->|Ht]; [now left|].
      apply lang_chr_inv in Ht as (c' & -> & E).
      apply Ascii.eqb_eq in E. subst c'. now right. }
    rewrite append_nil_r, !append_assoc. cbn [append].
    change (String c (ds ++ tail)) with (String c ds ++ tail).
    rewrite Tag.match_digits; auto; [discriminate|].
    simpl. now rewrite Hdig, Hds.
  - intros H.
    destruct (PRERELEASE_VERSION_PATTERN_match s) as [[code ds]|] eqn:E;
      [clear H | congruence].
    apply Tag.match_some in E as (Hc & (d & ds' & -> & Hz) & Hd & Hs).
    simpl in Hd. apply andb_true_iff in Hd as [Hd Hds].
    assert (Hbody : lang PRERELEASE_VERSION_PATTERN (code ++ String d ds')).
    { unfold PRERELEASE_VERSION_PATTERN.
      replace (code ++ String d ds')
        with (code ++ String d "" ++ ds' ++ "")
        by (cbn [append]; now rewrite append_nil_r).
      apply lang_seq_cons.
      - destruct Hc as [<-|[<-|[]]];
          [apply lang_alt_l | apply lang_alt_r]; apply lang_lit.
      - apply lang_seq_cons.
        + constructor. now rewrite Hd, Hz.
        + apply lang_seq_cons; [now apply lang_star_all | constructor]. }
    destruct Hs as [->| ->].
    + rewrite <- (append_nil_r (code ++ String d ds')).
      constructor; [exact Hbody | apply lang_opt_none].
    + rewrite <- append_assoc.
      constructor; [exact Hbody|].
      apply lang_opt_some. constructor. reflexivity.
Qed.

End PatternFacts.

(** C10.  [next_prerelease] returns a version when the input has no
    prerelease or its first prerelease segment, the only one the code
    reads, matches [PRERELEASE_VERSION_PATTERN]; when that segment does
    not match, the call ends in an [AttributeError] from [.group(2)] on a
    failed match: neither a version nor an error of the script's own. *)
Theorem next_prerelease_partial (v : Version) (flavor : string) :
  (In flavor PRERELEASE_FLAVORS ->
   prerelease v = []
   \/ (exists segment rest,
         prerelease v = segment :: rest
         /\ Re.match_anchored PRERELEASE_VERSION_PATTERN segment = true) ->
   exists v', next_prerelease v flavor = Ret v')
  /\ (forall segment rest,
        prerelease v = segment :: rest ->
        Re.match_anchored PRERELEASE_VERSION_PATTERN segment = false ->
        next_prerelease v flavor = Raise AttributeError).
Proof.
  split.
  - intros Hf Hp.
    destruct (Tag.flavor_has_code flavor Hf) as [code Hc].
    destruct Hp as [Hp|(segment & rest & Hp & Hm)].
    + rewrite (Tag.next_prerelease_fresh v flavor code Hc Hp). eauto.
    + apply PatternFacts.prerelease_pattern_agrees in Hm.
      destruct (PRERELEASE_VERSION_PATTERN_match segment) as [[c ds]|] eqn:E;
        [|congruence].
      pose proof E as E'.
      apply Tag.match_some in E as (Hin & (d & ds' & -> & Hz) & Hd & Hs).
      destruct (Numeral.digits_are_numeral d ds' Hd Hz) as (n & Hn & En).
      apply Tag.flavor_code in Hc as (Hget & _ & Hcode).
      unfold next_prerelease. rewrite Hp, E', En, Numeral.to_int_of_int.
      cbn [obind]. rewrite Hget. cbn [obind].
      rewrite Tag.of_parts_tag by assumption. eauto.
  - intros segment rest Hp Hm.
    assert (E : PRERELEASE_VERSION_PATTERN_match segment = None).
    { destruct (PRERELEASE_VERSION_PATTERN_match segment) eqn:E;
        [|reflexivity].
      assert (H : Re.match_anchored PRERELEASE_VERSION_PATTERN segment = true)
        by (apply PatternFacts.prerelease_pattern_agrees; congruence).
      congruence. }
    unfold next_prerelease. now rewrite Hp, E.
Qed.

Lemma next_prerelease_partial_witness :
  (exists v', next_prerelease (mkVersion 2 4 1 ["rc1"] []) "alpha" = Ret v')
  /\ next_prerelease (mkVersion 2 4 1 ["dev"] []) "alpha" = Raise AttributeError.
Proof.
  split.
  - apply (proj1 (next_prerelease_partial (mkVersion 2 4 1 ["rc1"] []) "alpha")).
    + simpl. auto.
    + right. exists "rc1", []. split; reflexivity.
  - exact (proj2 (next_prerelease_partial (mkVersion 2 4 1 ["dev"] []) "alpha")
             "dev" [] eq_refl eq_refl).
Defined.

(* ================================================================== *)
(** ** The scans of the version library against its patterns *)

Module VersionReFacts.
Import Re ReFacts PatternFacts StrFacts.

Lemma lang_plus_all_inv p (s : string) :
  lang (Plus (Chr p)) s -> Str.nonempty s = true /\ Str.all p s = true.
Proof.
  intros H. apply cat_split in H as (s1 & s2 & -> & H1 & H2).
  apply lang_chr_inv in H1 as (c & -> & Hc).
  apply lang_star_all_inv in H2. simpl. now rewrite Hc, H2.
Qed.

Lemma optional_group_spec (lead : ascii) (s r : string) (g : option string) :
  SemVer.optional_group lead s = (g, r) ->
  s = group_text lead g ++ r
  /\ match g with
     | Some text => Str.nonempty text = true
                    /\ Str.all SemVer.is_ident_char text = true
     | None => True
     end.
Proof.
  unfold SemVer.optional_group. destruct s as [|c s].
  - intros H. injection H as <- <-. now split.
  - destruct (Ascii.eqb_spec c lead) as [->|_].
    + destruct (Str.span SemVer.is_ident_char s) as [text r'] eqn:E.
      apply span_spec in E as (-> & Ht & _).
      destruct (Str.nonempty text) eqn:Hn; intros H; injection H as <- <-.
      * now repeat split.
      * now split.
    + intros H. injection H as <- <-. now split.
Qed.

Lemma lang_group (lead : ascii) (g : option string) :
  match g with
  | Some text => Str.nonempty text = true
                 /\ Str.all SemVer.is_ident_char text = true
  | None => True
  end ->
  lang (Opt (Cat (Lit (String lead ""))
                 (Plus (Chr SemVer.is_ident_char))))
       (group_text lead g).
Proof.
  destruct g as [text|]; simpl; [|intros _; apply lang_opt_none].
  intros [Hn Ht]. apply lang_opt_some.
  change (String lead text) with (String lead "" ++ text).
  constructor; [apply (lang_lit (String lead "")) | now apply lang_plus_all].
Qed.

Lemma lang_group_inv (lead : ascii) (s : string) :
  lang (Opt (Cat (Lit (String lead ""))
                 (Plus (Chr SemVer.is_ident_char)))) s ->
  s = ""
  \/ exists text, s = String lead text /\ Str.nonempty text = true
                  /\ Str.all SemVer.is_ident_char text = true.
Proof.
  intros H. apply lang_opt_inv in H as [->|H]; [now left|]. right.
  apply cat_split in H as (l & text & -> & Hl & Ht).
  apply (lang_lit_inv (String lead "")) in Hl as ->.
  apply lang_plus_all_inv in Ht as [Hn Ht]. now exists text.
Qed.

(** An optional group is found again in front of a text that cannot
    continue it. *)
Lemma optional_group_found (lead : ascii) (s r : string) :
  (s = ""
   \/ exists text, s = String lead text /\ Str.nonempty text = true
                   /\ Str.all SemVer.is_ident_char text = true) ->
  stops SemVer.is_ident_char r ->
  stops (Ascii.eqb lead) r ->
  exists g, SemVer.optional_group lead (s ++ r) = (g, r)
            /\ s = group_text lead g.
Proof.
  intros [->|(text & -> & Hn & Ht)] Hr Hl.
  - exists None. split; [|reflexivity]. simpl.
    unfold SemVer.optional_group. destruct r as [|c r]; [reflexivity|].
    simpl in Hl. rewrite Ascii.eqb_sym in Hl. now rewrite Hl.
  - exists (Some text). split; [|reflexivity].
    unfold SemVer.optional_group. cbn [append].
    rewrite Ascii.eqb_refl, (span_append _ _ _ Ht Hr). now rewrite Hn.
Qed.

(** The scan [version_re_match] succeeds exactly on the texts
    [version_re] matches. *)
Lemma version_re_agrees (s : string) :
  match_anchored SemVer.VERSION_RE s = true <-> SemVer.version_re_match s <> None.
Proof.
  unfold match_anchored. rewrite fullmatch_lang. split.
  - intros H. apply cat_split in H as (body & tail & -> & Hb & Ht).
    unfold SemVer.VERSION_RE, Seq in Hb. cbn [fold_right] in Hb.
    apply cat_split in Hb as (ma & ? & -> & Hma & Hb).
    apply cat_split in Hb as (d1 & ? & -> & Hd1 & Hb).
    apply cat_split in Hb as (mi & ? & -> & Hmi & Hb).
    apply cat_split in Hb as (d2 & ? & -> & Hd2 & Hb).
    apply cat_split in Hb as (pa & ? & -> & Hpa & Hb).
    apply cat_split in Hb as (pre & ? & -> & Hpre & Hb).
    apply cat_split in Hb as (bld & e & -> & Hbld & He).
    inversion He; subst. clear He.
    apply (lang_lit_inv ".") in Hd1 as ->.
    apply (lang_lit_inv ".") in Hd2 as ->.
    apply lang_plus_all_inv in Hma as [Nma Dma].
    apply lang_plus_all_inv in Hmi as [Nmi Dmi].
    apply lang_plus_all_inv in Hpa as [Npa Dpa].
    apply (lang_group_inv "-") in Hpre.
    apply (lang_group_inv "+") in Hbld.
    assert (Htail : tail = "" \/ tail = nl).
    { apply lang_opt_inv in Ht as [->|Ht]; [now left|].
      apply lang_chr_inv in Ht as (c' & -> & E).
      apply Ascii.eqb_eq in E. subst c'. now right. }
    assert (Stail : stops SemVer.is_ident_char tail
                    /\ stops (Ascii.eqb "+") tail
                    /\ stops (Ascii.eqb "-") tail
                    /\ stops Str.is_digit tail
                    /\ SemVer.at_end tail = true)
      by (destruct Htail as [->| ->]; repeat split).
    destruct Stail as (T1 & T2 & T3 & T4 & T5).
    destruct (optional_group_found "+" bld tail Hbld T1 T2)
      as (gb & Egb & ->).
    assert (Sb : stops SemVer.is_ident_char (group_text "+" gb ++ tail)
                 /\ stops (Ascii.eqb "-") (group_text "+" gb ++ tail)
                 /\ stops Str.is_digit (group_text "+" gb ++ tail))
      by (destruct gb; repeat split; assumption).
    destruct Sb as (B1 & B2 & B3).
    destruct (optional_group_found "-" pre _ Hpre B1 B2)
      as (gp & Egp & ->).
    assert (Sp : stops Str.is_digit
                   (group_text "-" gp ++ group_text "+" gb ++ tail))
      by (destruct gp; [reflexivity | assumption]).
    rewrite append_nil_r, !append_assoc. cbn [append].
    unfold SemVer.version_re_match.
    rewrite (span_append _ _ _ Dma) by reflexivity.
    rewrite (span_append _ _ _ Dmi) by reflexivity.
    rewrite (span_append _ _ _ Dpa) by assumption.
    rewrite Egp, Egb, Nma, Nmi, Npa, T5. discriminate.
  - intros H. unfold SemVer.version_re_match in H.
    destruct (Str.span Str.is_digit s) as [ma r1] eqn:E1.
    apply span_spec in E1 as (-> & Dma & _).
    destruct r1 as [|c1 r1]; [congruence|].
    destruct (Ascii.eqb_spec c1 ".") as [->|Hc1].
    2:{ exfalso. apply H.
        destruct c1 as [[] [] [] [] [] [] [] []]; try reflexivity.
        now contradiction Hc1. }
    destruct (Str.span Str.is_digit r1) as [mi r2] eqn:E2.
    apply span_spec in E2 as (-> & Dmi & _).
    destruct r2 as [|c2 r2]; [congruence|].
    destruct (Ascii.eqb_spec c2 ".") as [->|Hc2].
    2:{ exfalso. apply H.
        destruct c2 as [[] [] [] [] [] [] [] []]; try reflexivity.
        now contradiction Hc2. }
    destruct (Str.span Str.is_digit r2) as [pa r3] eqn:E3.
    apply span_spec in E3 as (-> & Dpa & _).
    destruct (SemVer.optional_group "-" r3) as [gp r4] eqn:Egp.
    apply optional_group_spec in Egp as (-> & Hgp).
    destruct (SemVer.optional_group "+" r4) as [gb r5] eqn:Egb.
    apply optional_group_spec in Egb as (-> & Hgb).
    destruct (Str.nonempty ma) eqn:Nma; [|cbn in H; congruence].
    destruct (Str.nonempty mi) eqn:Nmi; [|cbn in H; congruence].
    destruct (Str.nonempty pa) eqn:Npa; [|cbn in H; congruence].
    destruct (SemVer.at_end r5) eqn:Hend; [|cbn in H; congruence].
    clear H.
    assert (Hbody : lang SemVer.VERSION_RE
              (ma ++ "." ++ mi ++ "." ++ pa ++ group_text "-" gp
               ++ group_text "+" gb ++ "")).
    { unfold SemVer.VERSION_RE.
      apply lang_seq_cons; [now apply lang_plus_all|].
      apply lang_seq_cons; [apply lang_lit|].
      apply lang_seq_cons; [now apply lang_plus_all|].
      apply lang_seq_cons; [apply lang_lit|].
      apply lang_seq_cons; [now apply lang_plus_all|].
      apply lang_seq_cons; [now apply (lang_group "-")|].
      apply lang_seq_cons; [now apply (lang_group "+") | constructor]. }
    replace (ma ++ String "." (mi ++ String "." (pa ++ group_text "-" gp
               ++ group_text "+" gb ++ r5)))
      with ((ma ++ "." ++ mi ++ "." ++ pa ++ group_text "-" gp
               ++ group_text "+" gb ++ "") ++ r5)
      by (rewrite !append_assoc; reflexivity).
    constructor; [exact Hbody|].
    unfold SemVer.at_end in Hend. apply orb_true_iff in Hend as [E|E];
      apply String.eqb_eq in E; subst r5.
    + apply lang_opt_none.
    + apply lang_opt_some. constructor. reflexivity.
Qed.

End VersionReFacts.

Module BaseReFacts.
Import Re ReFacts PatternFacts StrFacts.

(** What [base_re_match] returns is a prefix of the text that the
    pattern matches, and it fails only on a text that does not begin with
    a digit, which no match of the pattern can begin. *)
Lemma base_re_match_sound (s : string) :
  match SemVer.base_re_match s with
  | Some (matched, rest) => s = matched ++ rest /\ lang SemVer.BASE_RE matched
  | None => stops Str.is_digit s
  end.
Proof.
  unfold SemVer.base_re_match.
  destruct (Str.span Str.is_digit s) as [a r1] eqn:E1.
  apply span_spec in E1 as (-> & Da & Sa).
  destruct (Str.nonempty a) eqn:Na; cbn [negb].
  2:{ destruct a; [exact Sa | discriminate]. }
  assert (La : lang (Plus digit) a) by now apply lang_plus_all.
  assert (Short : lang SemVer.BASE_RE a).
  { rewrite <- (append_nil_r a). constructor; [exact La | apply lang_opt_none]. }
  destruct r1 as [|c1 r1]; [now split|].
  destruct (Ascii.eqb_spec c1 ".") as [->|Hc1].
  2:{ destruct c1 as [[] [] [] [] [] [] [] []]; try (now split).
      now contradiction Hc1. }
  destruct (Str.span Str.is_digit r1) as [b r2] eqn:E2.
  apply span_spec in E2 as (-> & Db & _).
  destruct (Str.nonempty b) eqn:Nb; cbn [negb]; [|now split].
  assert (Lb : lang (Plus digit) b) by now apply lang_plus_all.
  assert (Mid : lang SemVer.BASE_RE (a ++ "." ++ b)).
  { constructor; [exact La|]. apply lang_opt_some.
    constructor; [apply lang_lit|].
    rewrite <- (append_nil_r b). constructor; [exact Lb | apply lang_opt_none]. }
  assert (Emid : a ++ String "." (b ++ r2) = (a ++ "." ++ b) ++ r2)
    by (rewrite !append_assoc; reflexivity).
  destruct r2 as [|c2 r2]; [now split|].
  destruct (Ascii.eqb_spec c2 ".") as [->|Hc2].
  2:{ destruct c2 as [[] [] [] [] [] [] [] []]; try (now split).
      now contradiction Hc2. }
  destruct (Str.span Str.is_digit r2) as [c r3] eqn:E3.
  apply span_spec in E3 as (-> & Dc & _).
  destruct (Str.nonempty c) eqn:Nc; cbn [negb]; [|now split].
  split; [rewrite !append_assoc; reflexivity|].
  constructor; [exact La|]. apply lang_opt_some.
  constructor; [apply lang_lit|].
  constructor; [exact Lb|]. apply lang_opt_some.
  constructor; [apply lang_lit | now apply lang_plus_all].
Qed.

End BaseReFacts.

(* ================================================================== *)
(** ** Formatting a version and reading it back *)

Module RoundTrip.
Import StrFacts Numeral.

Lemma all_impl (p q : ascii -> bool) (s : string) :
  (forall c, p c = true -> q c = true) ->
  Str.all p s = true -> Str.all q s = true.
Proof.
  intros Hpq. induction s as [|c s IH]; simpl; [reflexivity|].
  intros H. apply andb_true_iff in H as [Hc Hs].
  now rewrite (Hpq c Hc), IH.
Qed.

Lemma map_fixed (f : ascii -> ascii) p (s : string) :
  (forall c, p c = true -> f c = c) ->
  Str.all p s = true -> Str.map f s = s.
Proof.
  intros Hf. induction s as [|c s IH]; simpl; [reflexivity|].
  intros H. apply andb_true_iff in H as [Hc Hs].
  now rewrite (Hf c Hc), IH.
Qed.

Lemma split_once_absent p c (s : string) :
  p c = false -> Str.all p s = true -> Str.split_once c s = None.
Proof.
  intros Hc. induction s as [|x s IH]; simpl; [reflexivity|].
  intros H. apply andb_true_iff in H as [Hx Hs].
  destruct (Ascii.eqb_spec x c) as [->|_]; [congruence|].
  now rewrite IH.
Qed.

Lemma digit_ident (c : ascii) :
  Str.is_digit c = true -> SemVer.is_ident_char c = true.
Proof. intros H. unfold SemVer.is_ident_char. now rewrite H. Qed.

Lemma digit_rest (c : ascii) :
  Str.is_digit c = true -> SemVer.is_rest_char c = true.
Proof.
  intros H. unfold SemVer.is_rest_char. rewrite H.
  now rewrite orb_true_r.
Qed.

Lemma span_of_int (n : N) (r : string) :
  stops Str.is_digit r ->
  Str.span Str.is_digit (Str.of_int n ++ r) = (Str.of_int n, r).
Proof. apply span_append, of_int_digits. Qed.

(** [part.lstrip('0') or '0'] leaves a numeral as it is. *)
Lemma lstrip_of_int (n : N) :
  match Str.lstrip "0" (Str.of_int n) with
  | "" => "0"
  | stripped => stripped
  end = Str.of_int n.
Proof.
  destruct (N.eq_dec n 0) as [->|Hn]; [reflexivity|].
  destruct (of_int_positive n) as (c & s & E & Hc); [lia|].
  rewrite E. simpl. now rewrite Hc.
Qed.

Lemma base_re_match_triple (ma mi pa : N) (suffix : string) :
  stops Str.is_digit suffix ->
  SemVer.base_re_match
    (Str.of_int ma ++ "." ++ Str.of_int mi ++ "." ++ Str.of_int pa ++ suffix)
  = Some (triple ma mi pa, suffix).
Proof.
  intros Hs. unfold SemVer.base_re_match.
  rewrite span_of_int by reflexivity.
  rewrite of_int_nonempty. cbn [negb append].
  rewrite span_of_int by reflexivity.
  rewrite of_int_nonempty. cbn [negb append].
  rewrite span_of_int by assumption.
  rewrite of_int_nonempty. reflexivity.
Qed.

Lemma split_triple (ma mi pa : N) :
  Str.split "." (triple ma mi pa)
  = [Str.of_int ma; Str.of_int mi; Str.of_int pa].
Proof.
  unfold triple. cbn [append].
  rewrite (split_append Str.is_digit) by (auto using of_int_digits).
  rewrite (split_append Str.is_digit) by (auto using of_int_digits).
  now rewrite (split_absent Str.is_digit) by (auto using of_int_digits).
Qed.

Lemma normalise_triple (ma mi pa : N) :
  SemVer.strip_leading_zeros (SemVer.pad_components (triple ma mi pa))
  = triple ma mi pa.
Proof.
  assert (Hc : Str.count "." (triple ma mi pa) = 2%nat).
  { unfold triple. cbn [append].
    rewrite !count_append. cbn [Str.count Ascii.eqb Bool.eqb].
    rewrite !count_append. cbn [Str.count Ascii.eqb Bool.eqb].
    now rewrite !(count_absent Str.is_digit) by (auto using of_int_digits). }
  unfold SemVer.pad_components. rewrite Hc.
  unfold SemVer.strip_leading_zeros. rewrite split_triple.
  cbn [List.map]. now rewrite !lstrip_of_int.
Qed.

Lemma version_re_match_triple (ma mi pa : N) :
  SemVer.version_re_match (triple ma mi pa)
  = Some (Str.of_int ma, Str.of_int mi, Str.of_int pa, None, None).
Proof.
  unfold SemVer.version_re_match, triple.
  rewrite span_of_int by reflexivity. cbn [append].
  rewrite span_of_int by reflexivity. cbn [append].
  rewrite span_all by apply of_int_digits.
  now rewrite !of_int_nonempty.
Qed.

Lemma version_re_match_tagged (ma mi pa : N) (tag : string) :
  Str.nonempty tag = true -> Str.all SemVer.is_ident_char tag = true ->
  SemVer.version_re_match (triple ma mi pa ++ "-" ++ tag)
  = Some (Str.of_int ma, Str.of_int mi, Str.of_int pa, Some tag, None).
Proof.
  intros Hn Ht. unfold SemVer.version_re_match, triple.
  rewrite !append_assoc. cbn [append].
  rewrite span_of_int by reflexivity.
  rewrite span_of_int by reflexivity.
  rewrite span_of_int by reflexivity.
  unfold SemVer.optional_group at 1. cbn [Ascii.eqb Bool.eqb].
  rewrite (span_all _ _ Ht), Hn.
  now rewrite !of_int_nonempty.
Qed.

Lemma int_of_of_int (n : N) : SemVer.int_of (Str.of_int n) = Ret n.
Proof. unfold SemVer.int_of. now rewrite to_int_of_int. Qed.

Lemma triple_nonempty (ma mi pa : N) (s : string) :
  Str.nonempty (triple ma mi pa ++ s) = true.
Proof.
  unfold triple. pose proof (of_int_nonempty ma) as H.
  destruct (Str.of_int ma); [discriminate | reflexivity].
Qed.

Lemma parse_triple (ma mi pa : N) :
  SemVer.parse (triple ma mi pa) = Ret (mkVersion ma mi pa [] []).
Proof.
  unfold SemVer.parse.
  rewrite <- (append_nil_r (triple ma mi pa)) at 1.
  rewrite triple_nonempty. cbn [negb].
  rewrite version_re_match_triple, !of_int_no_leading_zero.
  cbn [orb]. now rewrite !int_of_of_int.
Qed.

(** The prerelease tags of the script: a flavor code and a counter. *)
Lemma tag_facts (code : string) (n : N) :
  In code ["a"; "rc"] ->
  Str.nonempty (code ++ Str.of_int n) = true
  /\ Str.all SemVer.is_ident_char (code ++ Str.of_int n) = true
  /\ Str.all SemVer.is_rest_char (code ++ Str.of_int n) = true
  /\ Str.split "." (code ++ Str.of_int n) = [code ++ Str.of_int n]
  /\ Str.split_once "+" (code ++ Str.of_int n) = None
  /\ stops Str.is_digit (code ++ Str.of_int n)
  /\ Str.remove "-" (code ++ Str.of_int n) = code ++ Str.of_int n.
Proof.
  intros Hc.
  assert (Hi : Str.all SemVer.is_ident_char (code ++ Str.of_int n) = true).
  { rewrite all_append, (all_impl _ _ _ digit_ident (of_int_digits n)).
    destruct Hc as [<-|[<-|[]]]; reflexivity. }
  assert (Hr : Str.all SemVer.is_rest_char (code ++ Str.of_int n) = true).
  { rewrite all_append, (all_impl _ _ _ digit_rest (of_int_digits n)).
    destruct Hc as [<-|[<-|[]]]; reflexivity. }
  assert (Ha : Str.all (fun c => Str.is_digit c || SemVer.is_letter c)
                 (code ++ Str.of_int n) = true).
  { rewrite all_append.
    rewrite (all_impl Str.is_digit _ (Str.of_int n))
      by (auto using of_int_digits; intros c ->; reflexivity).
    destruct Hc as [<-|[<-|[]]]; reflexivity. }
  repeat split; try assumption.
  - destruct Hc as [<-|[<-|[]]]; reflexivity.
  - now apply (split_absent _ _ _ (eq_refl : _ "."%char = false) Ha).
  - now apply (split_once_absent _ _ _ (eq_refl : _ "+"%char = false) Ha).
  - destruct Hc as [<-|[<-|[]]]; reflexivity.
  - now apply (remove_absent _ _ _ (eq_refl : _ "-"%char = false) Ha).
Qed.

Lemma parse_tagged (ma mi pa : N) (code : string) (n : N) :
  In code ["a"; "rc"] ->
  SemVer.parse (triple ma mi pa ++ "-" ++ code ++ Str.of_int n)
  = Ret (mkVersion ma mi pa [code ++ Str.of_int n] []).
Proof.
  intros Hc. destruct (tag_facts code n Hc) as (Hn & Hi & _ & Hs & _).
  unfold SemVer.parse.
  rewrite triple_nonempty. cbn [negb].
  rewrite version_re_match_tagged, !of_int_no_leading_zero by assumption.
  cbn [orb]. rewrite !int_of_of_int. cbn [obind]. rewrite Hs.
  now apply Tag.of_parts_tag.
Qed.

Lemma coerce_triple (ma mi pa : N) :
  SemVer.coerce (triple ma mi pa) = Ret (mkVersion ma mi pa [] []).
Proof.
  unfold SemVer.coerce.
  replace (triple ma mi pa)
    with (Str.of_int ma ++ "." ++ Str.of_int mi ++ "." ++ Str.of_int pa ++ "")
    at 1 by (unfold triple; now rewrite append_nil_r).
  rewrite base_re_match_triple by exact I.
  rewrite normalise_triple. apply parse_triple.
Qed.

Lemma coerce_tagged (ma mi pa : N) (code : string) (n : N) :
  In code ["a"; "rc"] ->
  SemVer.coerce (triple ma mi pa ++ code ++ Str.of_int n)
  = Ret (mkVersion ma mi pa [code ++ Str.of_int n] []).
Proof.
  intros Hc.
  destruct (tag_facts code n Hc) as (Hn & _ & Hr & _ & Hp & Hd & _).
  unfold SemVer.coerce.
  replace (triple ma mi pa ++ code ++ Str.of_int n)
    with (Str.of_int ma ++ "." ++ Str.of_int mi ++ "." ++ Str.of_int pa
          ++ code ++ Str.of_int n)
    by (unfold triple; now rewrite !append_assoc).
  rewrite base_re_match_triple by assumption.
  rewrite normalise_triple.
  rewrite (map_fixed _ SemVer.is_rest_char)
    by (auto; intros c ->; reflexivity).
  destruct Hc as [<-|[<-|[]]]; cbn [append] in *;
    unfold SemVer.split_plus; rewrite Hp; cbn [Str.replace Str.nonempty];
    [apply (parse_tagged ma mi pa "a" n) | apply (parse_tagged ma mi pa "rc" n)];
    simpl; auto.
Qed.

Lemma triple_chars (ma mi pa : N) :
  Str.all (fun c => Str.is_digit c || Ascii.eqb c ".") (triple ma mi pa)
  = true.
Proof.
  unfold triple. rewrite !all_append.
  rewrite !(all_impl Str.is_digit _ (Str.of_int _))
    by (auto using of_int_digits; intros c ->; reflexivity).
  reflexivity.
Qed.

Lemma Version_str_final (ma mi pa : N) :
  Version_str (mkVersion ma mi pa [] []) = triple ma mi pa.
Proof.
  unfold Version_str, SemVer.to_string. cbn -[Str.remove Str.of_int].
  rewrite !append_nil_r.
  apply (remove_absent _ _ _ (eq_refl : _ "-"%char = false)
           (triple_chars ma mi pa)).
Qed.

Lemma Version_str_tagged (ma mi pa : N) (code : string) (n : N) :
  In code ["a"; "rc"] ->
  Version_str (mkVersion ma mi pa [code ++ Str.of_int n] [])
  = triple ma mi pa ++ code ++ Str.of_int n.
Proof.
  intros Hc. destruct (tag_facts code n Hc) as (_ & _ & _ & _ & _ & _ & Hr).
  unfold Version_str, SemVer.to_string.
  cbn -[Str.remove Str.of_int append].
  rewrite append_nil_r.
  change (Str.of_int ma ++ "." ++ Str.of_int mi ++ "." ++ Str.of_int pa
          ++ "-" ++ code ++ Str.of_int n)
    with (Str.of_int ma ++ "." ++ Str.of_int mi ++ "."
          ++ Str.of_int pa ++ String "-" (code ++ Str.of_int n)).
  replace (Str.of_int ma ++ "." ++ Str.of_int mi ++ "."
           ++ Str.of_int pa ++ String "-" (code ++ Str.of_int n))
    with (triple ma mi pa ++ String "-" (code ++ Str.of_int n))
    by (unfold triple; now rewrite !append_assoc).
  rewrite remove_append. cbn [Str.remove Ascii.eqb Bool.eqb].
  rewrite Hr.
  now rewrite (remove_absent _ _ _ (eq_refl : _ "-"%char = false)
                 (triple_chars ma mi pa)).
Qed.

Import Re ReFacts.

Lemma lang_number (n : N) : lang (Plus digit) (Str.of_int n).
Proof. apply lang_plus_all; [apply of_int_nonempty | apply of_int_digits]. Qed.

Lemma lang_release (ma mi pa : N) :
  lang (Cat (Plus digit) (Star (Cat (Lit ".") (Plus digit))))
       (triple ma mi pa).
Proof.
  replace (triple ma mi pa)
    with (Str.of_int ma
          ++ ("." ++ Str.of_int mi) ++ ("." ++ Str.of_int pa) ++ "")
    by (unfold triple; now rewrite !append_assoc, append_nil_r).
  constructor; [apply lang_number|].
  constructor; [constructor; [apply lang_lit | apply lang_number]|].
  constructor; [constructor; [apply lang_lit | apply lang_number]|].
  constructor.
Qed.

(** A text [major.minor.patch] followed by an optional PEP 440
    pre-release is a PEP 440 version. *)
Lemma lang_version (ma mi pa : N) (pre : string) :
  lang (Opt (Seq [Pep440.sep; Pep440.pre_l; Pep440.sep; Opt (Plus digit)]))
       pre ->
  lang Pep440.version_regex (triple ma mi pa ++ pre).
Proof.
  intros Hpre.
  replace (triple ma mi pa ++ pre)
    with ("" ++ ("" ++ "" ++ triple ma mi pa ++ pre ++ "" ++ "" ++ "" ++ "")
          ++ "" ++ "")
    by (cbn [append]; now rewrite !append_nil_r).
  unfold Pep440.version_regex.
  apply lang_seq_cons; [constructor|].
  apply lang_seq_cons; [|apply lang_seq_cons; constructor].
  unfold Pep440.VERSION_PATTERN.
  apply lang_seq_cons; [apply lang_opt_none|].
  apply lang_seq_cons; [apply lang_opt_none|].
  apply lang_seq_cons; [apply lang_release|].
  apply lang_seq_cons; [exact Hpre|].
  apply lang_seq_cons; [apply lang_opt_none|].
  apply lang_seq_cons; [apply lang_opt_none|].
  apply lang_seq_cons; [apply lang_opt_none|].
  constructor.
Qed.

Lemma lang_tag (code : string) (n : N) :
  In code ["a"; "rc"] ->
  lang (Opt (Seq [Pep440.sep; Pep440.pre_l; Pep440.sep; Opt (Plus digit)]))
       (code ++ Str.of_int n).
Proof.
  intros Hc. apply lang_opt_some.
  replace (code ++ Str.of_int n)
    with ("" ++ code ++ "" ++ Str.of_int n ++ "")
    by (cbn [append]; now rewrite append_nil_r).
  apply lang_seq_cons; [apply lang_opt_none|].
  apply lang_seq_cons.
  - apply fullmatch_lang. destruct Hc as [<-|[<-|[]]]; reflexivity.
  - apply lang_seq_cons; [apply lang_opt_none|].
    apply lang_seq_cons; [apply lang_opt_some, lang_number | constructor].
Qed.

Lemma not_legacy_final (ma mi pa : N) :
  Pep440.is_legacy (triple ma mi pa) = false.
Proof.
  unfold Pep440.is_legacy. rewrite match_anchored_lang; [reflexivity|].
  rewrite <- (append_nil_r (triple ma mi pa)).
  apply lang_version, lang_opt_none.
Qed.

Lemma not_legacy_tagged (ma mi pa : N) (code : string) (n : N) :
  In code ["a"; "rc"] ->
  Pep440.is_legacy (triple ma mi pa ++ code ++ Str.of_int n) = false.
Proof.
  intros Hc. unfold Pep440.is_legacy.
  rewrite match_anchored_lang; [reflexivity|].
  now apply lang_version, lang_tag.
Qed.

Lemma validate_final (ma mi pa : N) :
  validate_version (triple ma mi pa) = Ret true.
Proof.
  unfold validate_version.
  now rewrite not_legacy_final, coerce_triple.
Qed.

Lemma validate_tagged (ma mi pa : N) (code : string) (n : N) :
  In code ["a"; "rc"] -> 1 <= n ->
  validate_version (triple ma mi pa ++ code ++ Str.of_int n) = Ret true.
Proof.
  intros Hc Hn. unfold validate_version.
  rewrite not_legacy_tagged, coerce_tagged by assumption.
  cbn [obind]. unfold is_prerelease_version. cbn [prerelease].
  rewrite Tag.match_tag by assumption. reflexivity.
Qed.

End RoundTrip.

Module Explicit.
Import StrFacts Numeral RoundTrip.

Lemma digit_differs (c d : ascii) :
  Str.is_digit c = true -> Str.is_digit d = false -> Ascii.eqb c d = false.
Proof.
  intros Hc Hd. destruct (Ascii.eqb_spec c d) as [->|_];
    [congruence | reflexivity].
Qed.

(** A text that begins with a digit is none of the bump keywords. *)
Lemma triple_not_keyword (ma mi pa : N) (s : string) :
  Str.mem (triple ma mi pa ++ s) ["major"; "minor"; "patch"; "alpha"; "rc"]
  = false.
Proof.
  unfold triple. pose proof (of_int_nonempty ma) as Hn.
  pose proof (of_int_digits ma) as Hd.
  destruct (Str.of_int ma) as [|c t]; [discriminate|].
  simpl in Hd. apply andb_true_iff in Hd as [Hc _].
  cbn [Str.mem existsb append String.eqb].
  now rewrite !(digit_differs c _ Hc) by reflexivity.
Qed.

(** The explicit branch of [parse_next_version]: no event, and the
    coerced version when the text validates. *)
Lemma parse_next_version_explicit (text : string) (w : World) :
  Str.mem text ["major"; "minor"; "patch"; "alpha"; "rc"] = false ->
  parse_next_version text w
  = (match validate_version text with
     | Ret true => SemVer.coerce text
     | Ret false => Raise InvalidVersionNumber
     | Exit c => Exit c
     | Raise e => Raise e
     end, []).
Proof.
  intros H. cbn [Str.mem existsb] in H.
  repeat (apply orb_false_iff in H as [? H]).
  unfold parse_next_version.
  cbn [Str.mem existsb PRERELEASE_FLAVORS].
  repeat match goal with E : String.eqb text _ = false |- _ =>
    rewrite E; clear E end.
  cbn [orb]. unfold bind, lift, raise.
  destruct (validate_version text) as [[|]|c|e]; reflexivity.
Qed.

Lemma canonical_text (v : Version) :
  canonical v ->
  Version_str v
  = triple (major v) (minor v) (patch v) ++ String.concat "" (prerelease v)
  /\ validate_version (Version_str v) = Ret true
  /\ SemVer.coerce (Version_str v) = Ret v.
Proof.
  destruct v as [ma mi pa pre bld]. unfold canonical, well_tagged. cbn.
  intros [-> [->|(code & n & Hc & Hn & ->)]].
  - rewrite Version_str_final. cbn [String.concat].
    rewrite append_nil_r.
    split; [reflexivity|]. split; [apply validate_final | apply coerce_triple].
  - rewrite Version_str_tagged by assumption. cbn [String.concat].
    split; [reflexivity|].
    split; [now apply validate_tagged | now apply coerce_tagged].
Qed.

Lemma canonical_explicit (v : Version) (w : World) :
  canonical v -> parse_next_version (Version_str v) w = (Ret v, []).
Proof.
  intros Hv. destruct (canonical_text v Hv) as (Ht & Hval & Hco).
  rewrite parse_next_version_explicit
    by (rewrite Ht; apply triple_not_keyword).
  now rewrite Hval, Hco.
Qed.

End Explicit.

(* ================================================================== *)
(** ** What an accepted explicit version looks like *)

Module Accepted.
Import StrFacts Numeral.

Lemma split_all p c (s : string) :
  Str.all p s = true ->
  Forall (fun i => Str.all p i = true) (Str.split c s).
Proof.
  induction s as [|x s IH]; simpl; intros H.
  - repeat constructor.
  - apply andb_true_iff in H as [Hx Hs]. specialize (IH Hs).
    destruct (Ascii.eqb x c); [constructor; [reflexivity | exact IH]|].
    destruct (Str.split c s) as [|piece pieces].
    + repeat constructor. simpl. now rewrite Hx.
    + inversion IH; subst. constructor; [|assumption].
      simpl. now rewrite Hx.
Qed.

Lemma optional_group_some (lead : ascii) (s g r : string) :
  SemVer.optional_group lead s = (Some g, r) ->
  Str.all SemVer.is_ident_char g = true.
Proof.
  unfold SemVer.optional_group. destruct s as [|c s]; [discriminate|].
  destruct (Ascii.eqb c lead); [|discriminate].
  destruct (Str.span SemVer.is_ident_char s) as [g' r'] eqn:E.
  apply span_spec in E as (_ & Hg & _).
  destruct (Str.nonempty g'); [|discriminate].
  intros H. now injection H as <- _.
Qed.

Lemma version_re_match_pre (s ma mi pa : string) (pre bld : option string) :
  SemVer.version_re_match s = Some (ma, mi, pa, pre, bld) ->
  match pre with
  | Some text => Str.all SemVer.is_ident_char text = true
  | None => True
  end.
Proof.
  unfold SemVer.version_re_match.
  destruct (Str.span Str.is_digit s) as [a r1].
  destruct r1 as [|c1 r1]; [discriminate|].
  destruct (Ascii.eqb_spec c1 ".") as [->|Hc1].
  2:{ destruct c1 as [[] [] [] [] [] [] [] []]; try discriminate;
      now contradiction Hc1. }
  destruct (Str.span Str.is_digit r1) as [b r2].
  destruct r2 as [|c2 r2]; [discriminate|].
  destruct (Ascii.eqb_spec c2 ".") as [->|Hc2].
  2:{ destruct c2 as [[] [] [] [] [] [] [] []]; try discriminate;
      now contradiction Hc2. }
  destruct (Str.span Str.is_digit r2) as [c r3].
  destruct (SemVer.optional_group "-" r3) as [pre' r4] eqn:E.
  destruct (SemVer.optional_group "+" r4) as [bld' r5].
  destruct (_ && _); [|discriminate].
  intros H. injection H as _ _ _ <- _.
  destruct pre' as [text|]; [|exact I].
  now apply optional_group_some in E.
Qed.

Lemma parse_idents (s : string) (v : Version) :
  SemVer.parse s = Ret v -> idents_ok (prerelease v).
Proof.
  unfold SemVer.parse. destruct (negb (Str.nonempty s)); [discriminate|].
  destruct (SemVer.version_re_match s) as [[[[[ma mi] pa] pre] bld]|] eqn:E;
    [|discriminate].
  apply version_re_match_pre in E.
  destruct (_ || _); [discriminate|].
  destruct (SemVer.int_of ma); try discriminate.
  destruct (SemVer.int_of mi); try discriminate.
  destruct (SemVer.int_of pa); try discriminate.
  cbn [obind]. unfold SemVer.of_parts.
  destruct (_ && _); [|discriminate].
  intros H. injection H as <-. cbn [prerelease].
  destruct pre as [text|]; [now apply split_all | constructor].
Qed.

Lemma coerce_idents (s : string) (v : Version) :
  SemVer.coerce s = Ret v -> idents_ok (prerelease v).
Proof.
  unfold SemVer.coerce.
  destruct (SemVer.base_re_match s) as [[matched rest]|]; [|discriminate].
  destruct rest as [|c rest]; [apply parse_idents|].
  match goal with
  | |- (let '(_, _) := ?E in _) = _ -> _ => destruct E as [pre bld]
  end.
  apply parse_idents.
Qed.

(** An explicit text that validates has no prerelease, or exactly one
    prerelease tag: a flavor code and a counter that is at least 1. *)
Lemma accepted_shape (text : string) (v : Version) :
  validate_version text = Ret true -> SemVer.coerce text = Ret v ->
  well_tagged v.
Proof.
  unfold validate_version, well_tagged. intros Hval Hco.
  destruct (Pep440.is_legacy text); [discriminate|].
  rewrite Hco in Hval. cbn [obind] in Hval.
  apply coerce_idents in Hco.
  injection Hval as Hval. apply orb_true_iff in Hval as [H|H].
  - left. unfold SemVer.has_prerelease in H.
    now destruct (prerelease v).
  - right. unfold is_prerelease_version in H.
    destruct (prerelease v) as [|segment [|? ?]]; try discriminate.
    destruct (PRERELEASE_VERSION_PATTERN_match segment) as [[code ds]|] eqn:E;
      [|discriminate].
    apply Tag.match_some in E as (Hc & (d & ds' & -> & Hz) & Hd & Hs).
    destruct (digits_are_numeral d ds' Hd Hz) as (n & Hn & En).
    exists code, n. rewrite <- En.
    destruct Hs as [->| ->]; [auto|].
    exfalso. apply Forall_inv in Hco.
    rewrite !all_append in Hco.
    apply andb_true_iff in Hco as [_ Hco].
    apply andb_true_iff in Hco as [_ Hco].
    vm_compute in Hco. discriminate Hco.
Qed.

End Accepted.

(* ================================================================== *)
(** ** Runs of the script *)

Module Run.

Lemma bind_assoc {A B C} (m : M A) (k : A -> M B) (h : B -> M C) (w : World) :
  bind (bind m k) h w = bind m (fun a => bind (k a) h) w.
Proof.
  unfold bind. destruct (m w) as [[a|c|e] t]; try reflexivity.
  destruct (k a w) as [[b|c|e] t']; try reflexivity.
  destruct (h b w) as [o t'']. now rewrite app_assoc.
Qed.

Lemma bind_ret_l {A B} (a : A) (k : A -> M B) (w : World) :
  bind (ret a) k w = k a w.
Proof. unfold bind, ret. now destruct (k a w). Qed.

Lemma bind_cong {A B} (m : M A) (k k' : A -> M B) (w : World) :
  (forall a, k a w = k' a w) -> bind m k w = bind m k' w.
Proof.
  intros H. unfold bind. destruct (m w) as [[a|c|e] t]; try reflexivity.
  now rewrite H.
Qed.

(** When the first part returns, the run goes on with the second. *)
Lemma bind_returns {A B} (m : M A) (k : A -> M B) (w : World) a t :
  m w = (Ret a, t) ->
  bind m k w = (fst (k a w), (t ++ snd (k a w))%list).
Proof. intros H. unfold bind. rewrite H. now destruct (k a w). Qed.

(** When the first part exits or raises, the run ends there. *)
Lemma bind_stops {A B} (m : M A) (k : A -> M B) (w : World) o t :
  m w = (o, t) -> stopped o -> bind m k w = (carry o, t).
Proof.
  intros H Ho. unfold bind. rewrite H. now destruct o.
Qed.

Lemma bind_Ret_inv {A B} (m : M A) (k : A -> M B) (w : World) b t :
  bind m k w = (Ret b, t) ->
  exists a t1 t2,
    m w = (Ret a, t1) /\ k a w = (Ret b, t2) /\ t = (t1 ++ t2)%list.
Proof.
  unfold bind. destruct (m w) as [[a|c|e] t1]; try discriminate.
  destruct (k a w) as [o t2] eqn:E. intros H. injection H as -> <-.
  now exists a, t1, t2.
Qed.

Lemma traces_bind {A B} P (m : M A) (k : A -> M B) :
  traces P m -> (forall a, traces P (k a)) -> traces P (bind m k).
Proof.
  intros Hm Hk w. specialize (Hm w). unfold bind.
  destruct (m w) as [[a|c|e] t]; simpl in *; try assumption.
  specialize (Hk a w). destruct (k a w) as [o t']. simpl in *.
  apply Forall_app. now split.
Qed.

Lemma traces_ret {A} P (a : A) : traces P (ret a).
Proof. intros w. constructor. Qed.

Lemma traces_lift {A} P (o : outcome A) : traces P (lift o).
Proof. intros w. constructor. Qed.

Lemma traces_ask {A} P (f : World -> A) : traces P (ask f).
Proof. intros w. constructor. Qed.

Lemma traces_emit P (e : event) : P e -> traces P (emit e).
Proof. intros H w. now repeat constructor. Qed.

Lemma traces_check_call P (argv : list string) :
  P (CheckCall argv) -> traces P (check_call argv).
Proof.
  intros H w. unfold check_call.
  destruct (subprocess w argv); now repeat constructor.
Qed.

Lemma traces_check_output P (argv : list string) :
  P (CheckOutput argv) -> traces P (check_output argv).
Proof.
  intros H w. unfold check_output.
  destruct (subprocess w argv); now repeat constructor.
Qed.

Lemma traces_except {A} P (m handler : M A) :
  traces P m -> traces P handler ->
  traces P (except_called_process_error m handler).
Proof.
  intros Hm Hh w. specialize (Hm w). specialize (Hh w).
  unfold except_called_process_error.
  destruct (m w) as [[a|c|e] t]; simpl in *; try assumption.
  destruct e; simpl; try assumption.
  destruct (handler w) as [o t']. simpl in *.
  apply Forall_app. now split.
Qed.

(** Proves [traces P m] for a computation of the script by following
    its structure; [P] must hold of each event by computation. *)
Ltac follow :=
  repeat first
    [ apply traces_ret
    | apply traces_lift
    | apply traces_ask
    | apply traces_emit; reflexivity
    | apply traces_check_call; reflexivity
    | apply traces_check_output; reflexivity
    | apply traces_except
    | apply traces_bind; [|intros ?]
    | match goal with
      | |- traces _ (if ?b then _ else _) => destruct b
      | |- traces _ (match ?x with _ => _ end) => destruct x
      end
    | progress autounfold with script ].

End Run.

(* ================================================================== *)
(** ** [main] as a sequence of stages *)

Module Stage.
Import Run.
Local Open Scope py_scope.

Ltac reassociate :=
  repeat (repeat rewrite bind_assoc;
          try rewrite bind_ret_l;
          try (apply bind_cong; intros ?)).

(** [main] runs the stages one after the other. *)
Lemma main_stages (args : Namespace) (w : World) :
  main args w = (version <- changelog_generated args;; workflow version) w.
Proof.
  unfold changelog_generated, persisted, validated, confirmed,
    version_resolved, guards_checked, main, changelog_step, banner.
  reassociate. reflexivity.
Qed.

Lemma main_from_persisted (args : Namespace) (w : World) :
  main args w
  = (version <- persisted args;;
     changelog_step version;; workflow version) w.
Proof.
  rewrite main_stages. unfold changelog_generated.
  reassociate. reflexivity.
Qed.

Lemma main_from_validated (args : Namespace) (w : World) :
  main args w
  = (version <- validated args;;
     write_version_file version;;
     write_version_to_pyproject version;;
     changelog_step version;; workflow version) w.
Proof.
  rewrite main_from_persisted. unfold persisted.
  reassociate. reflexivity.
Qed.

Lemma main_from_confirmed (args : Namespace) (w : World) :
  main args w
  = (version <- confirmed args;;
     validate_code_is_release_ready version;;
     write_version_file version;;
     write_version_to_pyproject version;;
     changelog_step version;; workflow version) w.
Proof.
  rewrite main_from_validated. unfold validated.
  reassociate. reflexivity.
Qed.

Lemma main_from_resolved (args : Namespace) (w : World) :
  main args w
  = (version <- version_resolved args;;
     _ <- confirm_version version;;
     validate_code_is_release_ready version;;
     write_version_file version;;
     write_version_to_pyproject version;;
     changelog_step version;; workflow version) w.
Proof.
  rewrite main_from_confirmed. unfold confirmed.
  reassociate. reflexivity.
Qed.

Lemma main_from_guards (args : Namespace) (w : World) :
  main args w
  = (guards_checked;;
     version <- next_version args;;
     _ <- confirm_version version;;
     validate_code_is_release_ready version;;
     write_version_file version;;
     write_version_to_pyproject version;;
     changelog_step version;; workflow version) w.
Proof.
  rewrite main_from_resolved. unfold version_resolved.
  reassociate. reflexivity.
Qed.

End Stage.

(* ================================================================== *)
(** ** Events a stage cannot cause *)

Module Quiet.
Import Run.

Lemma guards_checked_quiet : traces quiet guards_checked.
Proof. unfold guards_checked. follow. Qed.

Lemma next_version_quiet args : traces quiet (next_version args).
Proof. follow. Qed.

Lemma confirm_version_quiet v : traces quiet (confirm_version v).
Proof. follow. Qed.

Lemma validate_quiet v : traces quiet (validate_code_is_release_ready v).
Proof. follow. Qed.

Lemma confirmed_quiet args : traces quiet (confirmed args).
Proof.
  unfold confirmed, version_resolved.
  apply traces_bind; [|intros v; apply traces_bind; [|intros _]].
  - apply traces_bind; [apply guards_checked_quiet|].
    intros _. apply next_version_quiet.
  - apply confirm_version_quiet.
  - apply traces_ret.
Qed.

Lemma validated_quiet args : traces quiet (validated args).
Proof.
  unfold validated.
  apply traces_bind; [|intros v; apply traces_bind; [|intros _]].
  - apply confirmed_quiet.
  - apply validate_quiet.
  - apply traces_ret.
Qed.

Lemma persisted_no_changelog args : traces no_changelog (persisted args).
Proof.
  unfold persisted, validated, confirmed, version_resolved, guards_checked.
  follow.
Qed.

Lemma workflow_no_changelog v : traces no_changelog (workflow v).
Proof. unfold workflow. follow. Qed.


End Quiet.

(* ================================================================== *)
(** ** The versions the script resolves *)

Module Resolved.
Import Run.



Lemma ret_inv {A} (a b : A) (w : World) (t : trace) :
  ret a w = (Ret b, t) -> a = b.
Proof. unfold ret. intros H. now injection H. Qed.

Lemma lift_inv {A} (o : outcome A) (b : A) (w : World) (t : trace) :
  lift o w = (Ret b, t) -> o = Ret b.
Proof. unfold lift. intros H. now injection H. Qed.






End Resolved.



(* ================================================================== *)
(** ** The changelog step *)

(** C7.  In a run that has written the version files, the changelog
    generator is called, with the resolved version, when that version has
    no prerelease, and is not called at all when it has one; and in any
    run, a call of the generator is that call for a version without
    prerelease. *)
Theorem changelog_only_for_final (args : Namespace) (w : World) :
  (forall v t0,
     persisted args w = (Ret v, t0) ->
     (prerelease v = [] ->
      exists t, snd (main args w)
                = (t0 ++ CheckCall ["towncrier"; "--yes"; "--version";
                                    Version_str v] :: t)%list)
     /\ (prerelease v <> [] ->
         Forall (fun e => changelog_call e = false) (snd (main args w))))
  /\ (forall e,
        In e (snd (main args w)) -> changelog_call e = true ->
        exists v t0,
          persisted args w = (Ret v, t0) /\ prerelease v = []
          /\ e = CheckCall ["towncrier"; "--yes"; "--version"; Version_str v]).
Proof.
  pose proof (Quiet.persisted_no_changelog args w) as Hp.
  split.
  - intros v t0 Hv. rewrite Hv in Hp. simpl in Hp.
    rewrite Stage.main_from_persisted, (Run.bind_returns _ _ _ _ _ Hv).
    cbn [snd]. unfold changelog_step, SemVer.has_prerelease.
    split; intros Hpre.
    + rewrite Hpre. cbn [negb]. unfold generate_changelog, bind, check_call.
      destruct (subprocess w _); [|eexists; reflexivity].
      destruct (workflow v w). eexists. reflexivity.
    + destruct (prerelease v); [contradiction|]. cbn [negb].
      rewrite Run.bind_ret_l. apply Forall_app. split; [exact Hp|].
      apply Quiet.workflow_no_changelog.
  - intros e Hin He. rewrite Stage.main_from_persisted in Hin.
    destruct (persisted args w) as [[v|c|x] t0] eqn:Hv; simpl in Hp.
    + rewrite (Run.bind_returns _ _ _ _ _ Hv) in Hin. cbn [snd] in Hin.
      apply in_app_or in Hin as [Hin|Hin].
      { rewrite Forall_forall in Hp. apply Hp in Hin.
        unfold no_changelog in Hin. congruence. }
      exists v, t0. split; [reflexivity|].
      unfold changelog_step, SemVer.has_prerelease in Hin.
      pose proof (Quiet.workflow_no_changelog v w) as Hw.
      rewrite Forall_forall in Hw.
      destruct (prerelease v); cbn [negb] in Hin.
      * split; [reflexivity|].
        unfold generate_changelog, bind, check_call in Hin.
        destruct (subprocess w _).
        -- destruct (workflow v w) as [o t]. simpl in Hin, Hw.
           destruct Hin as [<-|Hin]; [reflexivity|].
           apply Hw in Hin. unfold no_changelog in Hin. congruence.
        -- simpl in Hin. destruct Hin as [<-|[]]. reflexivity.
      * rewrite Run.bind_ret_l in Hin. apply Hw in Hin.
        unfold no_changelog in Hin. congruence.
    + rewrite (Run.bind_stops _ _ _ _ _ Hv I) in Hin. simpl in Hin.
      rewrite Forall_forall in Hp. apply Hp in Hin.
      unfold no_changelog in Hin. congruence.
    + rewrite (Run.bind_stops _ _ _ _ _ Hv I) in Hin. simpl in Hin.
      rewrite Forall_forall in Hp. apply Hp in Hin.
      unfold no_changelog in Hin. congruence.
Qed.

Lemma changelog_only_for_final_witness :
  (exists t0 t,
     snd (main (mkNamespace (Some "patch"))
               (sample_world "master" "2.4.0" "~2.4.0" []))
     = (t0 ++ CheckCall ["towncrier"; "--yes"; "--version"; "2.4.1"] :: t)%list)
  /\ Forall (fun e => changelog_call e = false)
       (snd (main (mkNamespace (Some "alpha"))
                  (sample_world "feature/x" "2.4.0" "~2.4.0" []))).
Proof.
  split.
  - pose (w := sample_world "master" "2.4.0" "~2.4.0" []).
    pose (args := mkNamespace (Some "patch")).
    assert (H : persisted args w
                = (Ret (mkVersion 2 4 1 [] []), snd (persisted args w)))
      by (vm_compute; reflexivity).
    destruct (proj1 (proj1 (changelog_only_for_final args w) _ _ H) eq_refl)
      as [t Ht].
    exists (snd (persisted args w)), t. exact Ht.
  - pose (w := sample_world "feature/x" "2.4.0" "~2.4.0" []).
    pose (args := mkNamespace (Some "alpha")).
    assert (H : persisted args w
                = (Ret (mkVersion 2 4 0 ["a1"] []), snd (persisted args w)))
      by (vm_compute; reflexivity).
    apply (proj2 (proj1 (changelog_only_for_final args w) _ _ H)).
    discriminate.
Defined.

(* ================================================================== *)
(** ** The choice of workflow *)

Module Workflow.
Import Run.

Lemma git_current_branch_run (w : World) :
  git_current_branch w = (Ret (current_branch w), [CheckOutput SYMBOLIC_REF]).
Proof.
  unfold git_current_branch, except_called_process_error, bind,
    check_output, current_branch, SYMBOLIC_REF.
  now destruct (subprocess w _).
Qed.

Lemma on_base_run (w : World) :
  git_current_branch_is_master_or_release w
  = (Ret (String.eqb (current_branch w) "master"
          || Re.match_anchored RELEASE_BRANCH_PATTERN (current_branch w)),
     [CheckOutput SYMBOLIC_REF]).
Proof.
  unfold git_current_branch_is_master_or_release.
  now rewrite (bind_returns _ _ _ _ _ (git_current_branch_run w)).
Qed.

Lemma workflow_unfold (v : Version) (w : World) :
  workflow v w
  = (let run :=
       if chooses_same_branch v w
       then (create_commit v;; push_changes;;
             print_done_message_same_branch v)%py w
       else (base <- git_current_branch;;
             branch <- create_release_branch v;;
             create_commit v;; push_changes;;
             print_done_message branch base v)%py w in
     (fst run, (test_queries v ++ snd run)%list)).
Proof.
  unfold workflow, chooses_same_branch, test_queries.
  destruct (is_alpha_version v).
  - rewrite bind_assoc, (bind_returns _ _ _ _ _ (on_base_run w)).
    rewrite bind_ret_l. cbn [fst snd andb].
    now destruct (negb _).
  - rewrite bind_ret_l. cbn [andb app].
    now destruct (bind _ _ w).
Qed.



End Workflow.



(* ================================================================== *)
(** ** The guards: clean working tree and paired dependency *)

Module Guard.
Import Run.

(** An event of a kind that does not occur in the first part of a
    trace lies in the second part. *)
Lemma split_after (P : event -> bool) (t0 r t1 t2 : trace) (e : event) :
  (t0 ++ r = t1 ++ e :: t2)%list ->
  Forall (fun x => P x = false) t0 -> P e = true ->
  exists t', t1 = (t0 ++ t')%list /\ r = (t' ++ e :: t2)%list.
Proof.
  revert t1. induction t0 as [|x t0 IH]; intros t1 H H0 He.
  - exists t1. now split.
  - inversion H0 as [|? ? Hx H0']; subst.
    destruct t1 as [|y t1]; simpl in H.
    + injection H as -> _. congruence.
    + injection H as -> H.
      destruct (IH t1 H H0' He) as (t' & -> & ->).
      now exists t'.
Qed.

Lemma guards_checked_run (w : World) :
  guards_checked w
  = match subprocess w DIFF_INDEX with
    | Some _ => (Ret tt, [Print banner; CheckCall DIFF_INDEX])
    | None => (Exit 1, [Print banner; CheckCall DIFF_INDEX;
                        Print dirty_message])
    end.
Proof.
  unfold guards_checked, ensure_clean_git, except_called_process_error,
    bind, check_call, print, emit, sys_exit, lift, DIFF_INDEX.
  now destruct (subprocess w _).
Qed.

Lemma validate_run (v : Version) (w : World) (raw : string) (sdk_v : Version) :
  pyproject w = PyprojectData (Some raw) ->
  SemVer.coerce (strip (drop_first raw)) = Ret sdk_v ->
  validate_code_is_release_ready v w
  = if (major sdk_v =? major v) && (minor sdk_v =? minor v)
    then (Ret tt, [TomlLoad])
    else (Exit 1, [TomlLoad; Print "";
                   Print (mismatch_message (strip (drop_first raw)) v);
                   Print ""]).
Proof.
  intros Hp Hc.
  unfold validate_code_is_release_ready, get_rasa_sdk_version, bind, emit,
    ask, lift, ret, print, sys_exit, mismatch_message.
  rewrite Hp, Hc. cbn [obind].
  now destruct (_ && _).
Qed.

Lemma get_rasa_sdk_version_run (w : World) (raw : string) :
  pyproject w = PyprojectData (Some raw) ->
  get_rasa_sdk_version w = (Ret (strip (drop_first raw)), [TomlLoad]).
Proof.
  intros Hp. unfold get_rasa_sdk_version, bind, emit, ask, ret.
  now rewrite Hp.
Qed.

(** The dependency check returns only when the paired dependency is
    declared, coerces to a version and has the target's major and
    minor. *)
Lemma validate_returns (v : Version) (w : World) (t : trace) :
  validate_code_is_release_ready v w = (Ret tt, t) ->
  exists raw sdk_v,
    pyproject w = PyprojectData (Some raw)
    /\ SemVer.coerce (strip (drop_first raw)) = Ret sdk_v
    /\ major sdk_v = major v /\ minor sdk_v = minor v
    /\ t = [TomlLoad].
Proof.
  destruct (pyproject w) as [| |[raw|]] eqn:Hp;
    try (unfold validate_code_is_release_ready, get_rasa_sdk_version,
           bind, emit, ask, raise, lift; rewrite Hp; discriminate).
  destruct (SemVer.coerce (strip (drop_first raw))) as [sdk_v|c|e] eqn:Hc.
  - rewrite (validate_run v w raw sdk_v Hp Hc).
    destruct (major sdk_v =? major v) eqn:E1;
      destruct (minor sdk_v =? minor v) eqn:E2; try discriminate.
    intros H. injection H as <-.
    apply N.eqb_eq in E1, E2. now exists raw, sdk_v.
  - unfold validate_code_is_release_ready, get_rasa_sdk_version,
      bind, emit, ask, raise, lift, ret. rewrite Hp, Hc. discriminate.
  - unfold validate_code_is_release_ready, get_rasa_sdk_version,
      bind, emit, ask, raise, lift, ret. rewrite Hp, Hc. discriminate.
Qed.

Lemma quiet_no_write (t : trace) :
  Forall quiet t -> Forall (fun e => metadata_write e = false) t.
Proof.
  apply Forall_impl. intros e. unfold quiet.
  destruct e; simpl; try reflexivity; discriminate.
Qed.

End Guard.

(** C9.  In every run the check of the working tree is the first
    interaction after the banner, and a dirty tree ends the run there, so
    no event of version resolution (a read of the version file, a prompt)
    occurs before the check or without its success; and every write of a
    metadata file comes after the dependency check has read the paired
    dependency and found its major and minor equal to the target's. *)
Theorem guards_come_first (args : Namespace) (w : World) :
  (exists t, snd (main args w) = Print banner :: CheckCall DIFF_INDEX :: t)
  /\ (subprocess w DIFF_INDEX = None ->
      main args w
      = (Exit 1, [Print banner; CheckCall DIFF_INDEX; Print dirty_message]))
  /\ (forall t1 e t2,
        snd (main args w) = (t1 ++ e :: t2)%list ->
        resolution_event e = true ->
        In (CheckCall DIFF_INDEX) t1 /\ subprocess w DIFF_INDEX <> None)
  /\ (forall t1 e t2,
        snd (main args w) = (t1 ++ e :: t2)%list ->
        metadata_write e = true ->
        exists v t0 t' sdk sdk_v,
          validated args w = (Ret v, t0) /\ t1 = (t0 ++ t')%list
          /\ In TomlLoad t0
          /\ get_rasa_sdk_version w = (Ret sdk, [TomlLoad])
          /\ SemVer.coerce sdk = Ret sdk_v
          /\ major sdk_v = major v /\ minor sdk_v = minor v).
Proof.
  assert (Hhead : match subprocess w DIFF_INDEX with
                  | Some _ => exists t,
                      snd (main args w)
                      = ([Print banner; CheckCall DIFF_INDEX] ++ t)%list
                  | None =>
                      main args w
                      = (Exit 1, [Print banner; CheckCall DIFF_INDEX;
                                  Print dirty_message])
                  end).
  { rewrite Stage.main_from_guards.
    pose proof (Guard.guards_checked_run w) as Hg.
    destruct (subprocess w DIFF_INDEX).
    - rewrite (Run.bind_returns _ _ _ _ _ Hg). eexists. reflexivity.
    - now rewrite (Run.bind_stops _ _ _ _ _ Hg I). }
  split; [|split; [|split]].
  - destruct (subprocess w DIFF_INDEX).
    + destruct Hhead as [t ->]. now exists t.
    + rewrite Hhead. eexists. reflexivity.
  - intros Hd. now rewrite Hd in Hhead.
  - intros t1 e t2 Ht He.
    destruct (subprocess w DIFF_INDEX).
    + destruct Hhead as [t Hm]. rewrite Hm in Ht.
      destruct (Guard.split_after resolution_event _ _ _ _ _ Ht)
        as (t' & -> & _); [repeat constructor | exact He |].
      split; [simpl; auto | discriminate].
    + rewrite Hhead in Ht. cbn [snd] in Ht. exfalso.
      change [Print banner; CheckCall DIFF_INDEX; Print dirty_message]
        with ([Print banner; CheckCall DIFF_INDEX; Print dirty_message]
              ++ [])%list in Ht.
      destruct (Guard.split_after resolution_event _ _ _ _ _ Ht)
        as (t' & _ & Hnil); [repeat constructor | exact He |].
      now destruct t'.
  - intros t1 e t2 Ht He.
    rewrite Stage.main_from_validated in Ht.
    pose proof (Guard.quiet_no_write _ (Quiet.validated_quiet args w)) as Hq.
    destruct (validated args w) as [[v|c|x] t0] eqn:Hv; cbn [snd] in Hq.
    + rewrite (Run.bind_returns _ _ _ _ _ Hv) in Ht. cbn [snd] in Ht.
      destruct (Guard.split_after metadata_write _ _ _ _ _ Ht Hq He)
        as (t' & -> & _).
      unfold validated in Hv.
      apply Run.bind_Ret_inv in Hv as (v' & tc & tv & Hc & Hv & ->).
      apply Run.bind_Ret_inv in Hv as ([] & tv' & tr & Hval & Hr & ->).
      injection Hr as <- <-.
      apply Guard.validate_returns in Hval
        as (raw & sdk_v & Hp & Hco & Hma & Hmi & ->).
      exists v', (tc ++ [TomlLoad] ++ [])%list, t', (strip (drop_first raw)),
        sdk_v.
      repeat split; auto.
      * apply in_or_app. right. simpl. auto.
      * now apply Guard.get_rasa_sdk_version_run.
    + rewrite (Run.bind_stops _ _ _ _ _ Hv I) in Ht. cbn [snd] in Ht.
      subst t0. apply Forall_app in Hq as [_ Hq].
      apply Forall_inv in Hq. congruence.
    + rewrite (Run.bind_stops _ _ _ _ _ Hv I) in Ht. cbn [snd] in Ht.
      subst t0. apply Forall_app in Hq as [_ Hq].
      apply Forall_inv in Hq. congruence.
Qed.

Lemma guards_come_first_witness :
  main (mkNamespace (Some "patch")) dirty_world
  = (Exit 1, [Print banner; CheckCall DIFF_INDEX; Print dirty_message]).
Proof.
  exact (proj1 (proj2 (guards_come_first (mkNamespace (Some "patch"))
                         dirty_world)) eq_refl).
Defined.

(** C6.  When the paired dependency is declared and coerces to a
    version, the dependency check ends the run with exit status 1 exactly
    when the dependency's major or minor differs from the target's, and
    returns exactly when both are equal, whatever the patch and prerelease
    are; a run that fails this check has changed nothing. *)
Theorem dependency_check (v : Version) (w : World) (raw : string)
    (sdk_v : Version) :
  pyproject w = PyprojectData (Some raw) ->
  SemVer.coerce (strip (drop_first raw)) = Ret sdk_v ->
  (fst (validate_code_is_release_ready v w) = Exit 1
   <-> major sdk_v <> major v \/ minor sdk_v <> minor v)
  /\ (fst (validate_code_is_release_ready v w) = Ret tt
      <-> major sdk_v = major v /\ minor sdk_v = minor v)
  /\ (forall args t0,
        confirmed args w = (Ret v, t0) ->
        major sdk_v <> major v \/ minor sdk_v <> minor v ->
        fst (main args w) = Exit 1
        /\ Forall (fun e => mutating e = false) (snd (main args w))).
Proof.
  intros Hp Hc. pose proof (Guard.validate_run v w raw sdk_v Hp Hc) as Hrun.
  destruct (N.eqb_spec (major sdk_v) (major v)) as [Ema|Ema];
    destruct (N.eqb_spec (minor sdk_v) (minor v)) as [Emi|Emi];
    cbn [andb] in Hrun; rewrite Hrun; cbn [fst].
  1: { split; [|split].
       - split; [discriminate | intros [H|H]; contradiction].
       - split; auto.
       - intros args t0 _ [H|H]; contradiction. }
  all: split; [|split];
    [ split; auto
    | split; [discriminate | intros [? ?]; contradiction]
    | intros args t0 Hconf _;
      rewrite Stage.main_from_confirmed, (Run.bind_returns _ _ _ _ _ Hconf);
      rewrite (Run.bind_stops _ _ _ _ _ Hrun I); cbn [fst snd carry];
      split; [reflexivity|];
      pose proof (Quiet.confirmed_quiet args w) as Hq;
      rewrite Hconf in Hq; cbn [snd] in Hq;
      apply Forall_app; split; [exact Hq | repeat constructor] ].
Qed.

Lemma dependency_check_witness :
  fst (main (mkNamespace (Some "2.4.1"))
            (sample_world "master" "2.4.0" "~2.3.5" [])) = Exit 1
  /\ Forall (fun e => mutating e = false)
       (snd (main (mkNamespace (Some "2.4.1"))
                  (sample_world "master" "2.4.0" "~2.3.5" []))).
Proof.
  pose (w := sample_world "master" "2.4.0" "~2.3.5" []).
  pose (args := mkNamespace (Some "2.4.1")).
  assert (H : confirmed args w
              = (Ret (mkVersion 2 4 1 [] []), snd (confirmed args w)))
    by (vm_compute; reflexivity).
  apply (proj2 (proj2 (dependency_check (mkVersion 2 4 1 [] []) w "~2.3.5"
                         (mkVersion 2 3 5 [] []) eq_refl eq_refl))
           args _ H).
  right. discriminate.
Defined.

(* ================================================================== *)
(** ** Confirmation of the target version *)

Module ConfirmFacts.

Lemma confirm_version_run (v : Version) (w : World) (tags current : string) :
  subprocess w ["git"; "tag"] = Some tags ->
  version_file w = Some current ->
  let tagged := Str.mem (Version_str v) (Str.split newline tags) in
  let asked :=
    (CheckOutput ["git"; "tag"]
     :: (if tagged then [] else [ReadVersionFile])
     ++ [confirm_question v tagged current])%list in
  confirm_version v w
  = match confirm_answer w with
    | Some true => (Ret true, asked)
    | _ => (Exit 1, (asked ++ [Print "Aborting."])%list)
    end.
Proof.
  intros Ht Hf. cbv zeta.
  unfold confirm_version, git_existing_tags, get_current_version,
    confirm_question, bind, check_output, emit, ask, ret, print, sys_exit,
    lift.
  rewrite Ht. cbn [fst snd app].
  destruct (Str.mem _ _).
  - now destruct (confirm_answer w) as [[|]|].
  - rewrite Hf. now destruct (confirm_answer w) as [[|]|].
Qed.

End ConfirmFacts.

(** C8, as the code has it.  When [git tag] answers and the version file
    is readable, [confirm_version] asks the overwrite question with
    default [False] if the formatted target is among the tags, and
    otherwise the proceed question with default [True].  On acceptance it
    returns [True]; when the user declines or cancels it never returns
    [False]: it prints "Aborting." and exits with status 1 itself, so the
    run ends with a non-zero exit and has changed nothing. *)
Theorem confirm_version_behaviour (v : Version) (w : World)
    (tags current : string) :
  subprocess w ["git"; "tag"] = Some tags ->
  version_file w = Some current ->
  let tagged := Str.mem (Version_str v) (Str.split newline tags) in
  let asked :=
    (CheckOutput ["git"; "tag"]
     :: (if tagged then [] else [ReadVersionFile])
     ++ [confirm_question v tagged current])%list in
  (confirm_answer w = Some true -> confirm_version v w = (Ret true, asked))
  /\ (confirm_answer w <> Some true ->
      confirm_version v w = (Exit 1, (asked ++ [Print "Aborting."])%list))
  /\ (forall t, confirm_version v w <> (Ret false, t))
  /\ (confirm_answer w <> Some true ->
      forall args t0,
        version_resolved args w = (Ret v, t0) ->
        fst (main args w) = Exit 1
        /\ Forall (fun e => mutating e = false) (snd (main args w))).
Proof.
  intros Ht Hf. cbv zeta.
  pose proof (ConfirmFacts.confirm_version_run v w tags current Ht Hf) as Hrun.
  cbv zeta in Hrun.
  split; [|split; [|split]].
  - intros Ha. now rewrite Ha in Hrun.
  - intros Ha. destruct (confirm_answer w) as [[|]|]; congruence.
  - intros t. rewrite Hrun.
    destruct (confirm_answer w) as [[|]|]; discriminate.
  - intros Ha args t0 Hres.
    assert (Hexit : exists t, confirm_version v w = (Exit 1, t)).
    { destruct (confirm_answer w) as [[|]|]; try congruence; eauto. }
    destruct Hexit as [t Hexit].
    rewrite Stage.main_from_resolved, (Run.bind_returns _ _ _ _ _ Hres).
    rewrite (Run.bind_stops _ _ _ _ _ Hexit I). cbn [fst snd carry].
    split; [reflexivity|].
    apply Forall_app. split.
    + pose proof (Run.traces_bind quiet _ _ Quiet.guards_checked_quiet
                    (fun _ => Quiet.next_version_quiet args) w) as Hq.
      fold (version_resolved args) in Hq. now rewrite Hres in Hq.
    + pose proof (Quiet.confirm_version_quiet v w) as Hq.
      now rewrite Hexit in Hq.
Qed.

Lemma confirm_version_behaviour_witness :
  confirm_version (mkVersion 2 4 0 [] [])
    (answering (Some false) (sample_world "master" "2.3.9" "~2.4.0" []))
  = (Exit 1,
     [CheckOutput ["git"; "tag"];
      Confirm "Tag with version '2.4.0' already exists, overwrite?" false;
      Print "Aborting."]).
Proof.
  apply (proj1 (proj2 (confirm_version_behaviour (mkVersion 2 4 0 [] [])
           (answering (Some false) (sample_world "master" "2.3.9" "~2.4.0" []))
           ("2.3.0" ++ nl ++ "2.4.0" ++ nl) "2.3.9" eq_refl eq_refl))).
  discriminate.
Defined.

(** C8, as the claim states it, fails: declining does not make
    [confirm_version] return [False]; the call exits. *)
Lemma confirm_version_declined_exits :
  fst (confirm_version (mkVersion 2 4 1 [] [])
         (answering (Some false) (sample_world "master" "2.4.0" "~2.4.0" [])))
  = Exit 1.
Proof. reflexivity. Qed.

(* ================================================================== *)
(** ** The interactive prompt and its three-way choice *)

Module Prompt.
Import Run.

Lemma first_valid_some validate (typed : list string) (text : string) :
  first_valid validate typed = Ret (Some text) ->
  validate text = Ret true /\ In text typed.
Proof.
  induction typed as [|x typed IH]; simpl; [discriminate|].
  destruct (validate x) as [[|]|c|e] eqn:E; try discriminate.
  - intros H. injection H as <-. auto.
  - intros H. destruct (IH H). auto.
Qed.

Lemma valid_nonempty (text : string) :
  is_valid_version_number text = Ret true -> Str.nonempty text = true.
Proof. destruct text; [discriminate | reflexivity]. Qed.

Lemma mem_flavors (text : string) :
  Str.mem text PRERELEASE_FLAVORS = true <-> In text PRERELEASE_FLAVORS.
Proof.
  unfold Str.mem. rewrite existsb_exists. split.
  - intros (x & Hx & E). apply String.eqb_eq in E. now subst.
  - intros H. exists text. split; [assumption | apply String.eqb_refl].
Qed.

(** The prompt, up to the answer the validator lets through. *)
Lemma prompt_run (w : World) (current answer : string)
    (cur_v next_alpha : Version) :
  version_file w = Some current ->
  SemVer.coerce current = Ret cur_v ->
  next_prerelease cur_v "alpha" = Ret next_alpha ->
  first_valid is_valid_version_number (text_input w) = Ret (Some answer) ->
  ask_version w
  = (let rest :=
       (version <-
          (if Str.mem answer PRERELEASE_FLAVORS
              && negb (SemVer.has_prerelease cur_v)
           then
             c1 <- lift (next_prerelease (SemVer.next_minor cur_v) answer);;
             c2 <- lift (next_prerelease (SemVer.next_patch cur_v) answer);;
             c3 <- lift (next_prerelease (SemVer.next_major cur_v) answer);;
             questionary_select
               ("Which " ++ answer ++ " do you want to release?")
               [Version_str c1; Version_str c2; Version_str c3]
           else ret (Some answer));;
        match version with
        | Some text => if Str.nonempty text then ret text
                       else print "Aborting.";; sys_exit 1
        | None => print "Aborting.";; sys_exit 1
        end)%py w in
     (fst rest,
      ([ReadVersionFile; AskText (version_question cur_v next_alpha)]
       ++ snd rest)%list)).
Proof.
  intros Hf Hc Ha Ht. unfold ask_version.
  assert (Hg : get_current_version w = (Ret current, [ReadVersionFile])).
  { unfold get_current_version, bind, emit, ask, ret. now rewrite Hf. }
  rewrite (bind_returns _ _ _ _ _ Hg).
  assert (Hl : lift (SemVer.coerce current) w = (Ret cur_v, []))
    by (unfold lift; now rewrite Hc).
  rewrite (bind_returns _ _ _ _ _ Hl).
  assert (Hn : lift (next_prerelease cur_v "alpha") w = (Ret next_alpha, []))
    by (unfold lift; now rewrite Ha).
  rewrite (bind_returns _ _ _ _ _ Hn).
  assert (Hq : questionary_text (version_question cur_v next_alpha)
                 is_valid_version_number w
               = (Ret (Some answer),
                  [AskText (version_question cur_v next_alpha)])).
  { unfold questionary_text, bind, emit, ask, lift. now rewrite Ht. }
  fold (version_question cur_v next_alpha).
  rewrite (bind_returns _ _ _ _ _ Hq).
  cbn [fst snd app]. reflexivity.
Qed.

End Prompt.

Module Choice.
Import Run Prompt.

Lemma parse_next_version_no_select (text : string) :
  traces (fun e => is_select e = false) (parse_next_version text).
Proof. follow. Qed.

Lemma get_current_version_run (w : World) (current : string) :
  version_file w = Some current ->
  get_current_version w = (Ret current, [ReadVersionFile]).
Proof.
  intros Hf. unfold get_current_version, bind, emit, ask, ret.
  now rewrite Hf.
Qed.

(** A flavor directive is resolved from the current version. *)
Lemma parse_flavor (w : World) (current flavor : string) (cur_v : Version) :
  version_file w = Some current ->
  SemVer.coerce current = Ret cur_v ->
  In flavor PRERELEASE_FLAVORS ->
  parse_next_version flavor w
  = (next_prerelease cur_v flavor, [ReadVersionFile]).
Proof.
  intros Hf Hc Hin.
  assert (E : parse_next_version flavor w
              = (current <- get_current_version;;
                 v <- lift (SemVer.coerce current);;
                 lift (next_prerelease v flavor))%py w)
    by (destruct Hin as [<-|[<-|[]]]; reflexivity).
  rewrite E, (bind_returns _ _ _ _ _ (get_current_version_run w _ Hf)).
  unfold bind, lift. rewrite Hc. reflexivity.
Qed.

End Choice.

(** C4, as the code has it.  At the interactive prompt, with a readable
    current version and a typed answer the validator accepts, the
    three-way choice is presented exactly when the answer is [alpha] or
    [rc] and the current version carries no prerelease at all: its
    choices are, in this order, the next minor, the next patch and the
    next major version, each with the first prerelease of the requested
    flavor.  In every other case nothing is selected; in particular, when
    the current version already carries a prerelease (of the same or of
    the other flavor), the directive is resolved directly by
    [next_prerelease].  A directive given on the command line never leads
    to the choice. *)
Theorem prerelease_choice (w : World) (current answer : string)
    (cur_v next_alpha : Version) :
  version_file w = Some current ->
  SemVer.coerce current = Ret cur_v ->
  next_prerelease cur_v "alpha" = Ret next_alpha ->
  first_valid is_valid_version_number (text_input w) = Ret (Some answer) ->
  let asked := [ReadVersionFile; AskText (version_question cur_v next_alpha)] in
  (forall code,
     In (answer, code) PRERELEASE_FLAVOR_CODES -> prerelease cur_v = [] ->
     exists t,
       snd (ask_version w)
       = (asked
          ++ Select ("Which " ++ answer ++ " do you want to release?")
               [Version_str (first_prerelease (SemVer.next_minor cur_v) code);
                Version_str (first_prerelease (SemVer.next_patch cur_v) code);
                Version_str (first_prerelease (SemVer.next_major cur_v) code)]
          :: t)%list
       /\ Forall (fun e => is_select e = false) t)
  /\ (~ (In answer PRERELEASE_FLAVORS /\ prerelease cur_v = []) ->
      ask_version w = (Ret answer, asked))
  /\ (In answer PRERELEASE_FLAVORS -> prerelease cur_v <> [] ->
      next_version (mkNamespace None) w
      = (next_prerelease cur_v answer, (asked ++ [ReadVersionFile])%list))
  /\ (forall text,
        Str.nonempty text = true ->
        Forall (fun e => is_select e = false)
          (snd (next_version (mkNamespace (Some text)) w))).
Proof.
  intros Hf Hc Ha Ht. cbv zeta.
  pose proof (Prompt.prompt_run w current answer cur_v next_alpha Hf Hc Ha Ht)
    as Hrun. cbv zeta in Hrun.
  destruct (Prompt.first_valid_some _ _ _ Ht) as [Hvalid _].
  apply Prompt.valid_nonempty in Hvalid.
  assert (Hdirect : ~ (In answer PRERELEASE_FLAVORS /\ prerelease cur_v = []) ->
                    ask_version w
                    = (Ret answer,
                       [ReadVersionFile;
                        AskText (version_question cur_v next_alpha)])).
  { intros Hno. rewrite Hrun.
    assert (E : Str.mem answer PRERELEASE_FLAVORS
                && negb (SemVer.has_prerelease cur_v) = false).
    { destruct (Str.mem answer PRERELEASE_FLAVORS) eqn:Em; [|reflexivity].
      apply Prompt.mem_flavors in Em. unfold SemVer.has_prerelease.
      destruct (prerelease cur_v); [|reflexivity].
      exfalso. apply Hno. now split. }
    rewrite E, Run.bind_ret_l, Hvalid. reflexivity. }
  split; [|split; [|split]].
  - intros code Hcode Hpre.
    destruct (Tag.flavor_code _ _ Hcode) as (_ & Hin & _).
    destruct (Tag.next_has_no_prerelease cur_v) as (P1 & P2 & P3).
    pose proof (Tag.next_prerelease_fresh _ _ _ Hcode P1) as C1.
    pose proof (Tag.next_prerelease_fresh _ _ _ Hcode P2) as C2.
    pose proof (Tag.next_prerelease_fresh _ _ _ Hcode P3) as C3.
    fold (first_prerelease (SemVer.next_minor cur_v) code) in C1.
    fold (first_prerelease (SemVer.next_patch cur_v) code) in C2.
    fold (first_prerelease (SemVer.next_major cur_v) code) in C3.
    rewrite Hrun.
    rewrite (proj2 (Prompt.mem_flavors answer) Hin).
    unfold SemVer.has_prerelease at 1 2. rewrite Hpre. cbn [negb andb].
    rewrite C1, C2, C3.
    unfold questionary_select, bind, lift, emit, ask, ret, print, sys_exit.
    cbn [fst snd app].
    destruct (select_answer w) as [i|].
    + destruct (nth_error _ i) as [choice|].
      * destruct (Str.nonempty choice); cbn [fst snd app];
          eexists; (split; [reflexivity | repeat constructor]).
      * cbn [fst snd app].
        eexists; (split; [reflexivity | repeat constructor]).
    + cbn [fst snd app]. eexists; (split; [reflexivity | repeat constructor]).
  - exact Hdirect.
  - intros Hin Hpre. unfold next_version. cbn [next_version_arg].
    rewrite (Run.bind_returns _ _ _ _ _ (Hdirect (fun H => Hpre (proj2 H)))).
    now rewrite (Choice.parse_flavor w current answer cur_v Hf Hc Hin).
  - intros text Hn. unfold next_version. cbn [next_version_arg].
    rewrite Hn. apply Choice.parse_next_version_no_select.
Qed.

Lemma prerelease_choice_witness :
  next_version (mkNamespace None)
    (sample_world "feature/x" "2.4.1a2" "~2.4.0" ["rc"])
  = (Ret (mkVersion 2 4 1 ["rc3"] []),
     [ReadVersionFile;
      AskText (version_question (mkVersion 2 4 1 ["a2"] [])
                 (mkVersion 2 4 1 ["a3"] []));
      ReadVersionFile]).
Proof.
  apply (proj1 (proj2 (proj2
           (prerelease_choice
              (sample_world "feature/x" "2.4.1a2" "~2.4.0" ["rc"])
              "2.4.1a2" "rc" (mkVersion 2 4 1 ["a2"] [])
              (mkVersion 2 4 1 ["a3"] []) eq_refl eq_refl eq_refl eq_refl)))).
  - simpl. auto.
  - discriminate.
Defined.

(** C4, as the claim states it, fails in both directions: with current
    version [2.4.1a2] the answer [rc] (a different flavor) is resolved
    directly to [2.4.1rc3] and no choice is presented, while with current
    version [2.4.0] (no prerelease) the answer [rc] presents the choice. *)
Lemma prerelease_choice_counterexample :
  (fst (next_version (mkNamespace None)
          (sample_world "feature/x" "2.4.1a2" "~2.4.0" ["rc"]))
   = Ret (mkVersion 2 4 1 ["rc3"] [])
   /\ forallb (fun e => negb (is_select e))
        (snd (next_version (mkNamespace None)
                (sample_world "feature/x" "2.4.1a2" "~2.4.0" ["rc"])))
      = true)
  /\ existsb is_select
       (snd (next_version (mkNamespace None)
               (sample_world "feature/x" "2.4.0" "~2.4.0" ["rc"])))
     = true.
Proof. vm_compute. repeat split. Qed.

(* ================================================================== *)
(** ** Explicit version directives *)




(* ================================================================== *)
(** ** Scenarios *)

(** Current version 2.4.0, directive [patch], on [master]: the version
    resolves to 2.4.1, the changelog is generated and the release branch
    [prepare-release-2.4.1] is created. *)
Example scenario_patch_release :
  let run := main (mkNamespace (Some "patch"))
               (sample_world "master" "2.4.0" "~2.4.0" []) in
  fst run = Ret tt
  /\ In (TomlDump "2.4.1") (snd run)
  /\ In (CheckCall ["towncrier"; "--yes"; "--version"; "2.4.1"]) (snd run)
  /\ In (CheckCall ["git"; "checkout"; "-b"; "prepare-release-2.4.1"]) (snd run).
Proof. vm_compute. tauto. Qed.

(** Current version 2.4.1a1, directive [alpha]: 2.4.1a2. *)
Example scenario_alpha_again :
  SemVer.coerce "2.4.1a1" = Ret (mkVersion 2 4 1 ["a1"] [])
  /\ next_prerelease (mkVersion 2 4 1 ["a1"] []) "alpha"
     = Ret (mkVersion 2 4 1 ["a2"] [])
  /\ Version_str (mkVersion 2 4 1 ["a2"] []) = "2.4.1a2".
Proof. vm_compute. tauto. Qed.

(** Current version 2.4.1a2, directive [rc]: 2.4.1rc3. *)
Example scenario_alpha_to_rc :
  fst (parse_next_version "rc" (sample_world "master" "2.4.1a2" "~2.4.0" []))
  = Ret (mkVersion 2 4 1 ["rc3"] [])
  /\ Version_str (mkVersion 2 4 1 ["rc3"] []) = "2.4.1rc3".
Proof. vm_compute. tauto. Qed.

(** The dependency declares 2.3.5 and the target is 2.4.1: the run exits
    with status 1 before anything is written. *)
Example scenario_dependency_mismatch :
  let run := main (mkNamespace (Some "2.4.1"))
               (sample_world "master" "2.4.0" "~2.3.5" []) in
  fst run = Exit 1 /\ forallb (fun e => negb (mutating e)) (snd run) = true.
Proof. vm_compute. tauto. Qed.

(** Outside the specification's data model: an explicit text may carry a
    build tag, and [Version.__str__] removes the hyphens of a build tag
    too, so such a version is not read back from its text. *)
Remark hyphenated_build_tag :
  validate_version "2.4.1+a-b" = Ret true
  /\ SemVer.coerce "2.4.1+a-b" = Ret (mkVersion 2 4 1 [] ["a-b"])
  /\ Version_str (mkVersion 2 4 1 [] ["a-b"]) = "2.4.1+ab"
  /\ SemVer.coerce "2.4.1+ab" = Ret (mkVersion 2 4 1 [] ["ab"]).
Proof. vm_compute. tauto. Qed.

(* ================================================================== *)
(** * Further properties of the script *)

(* ================================================================== *)
(** ** Prerelease bumps *)

Module Bump.
Import StrFacts Numeral.

Lemma dict_get_entry (flavor code : string) :
  dict_get PRERELEASE_FLAVOR_CODES flavor = Some code ->
  In (flavor, code) PRERELEASE_FLAVOR_CODES.
Proof.
  unfold PRERELEASE_FLAVOR_CODES. cbn [dict_get].
  destruct (String.eqb_spec "alpha" flavor) as [<-|_];
    [intros H; injection H as <-; simpl; auto|].
  destruct (String.eqb_spec "rc" flavor) as [<-|_];
    [intros H; injection H as <-; simpl; auto|].
  discriminate.
Qed.

(** What [next_prerelease] returns, when it returns. *)
Lemma next_prerelease_inv (v v' : Version) (flavor : string) :
  next_prerelease v flavor = Ret v' ->
  exists code n,
    In (flavor, code) PRERELEASE_FLAVOR_CODES /\ 1 <= n
    /\ v' = mkVersion (major v) (minor v) (patch v) [code ++ Str.of_int n] [].
Proof.
  unfold next_prerelease.
  destruct (match prerelease v with [] => _ | _ => _ end) as [n0|c|e];
    try discriminate.
  cbn [obind].
  destruct (dict_get PRERELEASE_FLAVOR_CODES flavor) as [code|] eqn:Hd;
    [|discriminate].
  apply dict_get_entry in Hd. cbn [obind].
  rewrite Tag.of_parts_tag by (now apply Tag.flavor_code in Hd).
  intros H. injection H as <-. exists code, (n0 + 1).
  repeat split; [assumption | lia].
Qed.

Lemma code_is_a (flavor code : string) :
  In (flavor, code) PRERELEASE_FLAVOR_CODES ->
  (String.eqb code "a" = true <-> flavor = "alpha").
Proof.
  intros [H|[H|[]]]; injection H as <- <-; split; try reflexivity;
    discriminate.
Qed.

End Bump.

(** X1.  Whatever [next_prerelease] returns is a version the script
    itself accepts: it has no build tag and exactly one prerelease tag
    that [is_prerelease_version] recognises, its text validates and is
    read back as the same version, and [is_alpha_version] holds of it
    exactly when the requested flavor was [alpha]. *)
Theorem next_prerelease_result_valid (v v' : Version) (flavor : string) :
  next_prerelease v flavor = Ret v' ->
  major v' = major v /\ minor v' = minor v /\ patch v' = patch v
  /\ build v' = []
  /\ is_prerelease_version v' = true
  /\ validate_version (Version_str v') = Ret true
  /\ SemVer.coerce (Version_str v') = Ret v'
  /\ (is_alpha_version v' = true <-> flavor = "alpha").
Proof.
  intros H. apply Bump.next_prerelease_inv in H as (code & n & Hc & Hn & ->).
  destruct (Tag.flavor_code _ _ Hc) as (_ & _ & Hcode).
  assert (Hcan : canonical (mkVersion (major v) (minor v) (patch v)
                              [code ++ Str.of_int n] [])).
  { split; [reflexivity|]. right. now exists code, n. }
  destruct (Explicit.canonical_text _ Hcan) as (_ & Hval & Hco).
  cbn [major minor patch build].
  repeat split; try assumption.
  - unfold is_prerelease_version. cbn [prerelease].
    now rewrite Tag.match_tag.
  - unfold is_alpha_version. cbn [prerelease].
    rewrite Tag.match_tag by assumption. now apply Bump.code_is_a.
  - unfold is_alpha_version. cbn [prerelease].
    rewrite Tag.match_tag by assumption. now apply Bump.code_is_a.
Qed.

Lemma next_prerelease_result_valid_witness :
  is_prerelease_version (mkVersion 2 4 1 ["rc3"] []) = true
  /\ validate_version (Version_str (mkVersion 2 4 1 ["rc3"] [])) = Ret true.
Proof.
  destruct (next_prerelease_result_valid (mkVersion 2 4 1 ["a2"] [])
              (mkVersion 2 4 1 ["rc3"] []) "rc" eq_refl)
    as (_ & _ & _ & _ & H1 & H2 & _).
  exact (conj H1 H2).
Defined.

(** X2.  Prerelease bumps compose: starting from a version without
    prerelease, bumping once for each flavor of a non-empty list of
    flavors ends at the code of the last flavor with the counter equal to
    the number of bumps, whatever the flavors in between. *)
Theorem next_prereleases_count (v : Version) (flavors : list string)
    (flavor code : string) :
  prerelease v = [] ->
  Forall (fun f => In f PRERELEASE_FLAVORS) flavors ->
  In (flavor, code) PRERELEASE_FLAVOR_CODES ->
  next_prereleases v (flavors ++ [flavor])
  = Ret (mkVersion (major v) (minor v) (patch v)
           [code ++ Str.of_int (N.of_nat (length flavors) + 1)] []).
Proof.
  intros Hp Hall Hlast.
  assert (Hgen : forall fs u n,
            Forall (fun f => In f PRERELEASE_FLAVORS) fs ->
            (prerelease u = [] /\ n = 0
             \/ exists c, In c ["a"; "rc"] /\ 1 <= n
                          /\ prerelease u = [c ++ Str.of_int n]) ->
            next_prereleases u (fs ++ [flavor])
            = Ret (mkVersion (major u) (minor u) (patch u)
                     [code ++ Str.of_int (n + N.of_nat (length fs) + 1)] [])).
  { induction fs as [|f fs IH]; intros u n Hfs Hu.
    - cbn [app next_prereleases length N.of_nat].
      destruct Hu as [[Hu ->]|(c & Hc & Hn & Hu)].
      + now rewrite (Tag.next_prerelease_fresh u flavor code Hlast Hu).
      + rewrite (Tag.next_prerelease_bump u flavor code c n [] Hlast Hc Hn Hu).
        cbn [obind]. now rewrite N.add_0_r.
    - inversion Hfs as [|? ? Hf Hfs']; subst.
      destruct (Tag.flavor_has_code f Hf) as [cf Hcf].
      destruct (Tag.flavor_code _ _ Hcf) as (_ & _ & Hcode).
      cbn [app next_prereleases].
      assert (Hstep : next_prerelease u f
                      = Ret (mkVersion (major u) (minor u) (patch u)
                               [cf ++ Str.of_int (n + 1)] [])).
      { destruct Hu as [[Hu ->]|(c & Hc & Hn & Hu)].
        - now rewrite (Tag.next_prerelease_fresh u f cf Hcf Hu).
        - now rewrite (Tag.next_prerelease_bump u f cf c n [] Hcf Hc Hn Hu). }
      rewrite Hstep. cbn [obind].
      rewrite (IH _ (n + 1) Hfs').
      + cbn [major minor patch length].
        replace (n + 1 + N.of_nat (length fs) + 1)
          with (n + N.of_nat (S (length fs)) + 1) by lia.
        reflexivity.
      + right. exists cf. repeat split; [assumption | lia]. }
  rewrite (Hgen flavors v 0 Hall) by (left; now split).
  now rewrite N.add_0_l.
Qed.

Lemma next_prereleases_count_witness :
  next_prereleases (mkVersion 2 4 1 [] []) ["alpha"; "alpha"; "rc"]
  = Ret (mkVersion 2 4 1 ["rc3"] []).
Proof.
  apply (next_prereleases_count (mkVersion 2 4 1 [] []) ["alpha"; "alpha"]
           "rc" "rc" eq_refl).
  - repeat constructor; simpl; auto.
  - simpl. auto.
Defined.

(* ================================================================== *)
(** ** The prerelease tests, and texts on which validation raises *)


Module Crash.
Import StrFacts.

Lemma span_stops p (s : string) : stops p s -> Str.span p s = ("", s).
Proof. destruct s as [|c s]; simpl; [reflexivity | now intros ->]. Qed.

(** [Version.coerce] finds no numerical component in a text that does
    not begin with a digit. *)
Lemma coerce_no_digit (text : string) :
  stops Str.is_digit text -> SemVer.coerce text = Raise ValueError.
Proof.
  intros H. unfold SemVer.coerce, SemVer.base_re_match.
  now rewrite (span_stops _ _ H).
Qed.

Lemma keyword_is_legacy (text : string) :
  Str.mem text KEYWORDS = true -> Pep440.is_legacy text = true.
Proof.
  unfold Str.mem. rewrite existsb_exists. intros (k & Hk & E).
  apply String.eqb_eq in E. subst k.
  destruct Hk as [<-|[<-|[<-|[<-|[<-|[]]]]]]; vm_compute; reflexivity.
Qed.

End Crash.

(** X4.  A text that PEP 440 accepts but that does not begin with a
    digit (a leading [v], for example) makes [validate_version] raise
    the [ValueError] of [Version.coerce] instead of returning [False];
    given as an explicit directive it ends [parse_next_version] with that
    [ValueError], not with the script's own exception. *)
Theorem validate_version_raises (text : string) :
  Pep440.is_legacy text = false ->
  stops Str.is_digit text ->
  validate_version text = Raise ValueError
  /\ forall w, parse_next_version text w = (Raise ValueError, []).
Proof.
  intros Hl Hs.
  assert (Hv : validate_version text = Raise ValueError).
  { unfold validate_version. rewrite Hl.
    now rewrite (Crash.coerce_no_digit text Hs). }
  split; [exact Hv|]. intros w.
  rewrite Explicit.parse_next_version_explicit.
  - now rewrite Hv.
  - destruct (Str.mem text _) eqn:E; [|reflexivity].
    apply Crash.keyword_is_legacy in E. congruence.
Qed.

Lemma validate_version_raises_witness :
  validate_version "v2.4.1" = Raise ValueError.
Proof.
  apply (validate_version_raises "v2.4.1").
  - vm_compute. reflexivity.
  - reflexivity.
Defined.

(* ================================================================== *)
(** ** Branch names and the detached head *)

(** X5.  A branch name matches [RELEASE_BRANCH_PATTERN] exactly when it
    is two non-empty runs of digits joined by a dot and followed by [.x]
    (Python's [$] also lets one newline end the text). *)
Theorem release_branch_names (branch : string) :
  Re.match_anchored RELEASE_BRANCH_PATTERN branch = true
  <-> exists d1 d2 tail,
        branch = d1 ++ "." ++ d2 ++ ".x" ++ tail
        /\ Str.nonempty d1 = true /\ Str.all Str.is_digit d1 = true
        /\ Str.nonempty d2 = true /\ Str.all Str.is_digit d2 = true
        /\ (tail = "" \/ tail = nl).
Proof.
  unfold Re.match_anchored. rewrite ReFacts.fullmatch_lang. split.
  - intros H. apply ReFacts.cat_split in H as (body & tail & -> & Hb & Ht).
    unfold RELEASE_BRANCH_PATTERN, Re.Seq in Hb. cbn [fold_right] in Hb.
    apply ReFacts.cat_split in Hb as (d1 & ? & -> & H1 & Hb).
    apply ReFacts.cat_split in Hb as (p1 & ? & -> & Hp1 & Hb).
    apply ReFacts.cat_split in Hb as (d2 & ? & -> & H2 & Hb).
    apply ReFacts.cat_split in Hb as (p2 & ? & -> & Hp2 & Hb).
    apply ReFacts.cat_split in Hb as (x & e & -> & Hx & He).
    inversion He; subst. clear He.
    apply (PatternFacts.lang_lit_inv ".") in Hp1 as ->.
    apply (PatternFacts.lang_lit_inv ".") in Hp2 as ->.
    apply (PatternFacts.lang_lit_inv "x") in Hx as ->.
    apply VersionReFacts.lang_plus_all_inv in H1 as [N1 D1].
    apply VersionReFacts.lang_plus_all_inv in H2 as [N2 D2].
    exists d1, d2, tail. repeat split; try assumption.
    + rewrite !StrFacts.append_assoc. reflexivity.
    + apply PatternFacts.lang_opt_inv in Ht as [->|Ht]; [now left|].
      apply PatternFacts.lang_chr_inv in Ht as (c & -> & E).
      apply Ascii.eqb_eq in E. subst c. now right.
  - intros (d1 & d2 & tail & -> & N1 & D1 & N2 & D2 & Ht).
    replace (d1 ++ "." ++ d2 ++ ".x" ++ tail)
      with ((d1 ++ "." ++ d2 ++ "." ++ "x" ++ "") ++ tail)
      by (rewrite !StrFacts.append_assoc; reflexivity).
    constructor.
    + unfold RELEASE_BRANCH_PATTERN.
      apply ReFacts.lang_seq_cons; [now apply ReFacts.lang_plus_all|].
      apply ReFacts.lang_seq_cons; [apply ReFacts.lang_lit|].
      apply ReFacts.lang_seq_cons; [now apply ReFacts.lang_plus_all|].
      apply ReFacts.lang_seq_cons; [apply ReFacts.lang_lit|].
      apply ReFacts.lang_seq_cons; [apply ReFacts.lang_lit | constructor].
    + destruct Ht as [->| ->]; [apply ReFacts.lang_opt_none|].
      apply ReFacts.lang_opt_some. constructor. reflexivity.
Qed.



(* ================================================================== *)
(** ** Reading the dependency and writing the metadata *)

Module Persist.
Import Run.

Lemma write_version_file_run (v : Version) (w : World) :
  write_version_file v w
  = (match subprocess w (ADD_VERSION_FILE w) with
     | Some _ => Ret tt
     | None => Raise CalledProcessError
     end,
     [WriteVersionFile (version_file_text v); CheckCall (ADD_VERSION_FILE w)]).
Proof.
  unfold write_version_file, version_file_path, bind, emit, ask, ret,
    check_call, ADD_VERSION_FILE, version_file_text.
  cbn [fst snd app].
  now destruct (subprocess w _).
Qed.

Lemma write_version_to_pyproject_run (v : Version) (w : World) :
  write_version_to_pyproject v w
  = match pyproject w with
    | PyprojectMissing =>
        (Exit 1, [TomlLoad;
                  Print ("Unable to update "
                         ++ (project_root w ++ "/" ++ PYPROJECT_FILE_PATH)
                         ++ ": file not found.")])
    | PyprojectInvalid =>
        (Exit 1, [TomlLoad;
                  Print ("Unable to parse "
                         ++ (project_root w ++ "/" ++ PYPROJECT_FILE_PATH)
                         ++ ": incorrect TOML file.")])
    | PyprojectData _ =>
        (match subprocess w (ADD_PYPROJECT w) with
         | Some _ => Ret tt
         | None => Raise CalledProcessError
         end,
         [TomlLoad; TomlDump (Version_str v); CheckCall (ADD_PYPROJECT w)])
    end.
Proof.
  unfold write_version_to_pyproject, pyproject_file_path, bind, emit, ask,
    ret, check_call, print, sys_exit, lift, ADD_PYPROJECT.
  cbn [fst snd app].
  destruct (pyproject w); cbn [fst snd app]; try reflexivity.
  now destruct (subprocess w _).
Qed.

(** A run that passed the dependency check found the paired dependency
    in pyproject. *)
Lemma validated_pyproject (args : Namespace) (w : World) (v : Version)
    (t0 : trace) :
  validated args w = (Ret v, t0) ->
  exists raw, pyproject w = PyprojectData (Some raw).
Proof.
  unfold validated. intros H.
  apply bind_Ret_inv in H as (v' & ? & ? & _ & H & _).
  apply bind_Ret_inv in H as ([] & ? & ? & H & _ & _).
  apply Guard.validate_returns in H as (raw & _ & Hp & _). eauto.
Qed.

(** The writes of a run that passed the dependency check. *)
Lemma persisted_run (args : Namespace) (w : World) (v : Version) (t0 : trace) :
  validated args w = (Ret v, t0) ->
  persisted args w
  = match subprocess w (ADD_VERSION_FILE w) with
    | None =>
        (Raise CalledProcessError,
         (t0 ++ [WriteVersionFile (version_file_text v);
                 CheckCall (ADD_VERSION_FILE w)])%list)
    | Some _ =>
        (match subprocess w (ADD_PYPROJECT w) with
         | Some _ => Ret v
         | None => Raise CalledProcessError
         end, (t0 ++ persist_events v w)%list)
    end.
Proof.
  intros Hv. destruct (validated_pyproject _ _ _ _ Hv) as [raw Hp].
  unfold persisted. rewrite (bind_returns _ _ _ _ _ Hv).
  pose proof (write_version_file_run v w) as H1.
  pose proof (write_version_to_pyproject_run v w) as H2.
  rewrite Hp in H2.
  destruct (subprocess w (ADD_VERSION_FILE w)).
  - rewrite (bind_returns _ _ _ _ _ H1).
    destruct (subprocess w (ADD_PYPROJECT w)).
    + rewrite (bind_returns _ _ _ _ _ H2). reflexivity.
    + rewrite (bind_stops _ _ _ _ _ H2 I). reflexivity.
  - rewrite (bind_stops _ _ _ _ _ H1 I). reflexivity.
Qed.

Lemma persisted_returns (args : Namespace) (w : World) (v : Version)
    (t : trace) :
  persisted args w = (Ret v, t) ->
  exists t0, validated args w = (Ret v, t0)
             /\ t = (t0 ++ persist_events v w)%list
             /\ subprocess w (ADD_VERSION_FILE w) <> None
             /\ subprocess w (ADD_PYPROJECT w) <> None.
Proof.
  intros H. pose proof H as H'. unfold persisted in H'.
  apply bind_Ret_inv in H' as (v' & t0 & ? & Hv & K & _).
  apply bind_Ret_inv in K as (? & ? & ? & _ & K & _).
  apply bind_Ret_inv in K as (? & ? & ? & _ & K & _).
  apply Resolved.ret_inv in K as <-.
  rewrite (persisted_run _ _ _ _ Hv) in H.
  exists t0. split; [exact Hv|].
  destruct (subprocess w (ADD_VERSION_FILE w)); [|discriminate].
  destruct (subprocess w (ADD_PYPROJECT w)); [|discriminate].
  injection H as <-. repeat split; discriminate.
Qed.

Lemma changelog_generated_returns (args : Namespace) (w : World)
    (v : Version) (t : trace) :
  changelog_generated args w = (Ret v, t) ->
  exists tp tc, persisted args w = (Ret v, tp) /\ t = (tp ++ tc)%list.
Proof.
  unfold changelog_generated. intros H.
  apply bind_Ret_inv in H as (v' & tp & tc & Hp & K & ->).
  apply bind_Ret_inv in K as (? & ? & ? & _ & K & _).
  apply Resolved.ret_inv in K as <-. eauto.
Qed.

End Persist.

(** X7.  The dependency check reads pyproject without a handler: in a
    run that has confirmed the version, a missing pyproject ends the run
    with [FileNotFoundError], an unparsable one with [TomlDecodeError], a
    pyproject without the [rasa-sdk] entry with [KeyError], and an entry
    whose text after its first character does not begin with a digit with
    the [ValueError] of [Version.coerce]; in each case nothing more
    happens after the load of pyproject. *)
Theorem dependency_unreadable (args : Namespace) (w : World) (v : Version)
    (t0 : trace) :
  confirmed args w = (Ret v, t0) ->
  (pyproject w = PyprojectMissing ->
   main args w = (Raise FileNotFoundError, (t0 ++ [TomlLoad])%list))
  /\ (pyproject w = PyprojectInvalid ->
      main args w = (Raise TomlDecodeError, (t0 ++ [TomlLoad])%list))
  /\ (pyproject w = PyprojectData None ->
      main args w = (Raise KeyError, (t0 ++ [TomlLoad])%list))
  /\ (forall raw,
        pyproject w = PyprojectData (Some raw) ->
        stops Str.is_digit (strip (drop_first raw)) ->
        main args w = (Raise ValueError, (t0 ++ [TomlLoad])%list)).
Proof.
  intros Hc.
  assert (Hmain : forall e,
            validate_code_is_release_ready v w = (Raise e, [TomlLoad]) ->
            main args w = (Raise e, (t0 ++ [TomlLoad])%list)).
  { intros e He.
    rewrite Stage.main_from_confirmed, (Run.bind_returns _ _ _ _ _ Hc).
    now rewrite (Run.bind_stops _ _ _ _ _ He I). }
  repeat split.
  - intros Hp. apply Hmain.
    unfold validate_code_is_release_ready, get_rasa_sdk_version, bind, emit,
      ask, raise, lift. now rewrite Hp.
  - intros Hp. apply Hmain.
    unfold validate_code_is_release_ready, get_rasa_sdk_version, bind, emit,
      ask, raise, lift. now rewrite Hp.
  - intros Hp. apply Hmain.
    unfold validate_code_is_release_ready, get_rasa_sdk_version, bind, emit,
      ask, raise, lift. now rewrite Hp.
  - intros raw Hp Hs. apply Hmain.
    unfold validate_code_is_release_ready, get_rasa_sdk_version, bind, emit,
      ask, raise, lift, ret. rewrite Hp.
    now rewrite (Crash.coerce_no_digit _ Hs).
Qed.

Lemma dependency_unreadable_witness :
  fst (main (mkNamespace (Some "2.4.1"))
            (sample_world "master" "2.4.0" ">=2.4.0" []))
  = Raise ValueError.
Proof.
  pose (w := sample_world "master" "2.4.0" ">=2.4.0" []).
  pose (args := mkNamespace (Some "2.4.1")).
  assert (H : confirmed args w
              = (Ret (mkVersion 2 4 1 [] []), snd (confirmed args w)))
    by (vm_compute; reflexivity).
  exact (f_equal fst
           (proj2 (proj2 (proj2 (dependency_unreadable args w _ _ H)))
              ">=2.4.0" eq_refl eq_refl)).
Defined.

(** X8.  The two metadata files are written one after the other and
    each is staged at once: in a run that passed the dependency check,
    the version file is written (with the formatted version) and staged,
    then pyproject is loaded, rewritten with the same version and staged.
    When staging the version file fails, the run ends there with
    [CalledProcessError]: the version file is already overwritten and
    pyproject is left as it was. *)
Theorem persist_order (args : Namespace) (w : World) (v : Version)
    (t0 : trace) :
  validated args w = (Ret v, t0) ->
  (subprocess w (ADD_VERSION_FILE w) = None ->
   main args w
   = (Raise CalledProcessError,
      (t0 ++ [WriteVersionFile (version_file_text v);
              CheckCall (ADD_VERSION_FILE w)])%list))
  /\ (subprocess w (ADD_VERSION_FILE w) <> None ->
      subprocess w (ADD_PYPROJECT w) = None ->
      main args w
      = (Raise CalledProcessError, (t0 ++ persist_events v w)%list))
  /\ (subprocess w (ADD_VERSION_FILE w) <> None ->
      subprocess w (ADD_PYPROJECT w) <> None ->
      persisted args w = (Ret v, (t0 ++ persist_events v w)%list)
      /\ exists t, snd (main args w) = (t0 ++ persist_events v w ++ t)%list).
Proof.
  intros Hv. pose proof (Persist.persisted_run args w v t0 Hv) as Hp.
  repeat split.
  - intros H1. rewrite H1 in Hp.
    rewrite Stage.main_from_persisted.
    now rewrite (Run.bind_stops _ _ _ _ _ Hp I).
  - intros H1 H2. rewrite Stage.main_from_persisted.
    destruct (subprocess w (ADD_VERSION_FILE w)); [|congruence].
    rewrite H2 in Hp.
    now rewrite (Run.bind_stops _ _ _ _ _ Hp I).
  - destruct (subprocess w (ADD_VERSION_FILE w)); [|congruence].
    destruct (subprocess w (ADD_PYPROJECT w)); [assumption|congruence].
  - rewrite Stage.main_from_persisted.
    destruct (subprocess w (ADD_VERSION_FILE w)); [|congruence].
    destruct (subprocess w (ADD_PYPROJECT w)); [|congruence].
    rewrite (Run.bind_returns _ _ _ _ _ Hp). cbn [snd].
    eexists. now rewrite <- app_assoc.
Qed.

Lemma persist_order_witness :
  exists t0 t,
    snd (main (mkNamespace (Some "patch"))
              (sample_world "master" "2.4.0" "~2.4.0" []))
    = (t0 ++ persist_events (mkVersion 2 4 1 [] [])
               (sample_world "master" "2.4.0" "~2.4.0" []) ++ t)%list.
Proof.
  pose (w := sample_world "master" "2.4.0" "~2.4.0" []).
  pose (args := mkNamespace (Some "patch")).
  assert (H : validated args w
              = (Ret (mkVersion 2 4 1 [] []), snd (validated args w)))
    by (vm_compute; reflexivity).
  exists (snd (validated args w)).
  apply (proj2 (proj2 (persist_order args w _ _ H))); discriminate.
Defined.

(* ================================================================== *)
(** ** Confirmation, and the runs that return *)

(** X9.  [confirm_version] needs the list of tags always and the version
    file only for the proceed question: when [git tag] fails the call
    ends with [CalledProcessError]; with the version file missing, a
    target that is already tagged is still confirmed through the
    overwrite question, while an untagged target ends the call with
    [FileNotFoundError] before any question is asked. *)
Theorem confirm_version_reads (v : Version) (w : World) :
  (subprocess w ["git"; "tag"] = None ->
   confirm_version v w
   = (Raise CalledProcessError, [CheckOutput ["git"; "tag"]]))
  /\ (forall tags,
        subprocess w ["git"; "tag"] = Some tags ->
        version_file w = None ->
        (Str.mem (Version_str v) (Str.split newline tags) = false ->
         confirm_version v w
         = (Raise FileNotFoundError,
            [CheckOutput ["git"; "tag"]; ReadVersionFile]))
        /\ (Str.mem (Version_str v) (Str.split newline tags) = true ->
            confirm_answer w = Some true ->
            confirm_version v w
            = (Ret true,
               [CheckOutput ["git"; "tag"];
                Confirm ("Tag with version '" ++ Version_str v
                         ++ "' already exists, overwrite?") false]))).
Proof.
  split.
  - intros Ht.
    unfold confirm_version, git_existing_tags, bind, check_output.
    now rewrite Ht.
  - intros tags Ht Hf. split.
    + intros Hm.
      unfold confirm_version, git_existing_tags, get_current_version, bind,
        check_output, emit, ask, ret, raise, lift.
      rewrite Ht. cbn [fst snd app]. rewrite Hm, Hf. reflexivity.
    + intros Hm Ha.
      unfold confirm_version, git_existing_tags, bind, check_output, emit,
        ask, ret.
      rewrite Ht. cbn [fst snd app]. rewrite Hm, Ha. reflexivity.
Qed.

Lemma confirm_version_reads_witness :
  confirm_version (mkVersion 2 4 1 [] []) unversioned_world
  = (Raise FileNotFoundError, [CheckOutput ["git"; "tag"]; ReadVersionFile]).
Proof.
  apply (proj1 (proj2 (confirm_version_reads (mkVersion 2 4 1 [] [])
                         unversioned_world) "" eq_refl eq_refl)).
  reflexivity.
Defined.

Module Finish.
Import Run.

Lemma same_branch_returns (v : Version) (w : World) (t : trace) :
  (create_commit v;; push_changes;;
   print_done_message_same_branch v)%py w = (Ret tt, t) ->
  subprocess w (COMMIT v) <> None /\ subprocess w PUSH <> None
  /\ t = same_branch_events v.
Proof.
  unfold create_commit, push_changes, print_done_message_same_branch,
    bind, check_call, print, emit, COMMIT, PUSH, same_branch_events.
  destruct (subprocess w ["git"; "commit"; _; _]);
    destruct (subprocess w ["git"; "push"; _; _]); cbn [fst snd app];
    try discriminate.
  intros H. injection H as <-. repeat split; discriminate.
Qed.

Lemma release_branch_returns (v : Version) (w : World) (t : trace) :
  (base <- git_current_branch;;
   branch <- create_release_branch v;;
   create_commit v;; push_changes;;
   print_done_message branch base v)%py w = (Ret tt, t) ->
  subprocess w (COMMIT v) <> None /\ subprocess w PUSH <> None
  /\ t = CheckOutput SYMBOLIC_REF :: release_branch_events v (current_branch w).
Proof.
  rewrite (bind_returns _ _ _ _ _ (Workflow.git_current_branch_run w)).
  unfold create_release_branch, create_commit, push_changes,
    print_done_message, bind, check_call, print, emit, ret, COMMIT, PUSH,
    release_branch_events.
  destruct (subprocess w ["git"; "checkout"; _; _]);
    destruct (subprocess w ["git"; "commit"; _; _]);
    destruct (subprocess w ["git"; "push"; _; _]); cbn [fst snd app];
    try discriminate.
  intros H. injection H as <-. repeat split; discriminate.
Qed.

(** The events of the workflow, seen from its last command. *)
Lemma workflow_returns (v : Version) (w : World) (t : trace) :
  workflow v w = (Ret tt, t) ->
  subprocess w (COMMIT v) <> None /\ subprocess w PUSH <> None
  /\ exists before messages,
       t = (before ++ CheckCall (COMMIT v) :: CheckCall PUSH :: messages)%list
       /\ Forall (fun e => is_print e = true) messages.
Proof.
  rewrite Workflow.workflow_unfold. cbv zeta.
  destruct (chooses_same_branch v w).
  - destruct (bind _ _ w) as [o t'] eqn:E. cbn [fst snd].
    intros H. injection H as -> <-.
    apply same_branch_returns in E as (Hc & Hp & ->).
    repeat split; try assumption.
    exists (test_queries v). eexists. split; [reflexivity|].
    repeat constructor.
  - destruct (bind _ _ w) as [o t'] eqn:E. cbn [fst snd].
    intros H. injection H as -> <-.
    apply release_branch_returns in E as (Hc & Hp & ->).
    repeat split; try assumption.
    exists (test_queries v
            ++ [CheckOutput SYMBOLIC_REF;
                CheckCall ["git"; "checkout"; "-b";
                           (RELEASE_BRANCH_PREFIX ++ Version_str v)%string]])%list.
    eexists. split; [now rewrite <- app_assoc|].
    repeat constructor.
Qed.

End Finish.

(** X10.  A run of [main] returns normally only when everything was
    done: both metadata files were written with the resolved version and
    staged, the commit and the push succeeded, and the push is the last
    command of the run, followed only by the closing messages. *)
Theorem successful_run (args : Namespace) (w : World) (t : trace) :
  main args w = (Ret tt, t) ->
  exists v before messages,
    t = (before ++ CheckCall (COMMIT v) :: CheckCall PUSH :: messages)%list
    /\ Forall (fun e => is_print e = true) messages
    /\ In (WriteVersionFile (version_file_text v)) before
    /\ In (TomlDump (Version_str v)) before
    /\ subprocess w (ADD_VERSION_FILE w) <> None
    /\ subprocess w (ADD_PYPROJECT w) <> None
    /\ subprocess w (COMMIT v) <> None
    /\ subprocess w PUSH <> None.
Proof.
  intros H. rewrite Stage.main_stages in H.
  apply Run.bind_Ret_inv in H as (v & t0 & t2 & Hv & Hw & ->).
  apply Finish.workflow_returns in Hw
    as (Hc & Hp & before & messages & -> & Hm).
  apply Persist.changelog_generated_returns in Hv as (tp & tc & Hv & ->).
  apply Persist.persisted_returns in Hv as (tv & _ & -> & Ha1 & Ha2).
  exists v, ((tv ++ persist_events v w) ++ tc ++ before)%list, messages.
  repeat split; try assumption.
  - now rewrite !app_assoc.
  - apply in_or_app. left. apply in_or_app. right. simpl. auto.
  - apply in_or_app. left. apply in_or_app. right. simpl. auto.
Qed.

Lemma successful_run_witness :
  exists v before messages,
    snd (main (mkNamespace (Some "patch"))
              (sample_world "master" "2.4.0" "~2.4.0" []))
    = (before ++ CheckCall (COMMIT v) :: CheckCall PUSH :: messages)%list.
Proof.
  pose (w := sample_world "master" "2.4.0" "~2.4.0" []).
  pose (args := mkNamespace (Some "patch")).
  assert (H : main args w = (Ret tt, snd (main args w)))
    by (vm_compute; reflexivity).
  destruct (successful_run args w _ H) as (v & before & messages & E & _).
  exists v, before, messages. exact E.
Defined.

(* ================================================================== *)
(** ** The closing message and the order of publication *)

Module Closing.
Import Run.

Lemma no_event (P : event -> bool) (t : trace) :
  Forall (fun e => P e = false) t -> existsb P t = false.
Proof.
  induction 1 as [|e t He _ IH]; simpl; [reflexivity|].
  now rewrite He, IH.
Qed.

Lemma changelog_generated_unpublished args :
  traces (fun e => publishing e = false) (changelog_generated args).
Proof.
  unfold changelog_generated, changelog_step, persisted, validated,
    confirmed, version_resolved, guards_checked.
  follow.
Qed.

Lemma changelog_generated_not_done args :
  traces (fun e => is_done_message e = false) (changelog_generated args).
Proof.
  unfold changelog_generated, changelog_step, persisted, validated,
    confirmed, version_resolved, guards_checked.
  follow.
Qed.

(** The closing message is printed by the workflows that return. *)
Lemma workflow_done (v : Version) (w : World) :
  existsb is_done_message (snd (workflow v w)) = true
  <-> fst (workflow v w) = Ret tt.
Proof.
  rewrite Workflow.workflow_unfold. cbv zeta.
  assert (Hq : existsb is_done_message (test_queries v) = false)
    by (unfold test_queries; now destruct (is_alpha_version v)).
  destruct (chooses_same_branch v w); cbn [fst snd];
    rewrite existsb_app, Hq; cbn [orb].
  - unfold create_commit, push_changes, print_done_message_same_branch,
      bind, check_call, print, emit.
    change ["git"; "commit"; "-m";
            "prepared release of version " ++ Version_str v] with (COMMIT v).
    change ["git"; "push"; "origin"; "HEAD"] with PUSH.
    destruct (subprocess w (COMMIT v)); destruct (subprocess w PUSH); cbn;
      split; (reflexivity || discriminate).
  - rewrite (bind_returns _ _ _ _ _ (Workflow.git_current_branch_run w)).
    unfold create_release_branch, create_commit, push_changes,
      print_done_message, bind, check_call, print, emit, ret.
    change ["git"; "commit"; "-m";
            "prepared release of version " ++ Version_str v] with (COMMIT v).
    change ["git"; "push"; "origin"; "HEAD"] with PUSH.
    destruct (subprocess w ["git"; "checkout"; "-b"; _]);
      destruct (subprocess w (COMMIT v)); destruct (subprocess w PUSH); cbn;
      split; (reflexivity || discriminate).
Qed.

End Closing.

(** X11.  The closing message tells the truth: a run of [main] prints
    an "All done" message exactly when it returns normally.  Whenever the
    run exits or raises, at whatever step, no such message is printed. *)
Theorem done_message_iff_success (args : Namespace) (w : World) :
  existsb is_done_message (snd (main args w)) = true
  <-> fst (main args w) = Ret tt.
Proof.
  rewrite Stage.main_stages.
  pose proof (Closing.changelog_generated_not_done args w) as Hn.
  apply Closing.no_event in Hn.
  destruct (changelog_generated args w) as [[v|c|e] t] eqn:E;
    cbn [snd] in Hn.
  - rewrite (Run.bind_returns _ _ _ _ _ E). cbn [fst snd].
    rewrite existsb_app, Hn. cbn [orb]. apply Closing.workflow_done.
  - rewrite (Run.bind_stops _ _ _ _ _ E I). cbn [fst snd carry].
    rewrite Hn. split; discriminate.
  - rewrite (Run.bind_stops _ _ _ _ _ E I). cbn [fst snd carry].
    rewrite Hn. split; discriminate.
Qed.

(** X12.  Nothing is published before the metadata is in place: in
    every run of [main], whatever its outcome, a commit or a push is
    attempted only after the dependency check passed and both metadata
    files were written with the resolved version and staged
    successfully, and no commit or push happens up to there. *)
Theorem publish_after_writes (args : Namespace) (w : World) :
  existsb publishing (snd (main args w)) = true ->
  exists v t0 t,
    validated args w = (Ret v, t0)
    /\ snd (main args w) = (t0 ++ persist_events v w ++ t)%list
    /\ existsb publishing (t0 ++ persist_events v w) = false
    /\ subprocess w (ADD_VERSION_FILE w) <> None
    /\ subprocess w (ADD_PYPROJECT w) <> None.
Proof.
  rewrite Stage.main_stages.
  pose proof (Closing.changelog_generated_unpublished args w) as Hn.
  destruct (changelog_generated args w) as [[v|c|e] t] eqn:E;
    cbn [snd] in Hn.
  - rewrite (Run.bind_returns _ _ _ _ _ E). cbn [snd]. intros _.
    apply Persist.changelog_generated_returns in E as (tp & tc & E & ->).
    apply Persist.persisted_returns in E as (t0 & Hv & -> & H1 & H2).
    exists v, t0, (tc ++ snd (workflow v w))%list.
    repeat split; try assumption.
    + now rewrite <- !app_assoc.
    + apply Closing.no_event. apply Forall_app in Hn as [Hn _]. exact Hn.
  - rewrite (Run.bind_stops _ _ _ _ _ E I). cbn [snd].
    rewrite (Closing.no_event _ _ Hn). discriminate.
  - rewrite (Run.bind_stops _ _ _ _ _ E I). cbn [snd].
    rewrite (Closing.no_event _ _ Hn). discriminate.
Qed.

Lemma publish_after_writes_witness :
  exists v t0 t,
    snd (main (mkNamespace (Some "alpha"))
              (sample_world "feature/x" "2.4.1a2" "~2.4.0" []))
    = (t0 ++ persist_events v
               (sample_world "feature/x" "2.4.1a2" "~2.4.0" []) ++ t)%list.
Proof.
  destruct (publish_after_writes (mkNamespace (Some "alpha"))
              (sample_world "feature/x" "2.4.1a2" "~2.4.0" []))
    as (v & t0 & t & _ & E & _).
  - vm_compute. reflexivity.
  - exists v, t0, t. exact E.
Defined.

(* ================================================================== *)
(** ** The answers of the interactive prompt *)

Module Interactive.
Import Run StrFacts Numeral.

Lemma first_prerelease_canonical (v : Version) (code : string) :
  In code ["a"; "rc"] -> canonical (first_prerelease v code).
Proof.
  intros Hc. split; [reflexivity|]. right. exists code, 1.
  repeat split; [assumption | lia].
Qed.

Lemma canonical_nonempty (v : Version) :
  canonical v -> Str.nonempty (Version_str v) = true.
Proof.
  intros Hv. destruct (Explicit.canonical_text v Hv) as (-> & _).
  unfold triple. pose proof (of_int_nonempty (major v)) as Hn.
  now destruct (Str.of_int (major v)).
Qed.

(** The three-way choice, once the flavor was typed at the prompt. *)
Lemma choice_run (w : World) (current flavor code : string)
    (cur_v next_alpha : Version) :
  version_file w = Some current ->
  SemVer.coerce current = Ret cur_v ->
  next_prerelease cur_v "alpha" = Ret next_alpha ->
  first_valid is_valid_version_number (text_input w) = Ret (Some flavor) ->
  In (flavor, code) PRERELEASE_FLAVOR_CODES ->
  prerelease cur_v = [] ->
  ask_version w
  = (let chosen :=
       match select_answer w with
       | Some i => nth_error (candidates cur_v code) i
       | None => None
       end in
     let asked :=
       [ReadVersionFile; AskText (version_question cur_v next_alpha);
        Select ("Which " ++ flavor ++ " do you want to release?")
          (List.map Version_str (candidates cur_v code))] in
     match chosen with
     | Some v => (Ret (Version_str v), asked)
     | None => (Exit 1, (asked ++ [Print "Aborting."])%list)
     end).
Proof.
  intros Hf Hc Ha Ht Hcode Hpre.
  destruct (Tag.flavor_code _ _ Hcode) as (_ & Hin & Hcd).
  destruct (Tag.next_has_no_prerelease cur_v) as (P1 & P2 & P3).
  pose proof (Tag.next_prerelease_fresh _ _ _ Hcode P1) as C1.
  pose proof (Tag.next_prerelease_fresh _ _ _ Hcode P2) as C2.
  pose proof (Tag.next_prerelease_fresh _ _ _ Hcode P3) as C3.
  fold (first_prerelease (SemVer.next_minor cur_v) code) in C1.
  fold (first_prerelease (SemVer.next_patch cur_v) code) in C2.
  fold (first_prerelease (SemVer.next_major cur_v) code) in C3.
  rewrite (Prompt.prompt_run w current flavor cur_v next_alpha Hf Hc Ha Ht).
  cbv zeta.
  rewrite (proj2 (Prompt.mem_flavors flavor) Hin).
  unfold SemVer.has_prerelease at 1 2. rewrite Hpre. cbn [negb andb].
  rewrite C1, C2, C3.
  unfold questionary_select, bind, lift, emit, ask, ret, print, sys_exit.
  cbn [fst snd app candidates List.map].
  destruct (select_answer w) as [i|]; [|reflexivity].
  destruct i as [|[|[|i]]]; cbn [nth_error];
    try (rewrite canonical_nonempty
           by (now apply first_prerelease_canonical); reflexivity).
  now destruct i.
Qed.

End Interactive.

(** X13.  At the three-way choice, the selection is the version that is
    released: with a current version without prerelease and the flavor
    typed at the prompt, selecting the candidate at position [i] resolves
    the run to exactly that candidate (the selected text is read back as
    an explicit version, and reads back as the version it was formatted
    from), with no further read of the version file.  The version
    released carries the first prerelease of the flavor, on numbers that
    differ from the current ones. *)
Theorem selection_resolves (w : World) (current flavor code : string)
    (cur_v next_alpha chosen : Version) (i : nat) :
  version_file w = Some current ->
  SemVer.coerce current = Ret cur_v ->
  next_prerelease cur_v "alpha" = Ret next_alpha ->
  first_valid is_valid_version_number (text_input w) = Ret (Some flavor) ->
  In (flavor, code) PRERELEASE_FLAVOR_CODES ->
  prerelease cur_v = [] ->
  select_answer w = Some i ->
  nth_error (candidates cur_v code) i = Some chosen ->
  next_version (mkNamespace None) w
  = (Ret chosen,
     [ReadVersionFile; AskText (version_question cur_v next_alpha);
      Select ("Which " ++ flavor ++ " do you want to release?")
        (List.map Version_str (candidates cur_v code))])
  /\ major chosen :: minor chosen :: patch chosen :: nil
     <> major cur_v :: minor cur_v :: patch cur_v :: nil
  /\ prerelease chosen = [code ++ Str.of_int 1].
Proof.
  intros Hf Hc Ha Ht Hcode Hpre Hs Hn.
  pose proof (Interactive.choice_run w current flavor code cur_v next_alpha
                Hf Hc Ha Ht Hcode Hpre) as Hrun.
  cbv zeta in Hrun. rewrite Hs, Hn in Hrun.
  destruct (Tag.flavor_code _ _ Hcode) as (_ & _ & Hcd).
  assert (Hcan : canonical chosen /\ prerelease chosen = [code ++ Str.of_int 1]
                 /\ major chosen :: minor chosen :: patch chosen :: nil
                    <> major cur_v :: minor cur_v :: patch cur_v :: nil).
  { unfold candidates in Hn.
    destruct i as [|[|[|i]]]; cbn [nth_error] in Hn;
      [| | |destruct i; discriminate];
      injection Hn as <-;
      (split; [now apply Interactive.first_prerelease_canonical|]);
      (split; [reflexivity|]);
      unfold first_prerelease, SemVer.next_minor, SemVer.next_patch,
        SemVer.next_major, SemVer.has_prerelease;
      rewrite Hpre; cbn [major minor patch andb];
      intros E; injection E; lia. }
  destruct Hcan as (Hcan & Hp & Hd).
  repeat split; try assumption.
  unfold next_version. cbn [next_version_arg].
  rewrite (Run.bind_returns _ _ _ _ _ Hrun).
  rewrite (Explicit.canonical_explicit chosen w Hcan).
  cbn [fst snd]. now rewrite List.app_nil_r.
Qed.

Lemma selection_resolves_witness :
  next_version (mkNamespace None) (sample_world "master" "2.4.0" "~2.4.0" ["rc"])
  = (Ret (mkVersion 2 4 1 ["rc1"] []),
     [ReadVersionFile;
      AskText (version_question (mkVersion 2 4 0 [] [])
                 (mkVersion 2 4 0 ["a1"] []));
      Select "Which rc do you want to release?"
        ["2.5.0rc1"; "2.4.1rc1"; "3.0.0rc1"]]).
Proof.
  apply (selection_resolves (sample_world "master" "2.4.0" "~2.4.0" ["rc"])
           "2.4.0" "rc" "rc" (mkVersion 2 4 0 [] [])
           (mkVersion 2 4 0 ["a1"] []) (mkVersion 2 4 1 ["rc1"] []) 1%nat
           eq_refl eq_refl eq_refl eq_refl);
    [simpl; auto | reflexivity | reflexivity | reflexivity].
Defined.

(** X14.  Giving up at a prompt ends the run: when no typed text is
    accepted at the version prompt, or when the three-way choice is left
    without a selection, [next_version] prints the abort message last and
    exits with code 1, and so does [main], having changed nothing. *)
Theorem prompt_cancelled (w : World) (current : string)
    (cur_v next_alpha : Version) :
  version_file w = Some current ->
  SemVer.coerce current = Ret cur_v ->
  next_prerelease cur_v "alpha" = Ret next_alpha ->
  let asked := [ReadVersionFile; AskText (version_question cur_v next_alpha)] in
  (first_valid is_valid_version_number (text_input w) = Ret None ->
   next_version (mkNamespace None) w
   = (Exit 1, (asked ++ [Print "Aborting."])%list))
  /\ (forall flavor code,
        first_valid is_valid_version_number (text_input w)
        = Ret (Some flavor) ->
        In (flavor, code) PRERELEASE_FLAVOR_CODES ->
        prerelease cur_v = [] ->
        select_answer w = None ->
        next_version (mkNamespace None) w
        = (Exit 1,
           (asked
            ++ [Select ("Which " ++ flavor ++ " do you want to release?")
                  (List.map Version_str (candidates cur_v code));
                Print "Aborting."])%list))
  /\ (fst (next_version (mkNamespace None) w) = Exit 1 ->
      fst (main (mkNamespace None) w) = Exit 1
      /\ Forall quiet (snd (main (mkNamespace None) w))).
Proof.
  intros Hf Hc Ha. cbv zeta. repeat split.
  - intros Ht. unfold next_version. cbn [next_version_arg].
    assert (E : ask_version w
                = (Exit 1,
                   [ReadVersionFile;
                    AskText (version_question cur_v next_alpha);
                    Print "Aborting."])).
    { unfold ask_version.
      rewrite (Run.bind_returns _ _ _ _ _
                 (Choice.get_current_version_run w _ Hf)).
      assert (Hl : lift (SemVer.coerce current) w = (Ret cur_v, []))
        by (unfold lift; now rewrite Hc).
      rewrite (Run.bind_returns _ _ _ _ _ Hl).
      assert (Hn : lift (next_prerelease cur_v "alpha") w
                   = (Ret next_alpha, []))
        by (unfold lift; now rewrite Ha).
      rewrite (Run.bind_returns _ _ _ _ _ Hn).
      assert (Hq : questionary_text (version_question cur_v next_alpha)
                     is_valid_version_number w
                   = (Ret None,
                      [AskText (version_question cur_v next_alpha)])).
      { unfold questionary_text, bind, emit, ask, lift. now rewrite Ht. }
      fold (version_question cur_v next_alpha).
      rewrite (Run.bind_returns _ _ _ _ _ Hq).
      reflexivity. }
    now rewrite (Run.bind_stops _ _ _ _ _ E I).
  - intros flavor code Ht Hcode Hpre Hs.
    pose proof (Interactive.choice_run w current flavor code cur_v next_alpha
                  Hf Hc Ha Ht Hcode Hpre) as Hrun.
    cbv zeta in Hrun. rewrite Hs in Hrun.
    unfold next_version. cbn [next_version_arg].
    now rewrite (Run.bind_stops _ _ _ _ _ Hrun I).
  - rewrite Stage.main_from_guards.
    destruct (guards_checked w) as [[[]|c|e] tg] eqn:Eg.
    + rewrite (Run.bind_returns _ _ _ _ _ Eg).
      destruct (next_version (mkNamespace None) w) as [o tn] eqn:En.
      cbn [fst] in H. subst o.
      now rewrite (Run.bind_stops _ _ _ _ _ En I).
    + rewrite (Run.bind_stops _ _ _ _ _ Eg I). cbn [fst carry].
      rewrite Guard.guards_checked_run in Eg.
      destruct (subprocess w DIFF_INDEX); [discriminate|].
      now injection Eg as <- _.
    + rewrite Guard.guards_checked_run in Eg.
      destruct (subprocess w DIFF_INDEX); discriminate.
  - rewrite Stage.main_from_guards.
    pose proof (Quiet.guards_checked_quiet w) as Hg.
    pose proof (Quiet.next_version_quiet (mkNamespace None) w) as Hq.
    destruct (guards_checked w) as [[[]|c|e] tg] eqn:Eg; cbn [snd] in Hg.
    + rewrite (Run.bind_returns _ _ _ _ _ Eg).
      destruct (next_version (mkNamespace None) w) as [o tn] eqn:En.
      cbn [fst snd] in H, Hq. subst o.
      rewrite (Run.bind_stops _ _ _ _ _ En I). cbn [snd].
      apply Forall_app. now split.
    + now rewrite (Run.bind_stops _ _ _ _ _ Eg I).
    + now rewrite (Run.bind_stops _ _ _ _ _ Eg I).
Qed.

Lemma prompt_cancelled_witness :
  next_version (mkNamespace None) (sample_world "master" "2.4.0" "~2.4.0" [])
  = (Exit 1,
     [ReadVersionFile;
      AskText (version_question (mkVersion 2 4 0 [] [])
                 (mkVersion 2 4 0 ["a1"] []));
      Print "Aborting."]).
Proof.
  apply (proj1 (prompt_cancelled
                  (sample_world "master" "2.4.0" "~2.4.0" [])
                  "2.4.0" (mkVersion 2 4 0 [] []) (mkVersion 2 4 0 ["a1"] [])
                  eq_refl eq_refl eq_refl)).
  reflexivity.
Defined.

(** X15.  The version prompt computes its example texts before it asks:
    when the current version carries a prerelease that is no tag of the
    script, the interactive run ends with [AttributeError] right after
    reading the version file, without any question, although the
    directives [major], [minor] and [patch], given on the command line,
    resolve from the same version file to a version without
    prerelease. *)
Theorem prompt_needs_tagged_current (w : World) (current segment : string)
    (rest : list string) (cur_v : Version) :
  version_file w = Some current ->
  SemVer.coerce current = Ret cur_v ->
  prerelease cur_v = segment :: rest ->
  Re.match_anchored PRERELEASE_VERSION_PATTERN segment = false ->
  next_version (mkNamespace None) w = (Raise AttributeError, [ReadVersionFile])
  /\ (forall directive,
        In directive ["major"; "minor"; "patch"] ->
        exists v,
          next_version (mkNamespace (Some directive)) w
          = (Ret v, [ReadVersionFile])
          /\ prerelease v = [] /\ build v = []).
Proof.
  intros Hf Hc Hp Hm.
  assert (E : PRERELEASE_VERSION_PATTERN_match segment = None).
  { destruct (PRERELEASE_VERSION_PATTERN_match segment) eqn:E;
      [|reflexivity].
    assert (Hyes : Re.match_anchored PRERELEASE_VERSION_PATTERN segment = true)
      by (apply PatternFacts.prerelease_pattern_agrees; congruence).
    congruence. }
  pose proof (Choice.get_current_version_run w _ Hf) as Hg.
  split.
  - unfold next_version. cbn [next_version_arg].
    assert (Ha : ask_version w = (Raise AttributeError, [ReadVersionFile])).
    { unfold ask_version. rewrite (Run.bind_returns _ _ _ _ _ Hg).
      unfold bind, lift. rewrite Hc.
      unfold next_prerelease. rewrite Hp, E. reflexivity. }
    now rewrite (Run.bind_stops _ _ _ _ _ Ha I).
  - intros directive Hd.
    destruct (Tag.next_has_no_prerelease cur_v) as (P1 & P2 & P3).
    unfold next_version.
    destruct Hd as [<-|[<-|[<-|[]]]]; cbn [next_version_arg Str.nonempty];
      unfold parse_next_version; cbn [String.eqb Ascii.eqb Bool.eqb];
      rewrite (Run.bind_returns _ _ _ _ _ Hg);
      unfold bind, lift, ret; rewrite Hc; cbn [fst snd app];
      eexists; (split; [reflexivity|]); (split; [assumption|]);
      unfold SemVer.next_major, SemVer.next_minor, SemVer.next_patch;
      match goal with |- context [if ?b then _ else _] => now destruct b end.
Qed.

Lemma prompt_needs_tagged_current_witness :
  next_version (mkNamespace None) beta_world
  = (Raise AttributeError, [ReadVersionFile]).
Proof.
  apply (proj1 (prompt_needs_tagged_current beta_world "2.4.0-beta" "beta" []
                  (mkVersion 2 4 0 ["beta"] [])
                  eq_refl eq_refl eq_refl eq_refl)).
Defined.

(** X16.  [parse_next_version] reads the version file exactly for the
    five keyword directives, and then exactly once; an explicit version
    is resolved from its text alone.  So a keyword fails with
    [FileNotFoundError] when the version file is missing, while an
    explicit version resolves all the same. *)
Theorem parse_next_version_reads (text : string) (w : World) :
  snd (parse_next_version text w)
  = (if Str.mem text KEYWORDS then [ReadVersionFile] else [])
  /\ (Str.mem text KEYWORDS = true -> version_file w = None ->
      fst (parse_next_version text w) = Raise FileNotFoundError)
  /\ (Str.mem text KEYWORDS = false ->
      forall w', parse_next_version text w' = parse_next_version text w).
Proof.
  destruct (Str.mem text KEYWORDS) eqn:Ek.
  - assert (Hk : In text KEYWORDS).
    { unfold Str.mem in Ek. apply existsb_exists in Ek as (k & Hk & E).
      apply String.eqb_eq in E. now subst. }
    assert (H : snd (parse_next_version text w) = [ReadVersionFile]
                /\ (version_file w = None ->
                    fst (parse_next_version text w) = Raise FileNotFoundError)).
    { destruct Hk as [<-|[<-|[<-|[<-|[<-|[]]]]]];
        unfold parse_next_version;
        cbn [String.eqb Ascii.eqb Bool.eqb Str.mem existsb
               PRERELEASE_FLAVORS orb];
        unfold get_current_version, bind, emit, ask, ret, raise, lift;
        cbn [fst snd app];
        (destruct (version_file w) as [current|];
         [destruct (SemVer.coerce current) as [v|c|e]; cbn [fst snd app];
          (split; [reflexivity | discriminate])
         |split; reflexivity]). }
    destruct H as [H1 H2]. repeat split; [exact H1 | | discriminate].
    intros _. exact H2.
  - repeat split; try discriminate.
    + now rewrite (Explicit.parse_next_version_explicit text w Ek).
    + intros _ w'.
      now rewrite !(Explicit.parse_next_version_explicit text _ Ek).
Qed.

Lemma parse_next_version_reads_witness :
  fst (parse_next_version "patch" unversioned_world) = Raise FileNotFoundError.
Proof.
  apply (proj1 (proj2 (parse_next_version_reads "patch" unversioned_world)));
    reflexivity.
Defined.

(* ================================================================== *)
(** ** The error of the script, and the agreement of prompt and parser *)

Module Reject.
Import Run.

Lemma parse_outcome (s : string) : library_outcome (SemVer.parse s).
Proof.
  unfold SemVer.parse, SemVer.int_of, SemVer.of_parts.
  destruct (negb _); [exact I|].
  destruct (SemVer.version_re_match s) as [[[[[ma mi] pa] pre] bld]|];
    [|exact I].
  destruct (_ || _); [exact I|].
  destruct (Str.to_int ma); [|exact I].
  destruct (Str.to_int mi); [|exact I].
  destruct (Str.to_int pa); [|exact I].
  cbn [obind]. now destruct (_ && _).
Qed.

Lemma coerce_outcome (s : string) : library_outcome (SemVer.coerce s).
Proof.
  unfold SemVer.coerce.
  destruct (SemVer.base_re_match s) as [[matched rest]|]; [|exact I].
  destruct rest; [apply parse_outcome|].
  destruct (match Str.map _ _ with "" => _ | _ => _ end) as [pre bld].
  apply parse_outcome.
Qed.

Lemma next_prerelease_not_rejected (v : Version) (flavor : string) :
  rejected (next_prerelease v flavor) = false.
Proof.
  unfold next_prerelease, SemVer.of_parts.
  destruct (prerelease v) as [|segment rest].
  - cbn [obind]. destruct (dict_get _ _); [|reflexivity].
    cbn [obind]. now destruct (_ && _).
  - destruct (PRERELEASE_VERSION_PATTERN_match segment) as [[code ds]|];
      [|reflexivity].
    destruct (Str.to_int ds); [|reflexivity].
    cbn [obind]. destruct (dict_get _ _); [|reflexivity].
    cbn [obind]. now destruct (_ && _).
Qed.

(** A keyword directive is never rejected. *)
Lemma keyword_not_rejected (text : string) (w : World) :
  In text KEYWORDS -> rejected (fst (parse_next_version text w)) = false.
Proof.
  intros Hk.
  destruct Hk as [<-|[<-|[<-|[<-|[<-|[]]]]]];
    unfold parse_next_version;
    cbn [String.eqb Ascii.eqb Bool.eqb Str.mem existsb PRERELEASE_FLAVORS orb];
    unfold get_current_version, bind, emit, ask, ret, raise, lift;
    cbn [fst snd app];
    (destruct (version_file w) as [current|]; [|reflexivity]);
    pose proof (coerce_outcome current) as Hc;
    (destruct (SemVer.coerce current) as [v|c|[]]; cbn [fst snd app];
     try reflexivity; try contradiction);
    match goal with
    | |- context [next_prerelease v ?f] =>
        pose proof (next_prerelease_not_rejected v f) as Hn;
        destruct (next_prerelease v f) as [?|?|?]; exact Hn
    end.
Qed.

Lemma mem_keywords (text : string) :
  Str.mem text KEYWORDS = true -> In text KEYWORDS.
Proof.
  unfold Str.mem. intros H. apply existsb_exists in H as (k & Hk & E).
  apply String.eqb_eq in E. now subst.
Qed.

(** A text that validates coerces. *)
Lemma validated_coerces (text : string) :
  validate_version text = Ret true ->
  exists v, SemVer.coerce text = Ret v /\ well_tagged v.
Proof.
  intros Hval. pose proof Hval as H. unfold validate_version in H.
  destruct (Pep440.is_legacy text); [discriminate|].
  destruct (SemVer.coerce text) as [v|c|e] eqn:Hco; try discriminate.
  exists v. split; [reflexivity|].
  now apply (Accepted.accepted_shape text).
Qed.

(** What the version prompt returns, when it returns. *)
Lemma ask_version_returns (w : World) (text : string) (t : trace) :
  ask_version w = (Ret text, t) ->
  is_valid_version_number text = Ret true
  \/ exists v, canonical v /\ text = Version_str v.
Proof.
  unfold ask_version. intros H.
  apply bind_Ret_inv in H as (current & ? & ? & _ & H & _).
  apply bind_Ret_inv in H as (cur_v & ? & ? & _ & H & _).
  apply bind_Ret_inv in H as (next_alpha & ? & ? & _ & H & _).
  apply bind_Ret_inv in H as (typed & ? & ? & Hq & H & _).
  apply bind_Ret_inv in H as (version & ? & ? & Hsel & Hfin & _).
  assert (Hv : version = Some text).
  { destruct version as [text'|]; [|discriminate].
    destruct (Str.nonempty text'); [|discriminate].
    apply Resolved.ret_inv in Hfin. now subst. }
  subst version.
  assert (Ht : first_valid is_valid_version_number (text_input w) = Ret typed).
  { unfold questionary_text, bind, emit, ask, lift in Hq.
    cbn [fst snd app] in Hq.
    destruct (first_valid _ _) as [a|c|e]; try discriminate.
    now injection Hq as ->. }
  destruct typed as [flavor|];
    [|apply Resolved.ret_inv in Hsel; discriminate].
  destruct (Str.mem flavor PRERELEASE_FLAVORS
            && negb (SemVer.has_prerelease cur_v)).
  - right.
    apply bind_Ret_inv in Hsel as (c1 & ? & ? & H1 & Hsel & _).
    apply bind_Ret_inv in Hsel as (c2 & ? & ? & H2 & Hsel & _).
    apply bind_Ret_inv in Hsel as (c3 & ? & ? & H3 & Hsel & _).
    apply Resolved.lift_inv in H1, H2, H3.
    assert (Hcan : forall u c, next_prerelease u flavor = Ret c -> canonical c).
    { intros u c Hc.
      apply Bump.next_prerelease_inv in Hc as (code & n & Hcode & Hn & ->).
      apply Tag.flavor_code in Hcode as (_ & _ & Hcode).
      split; [reflexivity|]. right. now exists code, n. }
    unfold questionary_select, bind, emit, ask, ret in Hsel.
    cbn [fst snd app] in Hsel.
    destruct (select_answer w) as [i|]; [|discriminate].
    injection Hsel as Hsel _.
    destruct i as [|[|[|i]]]; cbn [nth_error] in Hsel;
      [| | |destruct i; discriminate];
      injection Hsel as <-; eexists; (split; [|reflexivity]); eauto.
  - left. apply Resolved.ret_inv in Hsel. injection Hsel as <-.
    now apply Prompt.first_valid_some in Ht.
Qed.

End Reject.

(** X17.  The script's own error is raised in exactly one situation:
    [parse_next_version] ends with "Invalid version number" when, and
    only when, the text is none of the five keywords and
    [validate_version] returns [False] for it.  A keyword never leads to
    it, whatever the version file holds. *)
Theorem invalid_version_number_raised (text : string) (w : World) :
  rejected (fst (parse_next_version text w)) = true
  <-> Str.mem text KEYWORDS = false /\ validate_version text = Ret false.
Proof.
  destruct (Str.mem text KEYWORDS) eqn:Ek.
  - rewrite (Reject.keyword_not_rejected text w (Reject.mem_keywords _ Ek)).
    split; [discriminate | now intros [? _]].
  - rewrite (Explicit.parse_next_version_explicit text w Ek). cbn [fst].
    destruct (validate_version text) as [[|]|c|[]] eqn:Hval;
      try (split; [discriminate | intros [_ ?]; discriminate]).
    + destruct (Reject.validated_coerces text Hval) as (v & -> & _).
      split; [discriminate | intros [_ ?]; discriminate].
    + now split.
    + pose proof Hval as H. unfold validate_version in H.
      destruct (Pep440.is_legacy text); [discriminate|].
      pose proof (Reject.coerce_outcome text) as Hc.
      destruct (SemVer.coerce text) as [v|c|[]]; try discriminate;
        contradiction.
Qed.

(** X18.  The prompt and the parser agree: whatever text [ask_version]
    returns is not empty and is either one of the five keywords or an
    explicit version that [parse_next_version] resolves, without reading
    the version file again, to a version without prerelease or with one
    tag of the script. *)
Theorem prompt_answer_resolves (w : World) (text : string) (t : trace) :
  ask_version w = (Ret text, t) ->
  Str.nonempty text = true
  /\ (Str.mem text KEYWORDS = true
      \/ exists v,
           next_version (mkNamespace None) w = (Ret v, t) /\ well_tagged v).
Proof.
  intros Ha. pose proof (Reject.ask_version_returns w text t Ha) as Hk.
  assert (Hn : Str.nonempty text = true).
  { destruct Hk as [Hv|(v & Hv & ->)].
    - now apply Prompt.valid_nonempty.
    - now apply Interactive.canonical_nonempty. }
  split; [exact Hn|].
  destruct (Str.mem text KEYWORDS) eqn:Ek; [now left | right].
  unfold next_version. cbn [next_version_arg].
  rewrite (Run.bind_returns _ _ _ _ _ Ha).
  destruct Hk as [Hv|(v & Hv & ->)].
  - unfold is_valid_version_number in Hv.
    change ["major"; "minor"; "patch"; "alpha"; "rc"] with KEYWORDS in Hv.
    rewrite Ek in Hv.
    destruct (Reject.validated_coerces text Hv) as (v & Hco & Hw).
    exists v. rewrite (Explicit.parse_next_version_explicit text w Ek).
    rewrite Hv, Hco. cbn [fst snd]. now rewrite List.app_nil_r.
  - exists v. rewrite (Explicit.canonical_explicit v w Hv).
    cbn [fst snd]. rewrite List.app_nil_r. split; [reflexivity | apply Hv].
Qed.

Lemma prompt_answer_resolves_witness :
  exists v,
    next_version (mkNamespace None)
      (sample_world "master" "2.4.0" "~2.4.0" ["latest"; "2.4.1rc1"])
    = (Ret v, snd (ask_version
                     (sample_world "master" "2.4.0" "~2.4.0"
                        ["latest"; "2.4.1rc1"])))
    /\ well_tagged v.
Proof.
  destruct (prompt_answer_resolves
              (sample_world "master" "2.4.0" "~2.4.0" ["latest"; "2.4.1rc1"])
              "2.4.1rc1"
              (snd (ask_version
                      (sample_world "master" "2.4.0" "~2.4.0"
                         ["latest"; "2.4.1rc1"]))))
    as (_ & [H|H]).
  - vm_compute. reflexivity.
  - vm_compute in H. discriminate H.
  - exact H.
Defined.

(* ================================================================== *)
(** ** The handlers of the pyproject writer *)

Module Handlers.
Import Run.

Lemma validated_no_unable args :
  traces (fun e => is_unable_message e = false) (validated args).
Proof.
  unfold validated, confirmed, version_resolved, guards_checked.
  follow.
Qed.

Lemma rest_no_unable v :
  traces (fun e => is_unable_message e = false)
    (changelog_step v;; workflow v)%py.
Proof. unfold changelog_step, workflow. follow. Qed.

End Handlers.

(** X19.  Within [main] the error handlers of
    [write_version_to_pyproject] never run: the dependency check has
    loaded the same pyproject before, so a missing or malformed pyproject
    ends the run there with the uncaught exception of the loader, and no
    run of [main] prints an "Unable to update" or "Unable to parse"
    message. *)
Theorem pyproject_handlers_unreached (args : Namespace) (w : World) :
  existsb is_unable_message (snd (main args w)) = false
  /\ (fst (main args w) = Ret tt ->
      exists raw, pyproject w = PyprojectData (Some raw)).
Proof.
  split.
  - apply Closing.no_event.
    rewrite Stage.main_from_persisted.
    pose proof (Handlers.validated_no_unable args w) as Hv.
    destruct (validated args w) as [[v|c|e] t0] eqn:Ev; cbn [snd] in Hv.
    + pose proof (Persist.persisted_run args w v t0 Ev) as Hp.
      assert (Hpe : Forall (fun e => is_unable_message e = false)
                      (snd (persisted args w))).
      { rewrite Hp.
        destruct (subprocess w (ADD_VERSION_FILE w)); cbn [snd];
          apply Forall_app; (split; [exact Hv | repeat constructor]). }
      destruct (persisted args w) as [[v'|c|e] tp] eqn:Ep; cbn [snd] in Hpe.
      * rewrite (Run.bind_returns _ _ _ _ _ Ep). cbn [snd].
        apply Forall_app. split; [exact Hpe|].
        apply Handlers.rest_no_unable.
      * now rewrite (Run.bind_stops _ _ _ _ _ Ep I).
      * now rewrite (Run.bind_stops _ _ _ _ _ Ep I).
    + assert (Ep : persisted args w = (Exit c, t0))
        by (unfold persisted; now rewrite (Run.bind_stops _ _ _ _ _ Ev I)).
      now rewrite (Run.bind_stops _ _ _ _ _ Ep I).
    + assert (Ep : persisted args w = (Raise e, t0))
        by (unfold persisted; now rewrite (Run.bind_stops _ _ _ _ _ Ev I)).
      now rewrite (Run.bind_stops _ _ _ _ _ Ep I).
  - intros H.
    destruct (main args w) as [o t] eqn:E. cbn [fst] in H. subst o.
    rewrite Stage.main_stages in E.
    apply Run.bind_Ret_inv in E as (v & ? & ? & E & _ & _).
    apply Persist.changelog_generated_returns in E as (? & ? & E & _).
    apply Persist.persisted_returns in E as (t0 & E & _).
    exact (Persist.validated_pyproject _ _ _ _ E).
Qed.
